(** * Paletizador inteligente: the CP-SAT model, its metrics and its layout

    A shallow embedding of [PalletOptimizer] (src/app.py): the constraint
    model built by [otimizar], the utilisation figures of
    [calcular_metricas] and the boxes drawn by [criar_visualizacao_3d].

    Conventions of the embedding.
    - Python [int] is [Z]; [range(k)] is [range k], empty for [k <= 0].
    - Python [float] (dimensions, rates) is idealised as the rationals [Q].
    - The three variable dictionaries [x], [r], [s] map a key [(a, b)] to the
      Boolean variable created for it; the variable of key [(a, b)] is written
      [X a b], [R a b], [S a b].
    - The CP-SAT solver is an opaque capability: a function from the
      time limit and the model to a status and a valuation, one such function
      for each [CpSolver] object.  The valuation stands for [solver.Value];
      Boolean variables take the values 0 and 1 only, so
      [solver.Value(v) == 1] is the Boolean [v].
    - The constraint library takes 64-bit integers only: handed a float or a
      larger integer in a linear constraint it raises [TypeError]. *)

From Stdlib Require Import List ZArith QArith Lia Bool String Arith.
From Stdlib Require Import Permutation DecimalString Ascii Qround.
Import ListNotations.
Local Open Scope Z_scope.

(** ** Data model *)

(** An entry of [itens].  [vol] and [mass] are the scaled integers
    ([SCALE_VOL], [SCALE_MASS]); [prioridade] and [destino] are read with
    [.get], hence optional. *)
Record Item := mkItem {
  id_ : Z;
  nome : string;
  categoria : string;
  l : Q;
  w : Q;
  h : Q;
  vol : Z;
  mass : Z;
  f : bool;
  o : bool;
  prioridade : option Z;
  destino : option string
}.

(** [pallets_config] with integer capacities, as the presets 'PBR' and
    'Europeia' give them and as the constraints and the metrics use them.
    The dictionary the page hands to [otimizar], whose capacities may be
    floats, is [Dict.pallets_config] below. *)
Record PalletsConfig := mkConfig {
  quantidade : Z;
  capacidade_massa : Z;
  capacidade_volume : Z;
  tipo : string
}.

Definition SCALE_VOL : Z := 1000000.
Definition SCALE_MASS : Z := 1000.

(** [range(k)] *)
Definition range (k : Z) : list nat := seq 0 (Z.to_nat k).

(** [enumerate(itens)]: the loops [for i in range(len(itens))] read
    [itens[i]] only. *)
Definition enumerate {A : Type} (xs : list A) : list (nat * A) :=
  combine (seq 0 (List.length xs)) xs.

(** [itens[i].get('prioridade', 1)] *)
Definition get_prioridade (it : Item) : Z :=
  match prioridade it with Some q => q | None => 1 end.

(** ** The constraint model *)

Inductive Var : Type :=
| X (i p : nat)
| R (i k : nat)
| S (i j : nat).

(** A linear expression is a sum of [coefficient * variable] terms. *)
Definition LinExpr := list (Z * Var).

Inductive Constraint : Type :=
| LinLe (e : LinExpr) (c : Z)
| LinEq (e : LinExpr) (c : Z).

Definition expr_of (c : Constraint) : LinExpr :=
  match c with LinLe e _ => e | LinEq e _ => e end.

Inductive Sense : Type := Maximize | Minimize.

Record CpModel := mkModel {
  variables : list Var;
  constraints : list Constraint;
  objective : Sense * LinExpr
}.

Definition Valuation := Var -> bool.

Definition term_value (v : Valuation) (t : Z * Var) : Z :=
  fst t * Z.b2z (v (snd t)).

Definition eval (v : Valuation) (e : LinExpr) : Z :=
  fold_right (fun t acc => term_value v t + acc) 0 e.

Definition holds (v : Valuation) (c : Constraint) : bool :=
  match c with
  | LinLe e b => eval v e <=? b
  | LinEq e b => eval v e =? b
  end.

Definition model_holds (v : Valuation) (m : CpModel) : bool :=
  forallb (holds v) (constraints m).

(** ** [otimizar]: building the model *)

Section Builder.
Variable itens : list Item.
Variable pallets_config : PalletsConfig.

Let n := List.length itens.
Let num_pallets := quantidade pallets_config.

(** Lines 97-104: creation of the variables. *)
Definition criar_variaveis : list Var :=
  flat_map (fun i =>
    map (fun p => X i p) (range num_pallets)
    ++ map (fun k => R i k) (seq 0 6)
    ++ flat_map (fun j => if Nat.eqb i j then [] else [S i j]) (seq 0 n))
  (seq 0 n).

(** Line 109. *)
Definition restricao_uma_palete (i : nat) : Constraint :=
  LinLe (map (fun p => (1, X i p)) (range num_pallets)) 1.

(** Lines 112-117. *)
Definition restricoes_rotacao (i : nat) (it : Item) : list Constraint :=
  if o it then
    [LinEq (map (fun k => (1, R i k)) (seq 0 6)) 1]
  else
    LinEq [(1, R i 0%nat)] 1 :: map (fun k => LinEq [(1, R i k)] 0) (seq 1 5).

(** Lines 107-117. *)
Definition restricoes_itens : list Constraint :=
  flat_map (fun '(i, it) => restricao_uma_palete i :: restricoes_rotacao i it)
           (enumerate itens).

(** Lines 122-129, for one pair. *)
Definition restricoes_par (i : nat) (it_i : Item) (j : nat) (it_j : Item)
  : list Constraint :=
  if Nat.eqb i j then []
  else
    (if f it_j then [LinEq [(1, S i j)] 0] else [])
    ++ (if mass it_i >? mass it_j then [LinEq [(1, S i j)] 0] else []).

(** Lines 120-129. *)
Definition restricoes_empilhamento : list Constraint :=
  flat_map (fun '(i, it_i) =>
    flat_map (fun '(j, it_j) => restricoes_par i it_i j it_j)
             (enumerate itens))
  (enumerate itens).

(** Lines 133-138, for one pallet. *)
Definition restricoes_palete (p : nat) : list Constraint :=
  [ LinLe (map (fun '(i, it) => (mass it, X i p)) (enumerate itens))
       (capacidade_massa pallets_config);
    LinLe (map (fun '(i, it) => (vol it, X i p)) (enumerate itens))
       (capacidade_volume pallets_config) ].

(** Lines 132-138. *)
Definition restricoes_capacidade : list Constraint :=
  flat_map restricoes_palete (range num_pallets).

(** Lines 141-145. *)
Definition objetivo : LinExpr :=
  flat_map (fun '(i, it) =>
    map (fun p => (vol it * get_prioridade it, X i p)) (range num_pallets))
  (enumerate itens).

(** The model handed to [solver.Solve]. *)
Definition otimizar_model : CpModel :=
  {| variables := criar_variaveis;
     constraints :=
       restricoes_itens ++ restricoes_empilhamento ++ restricoes_capacidade;
     objective := (Maximize, objetivo) |}.
End Builder.

(** ** [otimizar]: solving and returning *)

(** [cp_model] statuses. *)
Inductive SolveStatus : Type :=
| UNKNOWN | MODEL_INVALID | FEASIBLE | INFEASIBLE | OPTIMAL.

(** The exceptions that matter here.  [TypeError] is what the constraint
    library raises when it is handed a number it does not take.
    [InvalidConfiguration] is the error the specification names; no
    statement of src/app.py raises it. *)
Inductive Erro : Type :=
| ZeroDivisionError
| StopIteration
| IndexError
| TypeError
| InvalidConfiguration.

Inductive Outcome (A : Type) : Type :=
| Returned (a : A)
| Raised (e : Erro).
Arguments Returned {A} a.
Arguments Raised {A} e.

(** One [CpSolver()] object: [solver.Solve(model)] under
    [max_time_in_seconds] gives the status and the values the solver holds
    afterwards.  Every call of [otimizar] creates its own solver (line 149),
    so two calls are two searches, each with a [Solver] of its own. *)
Definition Solver := Z -> CpModel -> SolveStatus * Valuation.

(** A run records the calls made to the solving capability. *)
Record Run (A : Type) := mkRun {
  outcome : Outcome A;
  solve_calls : list (Z * CpModel)
}.
Arguments mkRun {A} outcome solve_calls.
Arguments outcome {A} r.
Arguments solve_calls {A} r.

(** The tuple [(solver, x, r, s, status)]; the dictionaries are given by
    their variables, in creation order. *)
Record Resultado := mkResultado {
  solver : option Valuation;
  x : option (list Var);
  r : option (list Var);
  s : option (list Var);
  status : SolveStatus
}.

Definition is_X (a : Var) : bool := match a with X _ _ => true | _ => false end.
Definition is_R (a : Var) : bool := match a with R _ _ => true | _ => false end.
Definition is_S (a : Var) : bool := match a with S _ _ => true | _ => false end.

(** ** The dictionary [pallets_config] as the page builds it *)

(** A Python number: the presets 'PBR' and 'Europeia' give the capacities
    as [int] (lines 350-351 and 357-358), the preset 'Personalizada' as
    [float], [st.number_input(...) * SCALE_MASS] and [... * SCALE_VOL]
    (lines 365-366). *)
Inductive Numero : Type :=
| Inteiro (z : Z)
| Flutuante (q : Q).

Module Dict.
Record pallets_config := mk {
  quantidade : Z;
  capacidade_massa : Numero;
  capacidade_volume : Numero;
  tipo : string
}.
End Dict.

(** The integers the constraint library takes as a coefficient or as a
    bound: those of a signed 64-bit word. *)
Definition INT_MIN : Z := - 2 ^ 63.
Definition INT_MAX : Z := 2 ^ 63 - 1.

Definition int64 (z : Z) : bool := (INT_MIN <=? z) && (z <=? INT_MAX).

(** The bound of [expr <= cap]: an [int] of the 64-bit range is taken, a
    [float] or a larger [int] is not. *)
Definition limite_aceito (cap : Numero) : bool :=
  match cap with
  | Inteiro z => int64 z
  | Flutuante _ => false
  end.

(** [model.Add(sum(x[i, p] * int(c_i) for i in range(n)) <= cap)], lines
    133-138, with the coefficients [c_i] in item order.  Over no item the sum
    is the Python integer 0 and the comparison a Python Boolean, which
    [model.Add] takes whatever [cap] is; over items the library builds a
    linear expression and takes it only with 64-bit coefficients and a 64-bit
    integer bound: otherwise the statement raises [TypeError]. *)
Definition add_aceito (coefs : list Z) (cap : Numero) : bool :=
  match coefs with
  | [] => true
  | _ :: _ => forallb int64 coefs && limite_aceito cap
  end.

(** Lines 132-138 raise [TypeError]: the loop runs, and its first turn hands
    the library a mass or a volume constraint it does not take. *)
Definition capacidade_recusada (itens : list Item)
    (pallets_config : Dict.pallets_config) : bool :=
  (0 <? Dict.quantidade pallets_config) &&
  negb (add_aceito (map mass itens) (Dict.capacidade_massa pallets_config) &&
        add_aceito (map vol itens) (Dict.capacidade_volume pallets_config)).

(** The integer bound that constrains an integer sum as [cap] does:
    [e <= cap] exactly when [e <= limite cap]. *)
Definition limite (cap : Numero) : Z :=
  match cap with
  | Inteiro z => z
  | Flutuante q => Qfloor q
  end.

(** The configuration the model is built from, once the library has taken
    the capacities. *)
Definition config_inteira (pallets_config : Dict.pallets_config)
  : PalletsConfig :=
  {| quantidade := Dict.quantidade pallets_config;
     capacidade_massa := limite (Dict.capacidade_massa pallets_config);
     capacidade_volume := limite (Dict.capacidade_volume pallets_config);
     tipo := Dict.tipo pallets_config |}.

(** The dictionary of a configuration whose capacities are integers. *)
Definition dict_de (cfg : PalletsConfig) : Dict.pallets_config :=
  Dict.mk (quantidade cfg) (Inteiro (capacidade_massa cfg))
          (Inteiro (capacidade_volume cfg)) (tipo cfg).

(** Lines 85-156.  The only statements that can fail are those of the
    capacity loop, before the solver is created; the objective takes its
    coefficients as they are. *)
Definition otimizar (solve : Solver) (itens : list Item)
    (pallets_config : Dict.pallets_config) : Run Resultado :=
  if capacidade_recusada itens pallets_config
  then mkRun (Raised TypeError) []
  else
  let model := otimizar_model itens (config_inteira pallets_config) in
  let '(st, value) := solve 30 model in
  let res :=
    match st with
    | OPTIMAL | FEASIBLE =>
        {| solver := Some value;
           x := Some (filter is_X (variables model));
           r := Some (filter is_R (variables model));
           s := Some (filter is_S (variables model));
           status := st |}
    | _ => {| solver := None; x := None; r := None; s := None; status := st |}
    end in
  mkRun (Returned res) [(30, model)].

(** What the solving capability guarantees: values returned with [OPTIMAL]
    or [FEASIBLE] satisfy every constraint of the model. *)
Definition solver_sound (solve : Solver) : Prop :=
  forall t m st v, solve t m = (st, v) ->
    st = OPTIMAL \/ st = FEASIBLE -> model_holds v m = true.

(** A solver that only checks one candidate valuation. *)
Definition check_solver (cand : Valuation) : Solver :=
  fun _ m =>
    if model_holds cand m then (FEASIBLE, cand) else (INFEASIBLE, cand).

(** ** [permutacoes] and the orientation read back *)

(** Lines 77-83. *)
Definition permutacoes {A : Type} (l w h : A) : list (A * A * A) :=
  [ (l, w, h); (l, h, w);
    (w, l, h); (w, h, l);
    (h, l, w); (h, w, l) ].

(** [next(k for k in range(6) if solver.Value(r[i, k]) == 1)] *)
Definition orientacao (v : Valuation) (i : nat) : option nat :=
  find (fun k => v (R i k)) (seq 0 6).

(** ** [calcular_metricas] *)

Record Metricas := mkMetricas {
  pallets_utilizados : Z;
  itens_carregados : Z;
  itens_total : Z;
  taxa_utilizacao_itens : Q;
  volume_utilizado : Q;
  volume_disponivel : Q;
  taxa_utilizacao_volume : Q;
  peso_utilizado : Q;
  peso_disponivel : Q;
  taxa_utilizacao_peso : Q
}.

(** The returned dictionary: [{}] or the ten entries. *)
Inductive MetricasDict : Type :=
| vazio
| cheio (m : Metricas).

(** [a / b] on two integers. *)
Definition truediv (a b : Z) : Q := (inject_Z a / inject_Z b)%Q.

(** Lines 231-239: [(volume_palete, peso_palete, itens_palete)]. *)
Definition totais_palete (v : Valuation) (itens : list Item) (p : nat)
  : Z * Z * Z :=
  fold_left (fun '(volume_palete, peso_palete, itens_palete) '(i, it) =>
               if v (X i p)
               then (volume_palete + vol it, peso_palete + mass it,
                     itens_palete + 1)
               else (volume_palete, peso_palete, itens_palete))
            (enumerate itens) (0, 0, 0).

(** Lines 230-245, one turn of the outer loop. *)
Definition acumular_palete (v : Valuation) (itens : list Item)
    (acc : Z * Z * Z * Z) (p : nat) : Z * Z * Z * Z :=
  let '(pallets_utilizados, volume_total_utilizado,
        peso_total_utilizado, itens_carregados) := acc in
  let '(volume_palete, peso_palete, itens_palete) := totais_palete v itens p in
  if itens_palete >? 0
  then (pallets_utilizados + 1, volume_total_utilizado + volume_palete,
        peso_total_utilizado + peso_palete, itens_carregados + itens_palete)
  else acc.

Definition totais (v : Valuation) (itens : list Item) (cfg : PalletsConfig)
  : Z * Z * Z * Z :=
  fold_left (acumular_palete v itens) (range (quantidade cfg)) (0, 0, 0, 0).

(** Lines 216-264.  [x[i, p]] is the variable [X i p]. *)
Definition calcular_metricas (itens : list Item) (solver : option Valuation)
    (pallets_config : PalletsConfig) : Outcome MetricasDict :=
  match solver with
  | None => Returned vazio
  | Some v =>
      let '(pallets_utilizados, volume_total_utilizado,
            peso_total_utilizado, itens_carregados) :=
        totais v itens pallets_config in
      let volume_total_disponivel :=
        capacidade_volume pallets_config * pallets_utilizados in
      let peso_total_disponivel :=
        capacidade_massa pallets_config * pallets_utilizados in
      let len_itens := Z.of_nat (List.length itens) in
      if len_itens =? 0 then Raised ZeroDivisionError
      else Returned (cheio
        {| pallets_utilizados := pallets_utilizados;
           itens_carregados := itens_carregados;
           itens_total := len_itens;
           taxa_utilizacao_itens :=
             (truediv itens_carregados len_itens * 100)%Q;
           volume_utilizado := truediv volume_total_utilizado SCALE_VOL;
           volume_disponivel := truediv volume_total_disponivel SCALE_VOL;
           taxa_utilizacao_volume :=
             if volume_total_disponivel >? 0
             then (truediv volume_total_utilizado volume_total_disponivel
                   * 100)%Q
             else 0%Q;
           peso_utilizado := truediv peso_total_utilizado SCALE_MASS;
           peso_disponivel := truediv peso_total_disponivel SCALE_MASS;
           taxa_utilizacao_peso :=
             if peso_total_disponivel >? 0
             then (truediv peso_total_utilizado peso_total_disponivel
                   * 100)%Q
             else 0%Q |})
  end.

(** ** The caller: lines 426-434 and 593-596 of [main] *)

Inductive Pagina : Type :=
| SemResultados
| Sucesso (metricas : Outcome MetricasDict)
| SemSolucao (st : SolveStatus).

(** [if otimizar_btn and itens: ...]: an empty list is falsy; an exception
    of [otimizar] is not caught.  The metrics are computed after [otimizar]
    has returned, with items: then the capacities are integers, or no pallet
    is configured and the capacities are only multiplied by the 0 pallets
    used; either way the figures are those of [config_inteira]. *)
Definition main_resultados (solve : Solver) (otimizar_btn : bool)
    (itens : list Item) (pallet_config : Dict.pallets_config) : Run Pagina :=
  if otimizar_btn && negb (Nat.eqb (List.length itens) 0) then
    let run := otimizar solve itens pallet_config in
    match outcome run with
    | Raised e => mkRun (Raised e) (solve_calls run)
    | Returned res =>
        match solver res with
        | Some v =>
            mkRun (Returned (Sucesso
                     (calcular_metricas itens (Some v)
                        (config_inteira pallet_config))))
                  (solve_calls run)
        | None => mkRun (Returned (SemSolucao (status res))) (solve_calls run)
        end
    end
  else mkRun (Returned SemResultados) [].

(** ** Per-pallet totals shown in the pallet details (lines 522-523) *)

Definition soma_Z (zs : list Z) : Z := fold_right Z.add 0 zs.

(** The entries of [enumerate(itens)] with [solver.Value(x[i, p]) == 1]. *)
Definition itens_da_palete (v : Valuation) (itens : list Item) (p : nat)
  : list (nat * Item) :=
  filter (fun e => v (X (fst e) p)) (enumerate itens).

Definition vol_palete (v : Valuation) (itens : list Item) (p : nat) : Z :=
  soma_Z (map (fun e => vol (snd e)) (itens_da_palete v itens p)).

Definition peso_palete (v : Valuation) (itens : list Item) (p : nat) : Z :=
  soma_Z (map (fun e => mass (snd e)) (itens_da_palete v itens p)).

(** ** The quantities the metrics are stated with *)

(** Number of items on pallet [p]. *)
Definition itens_na_palete (v : Valuation) (itens : list Item) (p : nat) : Z :=
  Z.of_nat (List.length (itens_da_palete v itens p)).

(** The pallets that hold at least one item. *)
Definition paletes_usadas (v : Valuation) (itens : list Item)
    (cfg : PalletsConfig) : list nat :=
  filter (fun p => itens_na_palete v itens p >? 0) (range (quantidade cfg)).

Definition used_pallets (v : Valuation) (itens : list Item)
    (cfg : PalletsConfig) : Z :=
  Z.of_nat (List.length (paletes_usadas v itens cfg)).

(** Assigned volume, mass and item count, over all pallets. *)
Definition volume_loaded (v : Valuation) (itens : list Item)
    (cfg : PalletsConfig) : Z :=
  soma_Z (map (vol_palete v itens) (range (quantidade cfg))).

Definition mass_loaded (v : Valuation) (itens : list Item)
    (cfg : PalletsConfig) : Z :=
  soma_Z (map (peso_palete v itens) (range (quantidade cfg))).

Definition items_loaded (v : Valuation) (itens : list Item)
    (cfg : PalletsConfig) : Z :=
  soma_Z (map (itens_na_palete v itens) (range (quantidade cfg))).

(** ** [criar_visualizacao_3d] *)

(** A [go.Mesh3d] trace: the pallet base of pallet [p], or the box of item
    [i], with its vertex coordinates.  Colours, opacity and the face index
    lists do not depend on the solution and are left out. *)
Inductive Trace : Type :=
| Base (p : nat) (xs ys zs : list Q)
| Caixa (i : nat) (xs ys zs : list Q).

Local Open Scope Q_scope.

(** [offset_x = p * 2.5] *)
Definition offset_x (p : nat) : Q := inject_Z (Z.of_nat p) * (25 # 10).

(** Lines 170-178. *)
Definition base_palete (p : nat) : Trace :=
  let ox := offset_x p in
  Base p [ox; ox + (12 # 10); ox + (12 # 10); ox]
         [0; 0; (8 # 10); (8 # 10)]
         [0; 0; 0; 0].

(** Lines 187-199. *)
Definition caixa (ox z_top : Q) (i : nat) (d : Q * Q * Q) : Trace :=
  let '(l, w, h) := d in
  Caixa i [ox; ox + l; ox + l; ox; ox; ox + l; ox + l; ox]
          [0; 0; w; w; 0; 0; w; w]
          [z_top; z_top; z_top; z_top;
           z_top + h; z_top + h; z_top + h; z_top + h].

(** Lines 180-201, one turn of the inner loop on the state
    [(z_top, fig)]. *)
Definition passo_item (v : Valuation) (p : nat)
    (st : Outcome (Q * list Trace)) (e : nat * Item)
  : Outcome (Q * list Trace) :=
  match st with
  | Raised err => Raised err
  | Returned (z_top, fig) =>
      let '(i, it) := e in
      if v (X i p) then
        match orientacao v i with
        | None => Raised StopIteration
        | Some orient =>
            match nth_error (permutacoes (l it) (w it) (h it)) orient with
            | None => Raised IndexError
            | Some (l', w', h') =>
                Returned (z_top + h',
                          fig ++ [caixa (offset_x p) z_top i (l', w', h')])
            end
        end
      else st
  end.

(** Lines 165-201, one turn of the outer loop on [fig]. *)
Definition passo_palete (v : Valuation) (itens : list Item)
    (st : Outcome (list Trace)) (p : nat) : Outcome (list Trace) :=
  match st with
  | Raised err => Raised err
  | Returned fig =>
      let z_top := 0 in
      match fold_left (passo_item v p) (enumerate itens)
                      (Returned (z_top, fig ++ [base_palete p])) with
      | Raised err => Raised err
      | Returned (_, fig') => Returned fig'
      end
  end.

(** Lines 158-214: the traces of the figure, in the order they are added. *)
Definition criar_visualizacao_3d (itens : list Item) (v : Valuation)
    (pallets_config : PalletsConfig) : Outcome (list Trace) :=
  fold_left (passo_palete v itens) (range (quantidade pallets_config))
            (Returned []).

(** ** The layout as the specification words it *)

(** A running sum, taken in list order from 0. *)
Definition soma_Q (qs : list Q) : Q := fold_left Qplus qs 0.

(** The permutation of [(l, w, h)] selected for item [i]. *)
Definition dims_orientadas (v : Valuation) (e : nat * Item) : Q * Q * Q :=
  let it := snd e in
  match orientacao v (fst e) with
  | Some k => nth k (permutacoes (l it) (w it) (h it)) (l it, w it, h it)
  | None => (l it, w it, h it)
  end.

Definition altura_orientada (v : Valuation) (e : nat * Item) : Q :=
  snd (dims_orientadas v e).

(** The height cursor met by item [i] on pallet [p]: the heights of the
    lower-indexed items of that pallet, summed from 0. *)
Definition spec_z0 (v : Valuation) (itens : list Item) (p i : nat) : Q :=
  soma_Q (map (altura_orientada v)
              (filter (fun e => v (X (fst e) p))
                      (firstn i (enumerate itens)))).

(** One tower per pallet: the base, then the pallet's items by ascending
    index, each at footprint origin with its cursor. *)
Definition spec_layout (v : Valuation) (itens : list Item)
    (pallets_config : PalletsConfig) : list Trace :=
  flat_map (fun p =>
      base_palete p ::
      map (fun e => caixa (offset_x p) (spec_z0 v itens p (fst e)) (fst e)
                          (dims_orientadas v e))
          (itens_da_palete v itens p))
    (range (quantidade pallets_config)).

(** Pallet-local coordinates of a box: its first vertex, with the pallet's
    offset taken off the x coordinate. *)
Definition origem_local (p : nat) (t : Trace) : option (Q * Q * Q) :=
  match t with
  | Caixa _ (x0 :: _) (y0 :: _) (z0 :: _) => Some (x0 - offset_x p, y0, z0)
  | _ => None
  end.

(** The boxes stacked from cursor [z] for the entries [es] of pallet [p]. *)
Fixpoint torre (v : Valuation) (p : nat) (z : Q) (es : list (nat * Item))
  : list Trace :=
  match es with
  | [] => []
  | e :: es' =>
      if v (X (fst e) p)
      then caixa (offset_x p) z (fst e) (dims_orientadas v e)
           :: torre v p (z + altura_orientada v e) es'
      else torre v p z es'
  end.

(** The cursor after the entries [es]. *)
Definition cursor_final (v : Valuation) (p : nat) (z : Q)
    (es : list (nat * Item)) : Q :=
  fold_left Qplus
            (map (altura_orientada v) (filter (fun e => v (X (fst e) p)) es)) z.

Local Close Scope Q_scope.

(** ** Unloading an item, and sample data *)

(** The valuation [v] with item [i] taken off every pallet. *)
Definition descarregar (i : nat) (v : Valuation) : Valuation :=
  fun a =>
    match a with
    | X i' _ => if Nat.eqb i' i then false else v a
    | _ => v a
    end.

(** The item [it] with another mass and another destination. *)
Definition com_mass_destino (it : Item) (m : Z) (d : option string) : Item :=
  mkItem (id_ it) (nome it) (categoria it) (l it) (w it) (h it)
         (vol it) m (f it) (o it) (prioridade it) d.

Definition item_leve : Item :=
  mkItem 0 "Item_1"%string "Padrao"%string (5 # 10) (4 # 10) (3 # 10)
         60000 1000 false true (Some 3) (Some "Salvador"%string).

Definition item_fragil : Item :=
  mkItem 1 "Item_2"%string "Padrao"%string (6 # 10) (5 # 10) (4 # 10)
         120000 2000 true false None None.

Definition item_pesado : Item :=
  mkItem 2 "Item_3"%string "Padrao"%string (8 # 10) (6 # 10) (5 # 10)
         240000 5000 false false (Some 5) (Some "Sao Paulo"%string).

Definition itens_exemplo : list Item := [item_leve; item_fragil; item_pesado].

Definition config_exemplo : PalletsConfig :=
  mkConfig 2 6000 300000 "PBR"%string.

Definition config_sem_paletes : PalletsConfig :=
  mkConfig 0 6000 300000 "PBR"%string.

(** The preset 'Personalizada' at its default values: [1000.0 * SCALE_MASS]
    and [2.16 * SCALE_VOL], both [float]. *)
Definition dict_personalizada : Dict.pallets_config :=
  Dict.mk 2 (Flutuante (inject_Z 1000000)) (Flutuante (inject_Z 2160000))
          "Personalizada"%string.

(** The same, with no pallet. *)
Definition dict_personalizada_sem_paletes : Dict.pallets_config :=
  Dict.mk 0 (Flutuante (inject_Z 1000000)) (Flutuante (inject_Z 2160000))
          "Personalizada"%string.

(** [item_leve] with a mass beyond the 64-bit range. *)
Definition item_desmedido : Item :=
  com_mass_destino item_leve (2 ^ 63) (destino item_leve).

(** Items 0 and 2 on pallet 0, item 1 on pallet 1; item 0 turned to
    permutation 3, nothing stacked. *)
Definition valor_exemplo : Valuation :=
  fun a =>
    match a with
    | X 0 0 | X 2 0 | X 1 1 => true
    | R 0 3 | R 1 0 | R 2 0 => true
    | _ => false
    end.

(** [valor_exemplo] with item 0 resting on item 2. *)
Definition valor_empilhado : Valuation :=
  fun a => match a with S 0 2 => true | _ => valor_exemplo a end.

(** Nothing loaded, every item in its original orientation. *)
Definition valor_vazio : Valuation :=
  fun a => match a with R _ 0 => true | _ => false end.

(** ** Further notions used to state properties of the model *)

(** The item a variable belongs to (the first component of its key). *)
Definition item_da_variavel (a : Var) : nat :=
  match a with X i _ | R i _ | S i _ => i end.

(** Number of Boolean variables of each kind. *)
Definition conta_variaveis (q : Var -> bool) (m : CpModel) : nat :=
  List.length (filter q (variables m)).


(** The valuation [v] with the stacking variable [s[i, j]] set to [b]. *)
Definition empilhar (i j : nat) (b : bool) (v : Valuation) : Valuation :=
  fun a =>
    match a with
    | S i' j' => if Nat.eqb i' i && Nat.eqb j' j then b else v a
    | _ => v a
    end.

(** The valuation [v] kept on the pallets below [k], nothing on the others. *)
Definition restringir (k : Z) (v : Valuation) : Valuation :=
  fun a =>
    match a with
    | X _ p => if Z.of_nat p <? k then v a else false
    | _ => v a
    end.

Definition config_maior : PalletsConfig :=
  mkConfig 3 7000 400000 "Personalizada"%string.


(** Item [e] is on pallet [p] and none of its orientation variables is
    true. *)
Definition sem_orientacao (v : Valuation) (p : nat) (e : nat * Item) : bool :=
  v (X (fst e) p) &&
  match orientacao v (fst e) with Some _ => false | None => true end.

(** Some loaded item of some pallet has no orientation. *)
Definition falta_orientacao (v : Valuation) (itens : list Item)
    (cfg : PalletsConfig) : bool :=
  existsb (fun p => existsb (sem_orientacao v p) (enumerate itens))
          (range (quantidade cfg)).

(** A loaded item without orientation, on pallet 0. *)
Definition valor_sem_orientacao : Valuation :=
  fun a => match a with X 0 0 => true | _ => false end.


(** ** [visualizar_matplotlib] (lines 473-494) *)

(** The calls made on the axes: [ax.bar3d(x, y, z, dx, dy, dz, color=...)]
    and [ax.text(x, y, z, f"ID {i}")], the label given by its item index. *)
Inductive Desenho : Type :=
| Bar3d (bx by_ bz dx dy dz : Q) (color : string)
| Texto (tx ty tz : Q) (i : nat).

Definition colors : list string :=
  ["blue"; "green"; "orange"; "red"; "purple"; "cyan"]%string.

(** [colors[p % len(colors)]] *)
Definition cor_palete (p : nat) : string :=
  nth (p mod List.length colors) colors ""%string.

Local Open Scope Q_scope.

(** The two calls made for one item, at cursor [z_top]. *)
Definition desenhos_item (ox z_top : Q) (p i : nat) (d : Q * Q * Q)
  : list Desenho :=
  let '(l, w, h) := d in
  [ Bar3d ox 0 z_top l w h (cor_palete p);
    Texto (ox + l / 2) (2 # 10) (z_top + h / 2) i ].

(** Lines 480-486, one turn of the inner loop on [(z_top, calls)].
    [[k for k in range(6) if ...][0]] raises [IndexError] on an empty
    list. *)
Definition passo_item_mat (v : Valuation) (p : nat) (ox : Q)
    (st : Outcome (Q * list Desenho)) (e : nat * Item)
  : Outcome (Q * list Desenho) :=
  match st with
  | Raised err => Raised err
  | Returned (z_top, ax) =>
      let '(i, it) := e in
      if v (X i p) then
        match filter (fun k => v (R i k)) (seq 0 6) with
        | [] => Raised IndexError
        | orient :: _ =>
            match nth_error (permutacoes (l it) (w it) (h it)) orient with
            | None => Raised IndexError
            | Some (l', w', h') =>
                Returned (z_top + h',
                          ax ++ desenhos_item ox z_top p i (l', w', h'))
            end
        end
      else st
  end.

(** Lines 478-487, one turn of the outer loop on [(offset_x, calls)]. *)
Definition passo_palete_mat (v : Valuation) (itens : list Item)
    (st : Outcome (Q * list Desenho)) (p : nat)
  : Outcome (Q * list Desenho) :=
  match st with
  | Raised err => Raised err
  | Returned (ox, ax) =>
      let z_top := 0 in
      match fold_left (passo_item_mat v p ox) (enumerate itens)
                      (Returned (z_top, ax)) with
      | Raised err => Raised err
      | Returned (_, ax') => Returned (ox + 2, ax')
      end
  end.

(** Lines 473-494: the drawing calls, in order. *)
Definition visualizar_matplotlib (itens : list Item) (v : Valuation)
    (pallets_config : PalletsConfig) : Outcome (list Desenho) :=
  match fold_left (passo_palete_mat v itens)
                  (range (quantidade pallets_config)) (Returned (0, [])) with
  | Raised err => Raised err
  | Returned (_, ax) => Returned ax
  end.

(** The offset reached at pallet [p]: 2.0 added [p] times to 0. *)
Fixpoint offset_mat (p : nat) : Q :=
  match p with
  | O => 0
  | Datatypes.S p' => offset_mat p' + 2
  end.

(** The calls for the entries [es] of pallet [p], stacked from [z]. *)
Fixpoint torre_mat (v : Valuation) (p : nat) (ox z : Q)
    (es : list (nat * Item)) : list Desenho :=
  match es with
  | [] => []
  | e :: es' =>
      if v (X (fst e) p)
      then desenhos_item ox z p (fst e) (dims_orientadas v e)
           ++ torre_mat v p ox (z + altura_orientada v e) es'
      else torre_mat v p ox z es'
  end.

(** The calls expected from the tower layout, with spacing 2.0. *)
Definition spec_matplotlib (v : Valuation) (itens : list Item)
    (pallets_config : PalletsConfig) : list Desenho :=
  flat_map (fun p =>
      flat_map (fun e => desenhos_item (offset_mat p)
                                       (spec_z0 v itens p (fst e)) p (fst e)
                                       (dims_orientadas v e))
               (itens_da_palete v itens p))
    (range (quantidade pallets_config)).

Local Close Scope Q_scope.


(** ** The exported records (lines 537-579 and 849-908 of [main]) *)

(** [str(z)] on an integer. *)
Definition py_str (z : Z) : string := NilEmpty.string_of_int (Z.to_int z).

Fixpoint zeros (k : nat) : string :=
  match k with
  | O => EmptyString
  | Datatypes.S k' => String "0"%char (zeros k')
  end.

(** [s.zfill(width)]: zeros on the left, after a leading sign. *)
Definition zfill (width : nat) (s : string) : string :=
  if Nat.leb width (String.length s) then s
  else
    let pad := zeros (width - String.length s) in
    match s with
    | String c rest =>
        if Ascii.eqb c "-"%char || Ascii.eqb c "+"%char
        then String c (pad ++ rest)%string
        else (pad ++ s)%string
    | EmptyString => pad
    end.

(** An entry of [resultados['alocacao']]. *)
Record Alocacao := mkAlocacao {
  item_id : nat;
  palete : nat;
  aloc_orientacao : nat;
  item_dados : Item
}.

(** Lines 548-555, one turn of the inner loop. *)
Definition passo_item_aloc (v : Valuation) (p : nat)
    (st : Outcome (list Alocacao)) (e : nat * Item)
  : Outcome (list Alocacao) :=
  match st with
  | Raised err => Raised err
  | Returned alocacao =>
      let '(i, it) := e in
      if v (X i p) then
        match orientacao v i with
        | None => Raised StopIteration
        | Some orient =>
            Returned (alocacao ++ [mkAlocacao i p orient it])
        end
      else st
  end.

(** Lines 546-555: [resultados['alocacao']]. *)
Definition alocacao (itens : list Item) (v : Valuation)
    (pallet_config : PalletsConfig) : Outcome (list Alocacao) :=
  fold_left (fun st p => fold_left (passo_item_aloc v p) (enumerate itens) st)
            (range (quantidade pallet_config)) (Returned []).

(** A row of the CSV download. *)
Record LinhaCsv := mkLinhaCsv {
  Item_ID : nat;
  Item_Nome : string;
  Palete : Z;
  Orientacao : nat;
  Volume_m3 : Q;
  Peso_kg : Q;
  Destino : string
}.

(** [d.get('destino', default)] *)
Definition get_destino (it : Item) (default : string) : string :=
  match destino it with Some d => d | None => default end.

(** Lines 568-579. *)
Definition linha_csv (alloc : Alocacao) : LinhaCsv :=
  {| Item_ID := item_id alloc;
     Item_Nome := nome (item_dados alloc);
     Palete := Z.of_nat (palete alloc) + 1;
     Orientacao := aloc_orientacao alloc;
     Volume_m3 := truediv (vol (item_dados alloc)) SCALE_VOL;
     Peso_kg := truediv (mass (item_dados alloc)) SCALE_MASS;
     Destino := get_destino (item_dados alloc) "N/A" |}.

Definition df_resultado (alocs : list Alocacao) : list LinhaCsv :=
  map linha_csv alocs.

(** A row of [sap_data]. *)
Record LinhaSap := mkLinhaSap {
  MATNR : string;
  LGORT : string;
  MENGE : Z;
  MEINS : string;
  VKORG : string;
  WERKS : string;
  ROUTE : string;
  VOLUM : Q;
  BRGEW : Q
}.

(** Lines 853-863. *)
Definition linha_sap (p : nat) (it : Item) : LinhaSap :=
  {| MATNR := ("MAT" ++ zfill 6 (py_str (id_ it)))%string;
     LGORT := ("PAL" ++ py_str (Z.of_nat p + 1))%string;
     MENGE := 1;
     MEINS := "PCE";
     VKORG := "1000";
     WERKS := "1000";
     ROUTE := get_destino it "DEFAULT";
     VOLUM := truediv (vol it) SCALE_VOL;
     BRGEW := truediv (mass it) SCALE_MASS |}.

(** Lines 849-863: [sap_data]. *)
Definition sap_data (itens : list Item) (v : Valuation)
    (pallet_config : PalletsConfig) : list LinhaSap :=
  fold_left (fun acc p =>
      fold_left (fun acc e =>
                   if v (X (fst e) p)
                   then acc ++ [linha_sap p (snd e)]
                   else acc)
                (enumerate itens) acc)
    (range (quantidade pallet_config)) [].

(** An entry of [oracle_data["shipment_lines"]]. *)
Record LinhaOracle := mkLinhaOracle {
  line_id : Z;
  item_code : string;
  pallet_id : string;
  quantity : Z;
  volume_m3 : Q;
  weight_kg : Q;
  destination : string;
  fragile_flag : string;
  rotatable_flag : string
}.

(** Lines 898-908, the line appended when [n_lines] lines are there. *)
Definition linha_oracle (n_lines : nat) (p : nat) (it : Item) : LinhaOracle :=
  {| line_id := Z.of_nat n_lines + 1;
     item_code := ("ITEM" ++ zfill 6 (py_str (id_ it)))%string;
     pallet_id := ("PLT" ++ py_str (Z.of_nat p + 1))%string;
     quantity := 1;
     volume_m3 := truediv (vol it) SCALE_VOL;
     weight_kg := truediv (mass it) SCALE_MASS;
     destination := get_destino it "DEFAULT";
     fragile_flag := if f it then "Y" else "N";
     rotatable_flag := if o it then "Y" else "N" |}.

(** Lines 895-908: [oracle_data["shipment_lines"]]. *)
Definition shipment_lines (itens : list Item) (v : Valuation)
    (pallet_config : PalletsConfig) : list LinhaOracle :=
  fold_left (fun acc p =>
      fold_left (fun acc e =>
                   if v (X (fst e) p)
                   then acc ++ [linha_oracle (List.length acc) p (snd e)]
                   else acc)
                (enumerate itens) acc)
    (range (quantidade pallet_config)) [].

(** The totals of [oracle_data["shipment_header"]]; its identifier and date
    come from the clock and are left out. *)
Record ShipmentHeader := mkShipmentHeader {
  total_pallets : Z;
  total_volume : Q;
  total_weight : Q
}.

Definition shipment_header (metricas : Metricas) : ShipmentHeader :=
  {| total_pallets := pallets_utilizados metricas;
     total_volume := volume_utilizado metricas;
     total_weight := peso_utilizado metricas |}.

(** ** Notions used to state properties of the exports *)

(** The orientation index read for item [i], 0 when there is none. *)
Definition indice_orientacao (v : Valuation) (i : nat) : nat :=
  match orientacao v i with Some k => k | None => 0%nat end.

(** The loaded entries, pallet by pallet, each with its pallet. *)
Definition carregados (v : Valuation) (itens : list Item)
    (cfg : PalletsConfig) : list (nat * (nat * Item)) :=
  flat_map (fun p => map (pair p) (itens_da_palete v itens p))
           (range (quantidade cfg)).

(** The elements of [xs] numbered from [k]. *)
Definition numerar {A B : Type} (g : nat -> A -> B) (k : nat) (xs : list A)
  : list B :=
  map (fun ke => g (fst ke) (snd ke)) (combine (seq k (List.length xs)) xs).

Definition soma_Qs (qs : list Q) : Q := fold_right Qplus 0%Q qs.


(** ** The KPIs (lines 688-697 of [main]) *)

Record Kpis := mkKpis {
  densidade_de_carga : Q;
  eficiencia_espacial : Q;
  taxa_de_carregamento : Q;
  utilizacao_de_recursos : Q;
  indice_de_fragilidade : Q;
  complexidade_logistica : nat
}.

(** [sum(1 for item in itens if item['f'])] *)
Definition conta_frageis (itens : list Item) : Z :=
  Z.of_nat (List.length (filter f itens)).

(** [len(set(item.get('destino', 'N/A') for item in itens))] *)
Definition destinos_unicos (itens : list Item) : nat :=
  List.length (nodup string_dec (map (fun it => get_destino it "N/A") itens)).

(** Lines 690-697.  The two quotients of integers raise
    [ZeroDivisionError] on a zero divisor; the density is guarded. *)
Definition calcular_kpis (itens : list Item) (metricas : Metricas)
    (pallet_config : PalletsConfig) : Outcome Kpis :=
  let densidade :=
    if Qlt_le_dec 0 (volume_utilizado metricas)
    then (peso_utilizado metricas / volume_utilizado metricas)%Q
    else 0%Q in
  if quantidade pallet_config =? 0 then Raised ZeroDivisionError
  else if Z.of_nat (List.length itens) =? 0 then Raised ZeroDivisionError
  else Returned
    {| densidade_de_carga := densidade;
       eficiencia_espacial := taxa_utilizacao_volume metricas;
       taxa_de_carregamento := taxa_utilizacao_itens metricas;
       utilizacao_de_recursos :=
         (truediv (pallets_utilizados metricas) (quantidade pallet_config)
          * 100)%Q;
       indice_de_fragilidade :=
         (truediv (conta_frageis itens) (Z.of_nat (List.length itens))
          * 100)%Q;
       complexidade_logistica := destinos_unicos itens |}.

(** ** The scenario simulator (lines 773-836 of [main]) *)

Inductive Recomendacao : Type :=
| CenarioB
| CenarioA
| Equivalentes.




(** Lines 829-834. *)
Definition recomendar (metricas_a metricas_b : Metricas) : Recomendacao :=
  if itens_carregados metricas_b >? itens_carregados metricas_a then CenarioB
  else if Qlt_le_dec (taxa_utilizacao_volume metricas_b)
                     (taxa_utilizacao_volume metricas_a) then CenarioA
  else Equivalentes.




(** ** The pallet summary (lines 516-531 of [main]) *)

(** The two values handed to [st.progress] for a pallet that holds items:
    [vol_palete / capacidade_volume], then [peso_palete / capacidade_massa],
    each a quotient of integers.  [None] when the pallet is empty and the
    summary is skipped. *)
Definition resumo_palete (itens : list Item) (v : Valuation)
    (pallet_config : PalletsConfig) (p : nat) : option (Outcome (Q * Q)) :=
  match itens_da_palete v itens p with
  | [] => None
  | _ :: _ =>
      Some
        (if capacidade_volume pallet_config =? 0 then Raised ZeroDivisionError
         else if capacidade_massa pallet_config =? 0
              then Raised ZeroDivisionError
              else Returned
                     (truediv (vol_palete v itens p)
                              (capacidade_volume pallet_config),
                      truediv (peso_palete v itens p)
                              (capacidade_massa pallet_config)))
  end.

(** * Properties *)

(** ** Lists, indices and sums *)

Lemma In_combine_seq {A : Type} (xs : list A) (k i : nat) (a : A) :
  In (i, a) (combine (seq k (List.length xs)) xs) <->
  (k <= i)%nat /\ nth_error xs (i - k) = Some a.
Proof.
  revert k; induction xs as [|b xs IH]; intros k; simpl.
  - split; [tauto|]. intros [_ H]. destruct (i - k)%nat; discriminate.
  - rewrite IH. split.
    + intros [E | [Hk Hn]].
      * inversion E; subst. split; [lia|]. now rewrite Nat.sub_diag.
      * split; [lia|].
        replace (i - k)%nat with (Datatypes.S (i - Datatypes.S k)) by lia.
        exact Hn.
    + intros [Hk Hn]. destruct (Nat.eq_dec i k) as [->|Hne].
      * rewrite Nat.sub_diag in Hn. simpl in Hn. left. congruence.
      * right. split; [lia|].
        replace (i - k)%nat with (Datatypes.S (i - Datatypes.S k)) in Hn by lia.
        exact Hn.
Qed.

Lemma In_enumerate {A : Type} (xs : list A) (i : nat) (a : A) :
  In (i, a) (enumerate xs) <-> nth_error xs i = Some a.
Proof.
  unfold enumerate. rewrite In_combine_seq, Nat.sub_0_r.
  split; [tauto | intros H; split; [lia | exact H]].
Qed.

Lemma In_range (k : Z) (p : nat) : In p (range k) <-> Z.of_nat p < k.
Proof. unfold range. rewrite in_seq. lia. Qed.

Lemma NoDup_range (k : Z) : NoDup (range k).
Proof. apply seq_NoDup. Qed.

Lemma eval_app (v : Valuation) (e1 e2 : LinExpr) :
  eval v (e1 ++ e2) = eval v e1 + eval v e2.
Proof.
  induction e1 as [|t e1 IH]; simpl; [reflexivity|]. rewrite IH. lia.
Qed.

Lemma eval_cons (v : Valuation) (t : Z * Var) (e : LinExpr) :
  eval v (t :: e) = fst t * Z.b2z (v (snd t)) + eval v e.
Proof. reflexivity. Qed.

Lemma soma_Z_cons (z : Z) (zs : list Z) : soma_Z (z :: zs) = z + soma_Z zs.
Proof. reflexivity. Qed.

Lemma soma_Z_app (a b : list Z) : soma_Z (a ++ b) = soma_Z a + soma_Z b.
Proof.
  induction a as [|z a IH]; simpl; [reflexivity|]. rewrite IH. lia.
Qed.

(** A weighted sum of the assignment variables of one pallet is the total
    weight of the entries assigned to it. *)
Lemma eval_pallet_terms (v : Valuation) (wt : Item -> Z) (p : nat)
    (es : list (nat * Item)) :
  eval v (map (fun '(i, it) => (wt it, X i p)) es) =
  soma_Z (map (fun e => wt (snd e)) (filter (fun e => v (X (fst e) p)) es)).
Proof.
  induction es as [|[i it] es IH]; simpl; [reflexivity|].
  rewrite IH. unfold term_value; simpl.
  destruct (v (X i p)); simpl; lia.
Qed.

Lemma model_holds_iff (v : Valuation) (m : CpModel) :
  model_holds v m = true <->
  forall c, In c (constraints m) -> holds v c = true.
Proof. unfold model_holds. apply forallb_forall. Qed.

(** ** Where each constraint of the model comes from *)

Lemma In_restricoes_itens itens cfg c :
  In c (restricoes_itens itens cfg) <->
  exists i it, nth_error itens i = Some it /\
    (c = restricao_uma_palete cfg i \/ In c (restricoes_rotacao i it)).
Proof.
  unfold restricoes_itens. rewrite in_flat_map. split.
  - intros [[i it] [Hin Hc]]. apply In_enumerate in Hin.
    exists i, it. split; [exact Hin|]. simpl in Hc.
    destruct Hc as [Hc|Hc]; [left; congruence | right; exact Hc].
  - intros [i [it [Hn Hc]]]. exists (i, it). split.
    + now apply In_enumerate.
    + simpl. destruct Hc as [Hc|Hc]; [left; congruence | right; exact Hc].
Qed.

Lemma In_restricoes_empilhamento itens c :
  In c (restricoes_empilhamento itens) <->
  exists i it_i j it_j,
    nth_error itens i = Some it_i /\ nth_error itens j = Some it_j /\
    In c (restricoes_par i it_i j it_j).
Proof.
  unfold restricoes_empilhamento. rewrite in_flat_map. split.
  - intros [[i it_i] [Hi Hc]]. rewrite in_flat_map in Hc.
    destruct Hc as [[j it_j] [Hj Hc]].
    apply In_enumerate in Hi. apply In_enumerate in Hj.
    now exists i, it_i, j, it_j.
  - intros [i [it_i [j [it_j [Hi [Hj Hc]]]]]].
    exists (i, it_i). split; [now apply In_enumerate|].
    rewrite in_flat_map. exists (j, it_j). split; [now apply In_enumerate|].
    exact Hc.
Qed.

Lemma In_restricoes_capacidade itens cfg c :
  In c (restricoes_capacidade itens cfg) <->
  exists p, Z.of_nat p < quantidade cfg /\
            In c (restricoes_palete itens cfg p).
Proof.
  unfold restricoes_capacidade. rewrite in_flat_map.
  split; intros [p [Hp Hc]]; exists p; split; auto; now apply In_range.
Qed.

Lemma In_constraints itens cfg c :
  In c (constraints (otimizar_model itens cfg)) <->
  In c (restricoes_itens itens cfg) \/
  In c (restricoes_empilhamento itens) \/
  In c (restricoes_capacidade itens cfg).
Proof. simpl. now rewrite !in_app_iff. Qed.

(** ** Capacity of each pallet *)

(** C1: for every pallet [k] in [0, p) the model holds the two aggregate
    capacity constraints, [sum_i x[i,k] * mass(i) <= capacidade_massa] and
    [sum_i x[i,k] * vol(i) <= capacidade_volume]; hence in every valuation
    that satisfies the model the mass and the volume assigned to pallet [k]
    stay within the configured capacities. *)
Theorem capacity_per_pallet (itens : list Item) (cfg : PalletsConfig)
    (k : nat) :
  Z.of_nat k < quantidade cfg ->
  let m := otimizar_model itens cfg in
  In (LinLe (map (fun '(i, it) => (mass it, X i k)) (enumerate itens))
         (capacidade_massa cfg)) (constraints m) /\
  In (LinLe (map (fun '(i, it) => (vol it, X i k)) (enumerate itens))
         (capacidade_volume cfg)) (constraints m) /\
  forall v, model_holds v m = true ->
    eval v (map (fun '(i, it) => (mass it, X i k)) (enumerate itens))
      = peso_palete v itens k /\
    eval v (map (fun '(i, it) => (vol it, X i k)) (enumerate itens))
      = vol_palete v itens k /\
    peso_palete v itens k <= capacidade_massa cfg /\
    vol_palete v itens k <= capacidade_volume cfg.
Proof.
  intros Hk m.
  assert (Hm : In (LinLe (map (fun '(i, it) => (mass it, X i k))
                              (enumerate itens))
                         (capacidade_massa cfg)) (constraints m)).
  { apply In_constraints. right; right. apply In_restricoes_capacidade.
    exists k. split; [exact Hk | simpl; auto]. }
  assert (Hv : In (LinLe (map (fun '(i, it) => (vol it, X i k))
                              (enumerate itens))
                         (capacidade_volume cfg)) (constraints m)).
  { apply In_constraints. right; right. apply In_restricoes_capacidade.
    exists k. split; [exact Hk | simpl; auto]. }
  split; [exact Hm|]. split; [exact Hv|].
  intros v Hsat. rewrite model_holds_iff in Hsat.
  pose proof (Hsat _ Hm) as H1. pose proof (Hsat _ Hv) as H2.
  simpl in H1, H2. apply Z.leb_le in H1. apply Z.leb_le in H2.
  rewrite (eval_pallet_terms v mass) in H1 |- *.
  rewrite (eval_pallet_terms v vol) in H2 |- *.
  unfold peso_palete, vol_palete, itens_da_palete. auto.
Qed.

Lemma exemplo_satisfaz :
  model_holds valor_exemplo (otimizar_model itens_exemplo config_exemplo)
  = true.
Proof. vm_compute. reflexivity. Qed.

Lemma capacity_per_pallet_witness :
  0 < quantidade config_exemplo /\
  peso_palete valor_exemplo itens_exemplo 0 = 6000 /\
  peso_palete valor_exemplo itens_exemplo 0
    <= capacidade_massa config_exemplo /\
  vol_palete valor_exemplo itens_exemplo 0 <= capacidade_volume config_exemplo.
Proof.
  split; [reflexivity|]. split; [reflexivity|].
  apply (capacity_per_pallet itens_exemplo config_exemplo 0); [reflexivity|].
  vm_compute. reflexivity.
Defined.

(** ** At most one pallet per item *)

Lemma eval_unit_terms_nonneg (v : Valuation) (i : nat) (ps : list nat) :
  0 <= eval v (map (fun p => (1, X i p)) ps).
Proof.
  induction ps as [|p ps IH]; cbn [map]; [simpl; lia|].
  rewrite eval_cons; cbn [fst snd]. destruct (v (X i p)); simpl Z.b2z; lia.
Qed.

Lemma eval_unit_terms_true (v : Valuation) (i : nat) (ps : list nat) (p : nat) :
  In p ps -> v (X i p) = true -> 1 <= eval v (map (fun p => (1, X i p)) ps).
Proof.
  induction ps as [|q ps IH]; cbn [map In]; [tauto|].
  rewrite eval_cons; cbn [fst snd]. intros [->|Hin] Hp.
  - rewrite Hp. pose proof (eval_unit_terms_nonneg v i ps). simpl Z.b2z. lia.
  - specialize (IH Hin Hp). destruct (v (X i q)); simpl Z.b2z; lia.
Qed.

Lemma at_most_one_true (v : Valuation) (i : nat) (ps : list nat) :
  NoDup ps ->
  eval v (map (fun p => (1, X i p)) ps) <= 1 ->
  forall p q, In p ps -> In q ps ->
    v (X i p) = true -> v (X i q) = true -> p = q.
Proof.
  induction 1 as [|a ps Hna Hnd IH]; cbn [map In]; [tauto|].
  rewrite eval_cons; cbn [fst snd]. intros Hle p q Hp Hq Vp Vq.
  pose proof (eval_unit_terms_nonneg v i ps) as H0.
  destruct Hp as [->|Hp], Hq as [->|Hq]; try reflexivity.
  - rewrite Vp in Hle. pose proof (eval_unit_terms_true v i ps q Hq Vq).
    simpl Z.b2z in Hle. lia.
  - rewrite Vq in Hle. pose proof (eval_unit_terms_true v i ps p Hp Vp).
    simpl Z.b2z in Hle. lia.
  - apply IH; auto. destruct (v (X i a)); simpl Z.b2z in Hle; lia.
Qed.

(** Taking an item off lowers every sum whose coefficients on that item's
    assignment variables are not negative. *)
Lemma eval_descarregar_le (v : Valuation) (i : nat) (e : LinExpr) :
  (forall c p, In (c, X i p) e -> 0 <= c) ->
  eval (descarregar i v) e <= eval v e.
Proof.
  induction e as [|[c a] e IH]; intros Hc; [simpl; lia|].
  assert (IH' : eval (descarregar i v) e <= eval v e)
    by (apply IH; intros c' p' H'; apply (Hc c' p'); now right).
  rewrite !eval_cons; cbn [fst snd].
  destruct a as [i' p'|i' k'|i' j']; cbn [descarregar]; try lia.
  destruct (Nat.eqb_spec i' i) as [->|Hne]; [|lia].
  specialize (Hc c p' (or_introl eq_refl)).
  destruct (v (X i p')); simpl Z.b2z; lia.
Qed.

Lemma eval_descarregar_no_X (v : Valuation) (i : nat) (e : LinExpr) :
  (forall t, In t e -> is_X (snd t) = false) ->
  eval (descarregar i v) e = eval v e.
Proof.
  induction e as [|[c a] e IH]; intros Hc; [reflexivity|].
  rewrite !eval_cons, IH by (intros t Ht; apply Hc; now right).
  specialize (Hc (c, a) (or_introl eq_refl)). cbn [fst snd] in *.
  destruct a; simpl in *; congruence.
Qed.

Lemma holds_descarregar_rotacao v i i' it c :
  In c (restricoes_rotacao i' it) ->
  holds v c = true -> holds (descarregar i v) c = true.
Proof.
  unfold restricoes_rotacao. intros Hin Hh.
  assert (Hx : forall t, In t (expr_of c) -> is_X (snd t) = false).
  { destruct (o it); simpl in Hin.
    - destruct Hin as [<-|[]]. simpl. intros t Ht.
      repeat (destruct Ht as [<-|Ht]; [reflexivity|]). destruct Ht.
    - destruct Hin as [<-|Hin]; simpl.
      + intros t [<-|[]]. reflexivity.
      + repeat (destruct Hin as [<-|Hin];
                [simpl; intros t [<-|[]]; reflexivity|]).
        destruct Hin. }
  destruct c as [e b|e b]; simpl in *;
    rewrite (eval_descarregar_no_X v i e Hx); exact Hh.
Qed.

Lemma holds_descarregar_par v i a ia b ib c :
  In c (restricoes_par a ia b ib) ->
  holds v c = true -> holds (descarregar i v) c = true.
Proof.
  unfold restricoes_par. intros Hin Hh.
  destruct (Nat.eqb a b); [destruct Hin|].
  apply in_app_or in Hin.
  assert (Hc : c = LinEq [(1, S a b)] 0).
  { destruct Hin as [Hin|Hin].
    - destruct (f ib); simpl in Hin; [|tauto]. destruct Hin as [<-|[]]; auto.
    - destruct (mass ia >? mass ib); simpl in Hin; [|tauto].
      destruct Hin as [<-|[]]; auto. }
  subst c. exact Hh.
Qed.

Lemma In_item_terms (wt : Item -> Z) (p : nat) (es : list (nat * Item))
    (c : Z) (a : Var) :
  In (c, a) (map (fun '(i, it) => (wt it, X i p)) es) ->
  exists i it, In (i, it) es /\ c = wt it /\ a = X i p.
Proof.
  rewrite in_map_iff. intros [[i it] [E Hin]]. inversion E; subst.
  now exists i, it.
Qed.

(** C2: for every item [i] the model holds [sum_k x[i,k] <= 1]; in every
    valuation that satisfies the model the item is on at most one pallet;
    and no constraint forces loading: an item of non-negative mass and volume
    can be taken off all pallets and the model stays satisfied. *)
Theorem at_most_one_pallet (itens : list Item) (cfg : PalletsConfig)
    (i : nat) (it : Item) :
  nth_error itens i = Some it ->
  let m := otimizar_model itens cfg in
  let soma_x := map (fun p => (1, X i p)) (range (quantidade cfg)) in
  In (LinLe soma_x 1) (constraints m) /\
  (forall v, model_holds v m = true ->
     eval v soma_x <= 1 /\
     forall p q, Z.of_nat p < quantidade cfg -> Z.of_nat q < quantidade cfg ->
       v (X i p) = true -> v (X i q) = true -> p = q) /\
  (forall v, 0 <= mass it -> 0 <= vol it ->
     model_holds v m = true ->
     model_holds (descarregar i v) m = true /\
     forall p, descarregar i v (X i p) = false).
Proof.
  intros Hi m soma_x.
  assert (Hin : In (LinLe soma_x 1) (constraints m)).
  { apply In_constraints. left. apply In_restricoes_itens.
    exists i, it. split; [exact Hi | left; reflexivity]. }
  split; [exact Hin|]. split.
  - intros v Hsat. rewrite model_holds_iff in Hsat.
    pose proof (Hsat _ Hin) as Hle. simpl in Hle. apply Z.leb_le in Hle.
    split; [exact Hle|]. intros p q Hp Hq.
    apply (at_most_one_true v i (range (quantidade cfg)));
      auto using NoDup_range; now apply In_range.
  - intros v Hm Hv Hsat. split.
    2:{ intros p. simpl. now rewrite Nat.eqb_refl. }
    rewrite model_holds_iff in Hsat |- *. intros c Hc.
    pose proof (Hsat c Hc) as Hh.
    apply In_constraints in Hc. destruct Hc as [Hc|[Hc|Hc]].
    + apply In_restricoes_itens in Hc.
      destruct Hc as [i' [it' [_ [->|Hc]]]].
      * simpl in *. apply Z.leb_le. apply Z.leb_le in Hh.
        etransitivity; [apply eval_descarregar_le|exact Hh].
        intros c p Hcp. apply in_map_iff in Hcp.
        destruct Hcp as [q [E _]]. inversion E. lia.
      * eapply holds_descarregar_rotacao; eauto.
    + apply In_restricoes_empilhamento in Hc.
      destruct Hc as [a [ia [b [ib [_ [_ Hc]]]]]].
      eapply holds_descarregar_par; eauto.
    + apply In_restricoes_capacidade in Hc. destruct Hc as [p [_ Hc]].
      simpl in Hc.
      assert (Hcoef : forall (wt : Item -> Z), 0 <= wt it ->
                forall c0 p0,
                  In (c0, X i p0)
                     (map (fun '(i, it) => (wt it, X i p)) (enumerate itens)) ->
                  0 <= c0).
      { intros wt Hwt c0 p0 H0. apply In_item_terms in H0.
        destruct H0 as [j [jt [Hj [-> E]]]]. inversion E; subst.
        apply In_enumerate in Hj. rewrite Hi in Hj.
        injection Hj as <-. exact Hwt. }
      destruct Hc as [<-|[<-|[]]]; simpl in *;
        apply Z.leb_le; apply Z.leb_le in Hh;
        (etransitivity; [apply eval_descarregar_le|exact Hh]).
      * now apply Hcoef.
      * now apply Hcoef.
Qed.

Lemma at_most_one_pallet_witness :
  nth_error itens_exemplo 2 = Some item_pesado /\
  (valor_exemplo (X 2 0%nat) = true /\ valor_exemplo (X 2 1%nat) = false) /\
  model_holds (descarregar 2 valor_exemplo)
              (otimizar_model itens_exemplo config_exemplo) = true.
Proof.
  split; [reflexivity|]. split; [split; reflexivity|].
  apply (at_most_one_pallet itens_exemplo config_exemplo 2 item_pesado
           eq_refl).
  - vm_compute. discriminate.
  - vm_compute. discriminate.
  - vm_compute. reflexivity.
Defined.

(** ** The objective *)

Lemma eval_objetivo_terms (v : Valuation) (i : nat) (c : Z) (ps : list nat) :
  eval v (map (fun p => (c, X i p)) ps) =
  soma_Z (map (fun p => Z.b2z (v (X i p)) * c) ps).
Proof.
  induction ps as [|p ps IH]; [reflexivity|].
  cbn [map]. rewrite eval_cons, IH, soma_Z_cons. cbn [fst snd]. lia.
Qed.

Lemma eval_flat_map {A : Type} (v : Valuation) (g : A -> LinExpr)
    (xs : list A) :
  eval v (flat_map g xs) = soma_Z (map (fun a => eval v (g a)) xs).
Proof.
  induction xs as [|a xs IH]; [reflexivity|].
  cbn [flat_map map]. now rewrite eval_app, IH, soma_Z_cons.
Qed.

Lemma flat_map_combine_map {A B C : Type} (g : A -> B)
    (F : nat * B -> list C) (G : nat * A -> list C) (xs : list A) (k : nat) :
  (forall i a, F (i, g a) = G (i, a)) ->
  flat_map F (combine (seq k (List.length (map g xs))) (map g xs)) =
  flat_map G (combine (seq k (List.length xs)) xs).
Proof.
  intros HFG. revert k. induction xs as [|a xs IH]; intros k; [reflexivity|].
  cbn [map List.length seq combine flat_map]. now rewrite HFG, IH.
Qed.

Lemma coeficiente_objetivo (it : Item) :
  vol it * get_prioridade it =
  match prioridade it with Some q => vol it * q | None => vol it end.
Proof. unfold get_prioridade. destruct (prioridade it); lia. Qed.

(** C3: the objective of the model is to maximise the sum, over all items
    [i] and pallets [k], of [x[i,k] * vol(i) * prioridade(i)], the priority
    being the one recorded in the item and 1 when the item records none;
    changing masses and destinations leaves the objective as it is. *)
Theorem objective_volume_priority (itens : list Item) (cfg : PalletsConfig) :
  let m := otimizar_model itens cfg in
  fst (objective m) = Maximize /\
  (forall c a, In (c, a) (snd (objective m)) <->
     exists i it p, nth_error itens i = Some it /\
       Z.of_nat p < quantidade cfg /\
       a = X i p /\
       ((exists q, prioridade it = Some q /\ c = vol it * q) \/
        (prioridade it = None /\ c = vol it))) /\
  (forall v, eval v (snd (objective m)) =
     soma_Z (map (fun e =>
        soma_Z (map (fun p => Z.b2z (v (X (fst e) p)) *
                              match prioridade (snd e) with
                              | Some q => vol (snd e) * q
                              | None => vol (snd e)
                              end)
                    (range (quantidade cfg))))
       (enumerate itens))) /\
  (forall (novo_mass : Item -> Z) (novo_destino : Item -> option string),
     objective (otimizar_model
                  (map (fun it => com_mass_destino it (novo_mass it)
                                                   (novo_destino it)) itens)
                  cfg)
     = objective m).
Proof.
  intros m. split; [reflexivity|]. split; [|split].
  - intros c a. simpl. unfold objetivo. rewrite in_flat_map. split.
    + intros [[i it] [Hi Hin]]. apply In_enumerate in Hi.
      apply in_map_iff in Hin. destruct Hin as [p [E Hp]].
      apply In_range in Hp. inversion E; subst. exists i, it, p.
      repeat (split; [assumption || reflexivity|]).
      rewrite coeficiente_objetivo.
      destruct (prioridade it) as [q|]; [left; now exists q | now right].
    + intros [i [it [p [Hi [Hp [-> Hc]]]]]]. exists (i, it).
      split; [now apply In_enumerate|]. apply in_map_iff.
      exists p. split; [|now apply In_range].
      rewrite coeficiente_objetivo.
      destruct Hc as [[q [-> ->]]|[-> ->]]; reflexivity.
  - intros v. simpl. unfold objetivo. rewrite eval_flat_map.
    f_equal. apply map_ext. intros [i it]. cbn [fst snd].
    rewrite eval_objetivo_terms. now rewrite coeficiente_objetivo.
  - intros novo_mass novo_destino. simpl. f_equal. unfold objetivo, enumerate.
    apply flat_map_combine_map. intros i a. reflexivity.
Qed.

Lemma objective_volume_priority_witness :
  In (180000, X 0%nat 0%nat) (objetivo itens_exemplo config_exemplo) /\
  In (120000, X 1%nat 1%nat) (objetivo itens_exemplo config_exemplo) /\
  In (1200000, X 2%nat 0%nat) (objetivo itens_exemplo config_exemplo) /\
  ~ In (60000, X 0%nat 0%nat) (objetivo itens_exemplo config_exemplo) /\
  eval valor_exemplo (objetivo itens_exemplo config_exemplo)
  = 180000 + 120000 + 1200000.
Proof.
  destruct (objective_volume_priority itens_exemplo config_exemplo)
    as [_ [Hin [Hev _]]].
  split; [|split; [|split; [|split]]].
  - apply Hin. exists 0%nat, item_leve, 0%nat.
    repeat (split; [reflexivity|]). left. now exists 3.
  - apply Hin. exists 1%nat, item_fragil, 1%nat.
    repeat (split; [reflexivity|]). now right.
  - apply Hin. exists 2%nat, item_pesado, 0%nat.
    repeat (split; [reflexivity|]). left. now exists 5.
  - intros H. apply Hin in H.
    destruct H as [i [it [p [Hi [_ [E Hc]]]]]].
    injection E as <- <-. injection Hi as <-.
    destruct Hc as [[q [Hq Hc]]|[Hq _]]; [|discriminate].
    injection Hq as <-. discriminate.
  - exact (eq_trans (Hev valor_exemplo) eq_refl).
Defined.

(** ** Stacking exclusion *)

Lemma In_restricoes_par (i : nat) (it_i : Item) (j : nat) (it_j : Item)
    (c : Constraint) :
  In c (restricoes_par i it_i j it_j) <->
  c = LinEq [(1, S i j)] 0 /\ i <> j /\
  (f it_j = true \/ mass it_i > mass it_j).
Proof.
  unfold restricoes_par. destruct (Nat.eqb_spec i j) as [->|Hne].
  - split; [intros [] | intros [_ [H _]]; now elim H].
  - rewrite in_app_iff. rewrite Z.gt_lt_iff, <- Z.gtb_lt.
    destruct (f it_j), (mass it_i >? mass it_j); simpl;
      intuition (try congruence; auto).
Qed.

Lemma no_S_in_restricoes_rotacao (i : nat) (it : Item) (c : Constraint)
    (coef : Z) (a b : nat) :
  In c (restricoes_rotacao i it) -> ~ In (coef, S a b) (expr_of c).
Proof.
  unfold restricoes_rotacao. intros Hc Hin.
  destruct (o it); simpl in Hc.
  - destruct Hc as [<-|[]]. simpl in Hin.
    repeat (destruct Hin as [Hin|Hin]; [discriminate|]). exact Hin.
  - repeat (destruct Hc as [<-|Hc];
            [simpl in Hin; destruct Hin as [Hin|[]]; discriminate|]).
    exact Hc.
Qed.

Lemma no_S_in_item_terms (wt : Item -> Z) (p : nat) (es : list (nat * Item))
    (coef : Z) (a b : nat) :
  ~ In (coef, S a b) (map (fun '(i, it) => (wt it, X i p)) es).
Proof.
  intros Hin. apply In_item_terms in Hin.
  destruct Hin as [i [it [_ [_ E]]]]. discriminate.
Qed.

(** C4: for distinct items [i] and [j] the model holds [s[i,j] == 0] when
    item [j] is fragile, and when [mass(i) > mass(j)]; a constraint that
    mentions a stacking variable is one of these, and the objective
    mentions none; hence in every valuation that satisfies the model no item
    rests on a fragile item nor on a strictly lighter one. *)
Theorem stacking_exclusion (itens : list Item) (cfg : PalletsConfig)
    (i j : nat) (it_i it_j : Item) :
  nth_error itens i = Some it_i ->
  nth_error itens j = Some it_j ->
  i <> j ->
  let m := otimizar_model itens cfg in
  (f it_j = true -> In (LinEq [(1, S i j)] 0) (constraints m)) /\
  (mass it_i > mass it_j -> In (LinEq [(1, S i j)] 0) (constraints m)) /\
  (forall c coef a b,
     In c (constraints m) -> In (coef, S a b) (expr_of c) ->
     c = LinEq [(1, S a b)] 0 /\ a <> b /\
     exists it_a it_b, nth_error itens a = Some it_a /\
       nth_error itens b = Some it_b /\
       (f it_b = true \/ mass it_a > mass it_b)) /\
  (forall coef a b, ~ In (coef, S a b) (snd (objective m))) /\
  (forall v, model_holds v m = true ->
     v (S i j) = true -> f it_j = false /\ mass it_i <= mass it_j).
Proof.
  intros Hi Hj Hij m.
  assert (Hadd : f it_j = true \/ mass it_i > mass it_j ->
                 In (LinEq [(1, S i j)] 0) (constraints m)).
  { intros Hcond. apply In_constraints. right; left.
    apply In_restricoes_empilhamento. exists i, it_i, j, it_j.
    repeat split; auto. apply In_restricoes_par. auto. }
  split; [auto|]. split; [auto|]. split; [|split].
  - intros c coef a b Hc Hin. apply In_constraints in Hc.
    destruct Hc as [Hc|[Hc|Hc]].
    + apply In_restricoes_itens in Hc.
      destruct Hc as [i' [it' [_ [->|Hc]]]].
      * simpl in Hin. apply in_map_iff in Hin.
        destruct Hin as [p [E _]]. discriminate.
      * now apply (no_S_in_restricoes_rotacao _ _ _ coef a b) in Hc.
    + apply In_restricoes_empilhamento in Hc.
      destruct Hc as [a' [ia [b' [ib [Ha [Hb Hc]]]]]].
      apply In_restricoes_par in Hc. destruct Hc as [-> [Hne Hcond]].
      simpl in Hin. destruct Hin as [E|[]]. inversion E; subst.
      split; [reflexivity|]. split; [exact Hne|]. now exists ia, ib.
    + apply In_restricoes_capacidade in Hc. destruct Hc as [p [_ Hc]].
      simpl in Hc. destruct Hc as [<-|[<-|[]]]; simpl in Hin;
        now apply no_S_in_item_terms in Hin.
  - intros coef a b Hin. simpl in Hin. unfold objetivo in Hin.
    apply in_flat_map in Hin. destruct Hin as [[i' it'] [_ Hin]].
    apply in_map_iff in Hin. destruct Hin as [p [E _]]. discriminate.
  - intros v Hsat Hs. rewrite model_holds_iff in Hsat.
    assert (Hno : ~ (f it_j = true \/ mass it_i > mass it_j)).
    { intros Hcond. specialize (Hsat _ (Hadd Hcond)).
      simpl in Hsat. unfold term_value in Hsat. simpl in Hsat.
      rewrite Hs in Hsat. discriminate. }
    split; [destruct (f it_j); [elim Hno; auto | reflexivity] | lia].
Qed.

Lemma stacking_exclusion_witness :
  In (LinEq [(1, S 0 1)] 0)
     (constraints (otimizar_model itens_exemplo config_exemplo)) /\
  In (LinEq [(1, S 2 0)] 0)
     (constraints (otimizar_model itens_exemplo config_exemplo)) /\
  (f item_pesado = false /\ mass item_leve <= mass item_pesado).
Proof.
  assert (H01 : 0%nat <> 1%nat) by discriminate.
  assert (H20 : 2%nat <> 0%nat) by discriminate.
  assert (H02 : 0%nat <> 2%nat) by discriminate.
  split; [|split].
  - exact (proj1 (stacking_exclusion itens_exemplo config_exemplo 0 1
                    item_leve item_fragil eq_refl eq_refl H01) eq_refl).
  - exact (proj1 (proj2 (stacking_exclusion itens_exemplo config_exemplo 2 0
                    item_pesado item_leve eq_refl eq_refl H20)) eq_refl).
  - apply (stacking_exclusion itens_exemplo config_exemplo 0 2
             item_leve item_pesado eq_refl eq_refl H02) with valor_empilhado.
    + vm_compute. reflexivity.
    + reflexivity.
Defined.

(** ** Orientation *)

Lemma holds_fixed_one (v : Valuation) (a : Var) :
  holds v (LinEq [(1, a)] 1) = true -> v a = true.
Proof.
  cbn. unfold term_value; cbn. destruct (v a); [reflexivity | discriminate].
Qed.

Lemma holds_fixed_zero (v : Valuation) (a : Var) :
  holds v (LinEq [(1, a)] 0) = true -> v a = false.
Proof.
  cbn. unfold term_value; cbn. destruct (v a); [discriminate | reflexivity].
Qed.

Lemma In_rotacao_constraints itens cfg i it c :
  nth_error itens i = Some it ->
  In c (restricoes_rotacao i it) ->
  In c (constraints (otimizar_model itens cfg)).
Proof.
  intros Hi Hc. apply In_constraints. left. apply In_restricoes_itens.
  exists i, it. auto.
Qed.

Lemma exactly_one_of_six (v : Valuation) (i : nat) :
  holds v (LinEq (map (fun k => (1, R i k)) (seq 0 6)) 1) = true ->
  exists k, (k < 6)%nat /\ v (R i k) = true /\
    (forall k', (k' < 6)%nat -> v (R i k') = true -> k' = k) /\
    orientacao v i = Some k.
Proof.
  intros Hsat. cbn in Hsat. unfold term_value in Hsat. cbn in Hsat.
  destruct (v (R i 0%nat)) eqn:E0, (v (R i 1%nat)) eqn:E1,
           (v (R i 2%nat)) eqn:E2, (v (R i 3%nat)) eqn:E3,
           (v (R i 4%nat)) eqn:E4, (v (R i 5%nat)) eqn:E5;
    cbn in Hsat; try discriminate;
    match goal with H : v (R i ?k) = true |- _ => exists k end;
    (split; [lia|]); (split; [assumption|]);
    (split;
     [ intros k' Hk' Hv;
       do 6 (destruct k' as [|k']; [congruence|]); lia
     | unfold orientacao; cbn [find seq];
       rewrite ?E0, ?E1, ?E2, ?E3, ?E4, ?E5; reflexivity ]).
Qed.

(** C5: a rotatable item has the constraint that its six orientation
    variables sum to 1, so exactly one is true; a non-rotatable item has
    [r[i,0] == 1] and [r[i,k] == 0] for [k] in 1..5, so the orientation read
    back is 0; and permutation 0 is the original [(l, w, h)]. *)
Theorem orientation_selection (itens : list Item) (cfg : PalletsConfig)
    (i : nat) (it : Item) :
  nth_error itens i = Some it ->
  let m := otimizar_model itens cfg in
  (o it = true ->
     In (LinEq (map (fun k => (1, R i k)) (seq 0 6)) 1) (constraints m) /\
     forall v, model_holds v m = true ->
       exists k, (k < 6)%nat /\ v (R i k) = true /\
         (forall k', (k' < 6)%nat -> v (R i k') = true -> k' = k) /\
         orientacao v i = Some k) /\
  (o it = false ->
     In (LinEq [(1, R i 0%nat)] 1) (constraints m) /\
     (forall k, (1 <= k <= 5)%nat ->
        In (LinEq [(1, R i k)] 0) (constraints m)) /\
     forall v, model_holds v m = true ->
       v (R i 0%nat) = true /\
       (forall k, (1 <= k <= 5)%nat -> v (R i k) = false) /\
       orientacao v i = Some 0%nat /\
       dims_orientadas v (i, it) = (l it, w it, h it)) /\
  (forall (A : Type) (a b c : A),
     nth_error (permutacoes a b c) 0 = Some (a, b, c)).
Proof.
  intros Hi m. split; [|split].
  - intros Ho.
    assert (Hin : In (LinEq (map (fun k => (1, R i k)) (seq 0 6)) 1)
                     (constraints m)).
    { apply (In_rotacao_constraints itens cfg i it); [exact Hi|].
      unfold restricoes_rotacao. rewrite Ho. now left. }
    split; [exact Hin|]. intros v Hsat. rewrite model_holds_iff in Hsat.
    apply exactly_one_of_six. now apply Hsat.
  - intros Ho.
    assert (H0 : In (LinEq [(1, R i 0%nat)] 1) (constraints m)).
    { apply (In_rotacao_constraints itens cfg i it); [exact Hi|].
      unfold restricoes_rotacao. rewrite Ho. now left. }
    assert (Hk : forall k, (1 <= k <= 5)%nat ->
                   In (LinEq [(1, R i k)] 0) (constraints m)).
    { intros k Hk.
      apply (In_rotacao_constraints itens cfg i it); [exact Hi|].
      unfold restricoes_rotacao. rewrite Ho. right. apply in_map_iff.
      exists k. split; [reflexivity | apply in_seq; lia]. }
    split; [exact H0|]. split; [exact Hk|].
    intros v Hsat. rewrite model_holds_iff in Hsat.
    assert (V0 : v (R i 0%nat) = true) by (apply holds_fixed_one; auto).
    assert (Hor : orientacao v i = Some 0%nat)
      by (unfold orientacao; cbn [find seq]; now rewrite V0).
    split; [exact V0|]. split; [|split; [exact Hor|]].
    + intros k Hk1. apply holds_fixed_zero. auto.
    + unfold dims_orientadas. cbn [fst snd]. now rewrite Hor.
  - reflexivity.
Qed.

Lemma orientation_selection_witness :
  (exists k, (k < 6)%nat /\ valor_exemplo (R 0 k) = true /\
     (forall k', (k' < 6)%nat -> valor_exemplo (R 0 k') = true -> k' = k) /\
     orientacao valor_exemplo 0 = Some k) /\
  orientacao valor_exemplo 1 = Some 0%nat /\
  dims_orientadas valor_exemplo (1%nat, item_fragil)
    = (l item_fragil, w item_fragil, h item_fragil).
Proof.
  split; [|split].
  - apply (orientation_selection itens_exemplo config_exemplo 0 item_leve
             eq_refl); [reflexivity | vm_compute; reflexivity].
  - apply (orientation_selection itens_exemplo config_exemplo 1 item_fragil
             eq_refl); [reflexivity | vm_compute; reflexivity].
  - apply (orientation_selection itens_exemplo config_exemplo 1 item_fragil
             eq_refl); [reflexivity | vm_compute; reflexivity].
Defined.

(** ** The loops of [calcular_metricas] *)

Lemma totais_palete_from (v : Valuation) (p : nat) (es : list (nat * Item))
    (a b c : Z) :
  fold_left (fun '(volume_palete, peso_palete, itens_palete) '(i, it) =>
               if v (X i p)
               then (volume_palete + vol it, peso_palete + mass it,
                     itens_palete + 1)
               else (volume_palete, peso_palete, itens_palete))
            es (a, b, c)
  = (a + soma_Z (map (fun e => vol (snd e))
                     (filter (fun e => v (X (fst e) p)) es)),
     b + soma_Z (map (fun e => mass (snd e))
                     (filter (fun e => v (X (fst e) p)) es)),
     c + Z.of_nat (List.length (filter (fun e => v (X (fst e) p)) es))).
Proof.
  revert a b c. induction es as [|[i it] es IH]; intros a b c.
  - simpl. f_equal; [f_equal|]; lia.
  - cbn [fold_left filter fst snd]. destruct (v (X i p)); rewrite IH.
    + cbn [map List.length]. rewrite !soma_Z_cons. cbn [snd].
      f_equal; [f_equal|]; lia.
    + reflexivity.
Qed.

Lemma totais_palete_eq (v : Valuation) (itens : list Item) (p : nat) :
  totais_palete v itens p =
  (vol_palete v itens p, peso_palete v itens p, itens_na_palete v itens p).
Proof.
  unfold totais_palete. rewrite totais_palete_from. reflexivity.
Qed.

Lemma palete_vazia (v : Valuation) (itens : list Item) (p : nat) :
  (itens_na_palete v itens p >? 0) = false ->
  vol_palete v itens p = 0 /\ peso_palete v itens p = 0 /\
  itens_na_palete v itens p = 0.
Proof.
  unfold itens_na_palete, vol_palete, peso_palete. intros H.
  destruct (itens_da_palete v itens p) as [|e es]; [auto|].
  cbn [List.length] in H. rewrite Z.gtb_ltb in H. apply Z.ltb_ge in H. lia.
Qed.

Lemma totais_from (v : Valuation) (itens : list Item) (ps : list nat)
    (a b c d : Z) :
  fold_left (acumular_palete v itens) ps (a, b, c, d) =
  (a + Z.of_nat (List.length
                   (filter (fun p => itens_na_palete v itens p >? 0) ps)),
   b + soma_Z (map (vol_palete v itens) ps),
   c + soma_Z (map (peso_palete v itens) ps),
   d + soma_Z (map (itens_na_palete v itens) ps)).
Proof.
  revert a b c d. induction ps as [|p ps IH]; intros a b c d.
  - simpl. f_equal; [f_equal; [f_equal|]|]; lia.
  - cbn [fold_left filter map]. unfold acumular_palete at 2.
    rewrite totais_palete_eq, !soma_Z_cons.
    destruct (itens_na_palete v itens p >? 0) eqn:E; rewrite IH.
    + cbn [List.length]. f_equal; [f_equal; [f_equal|]|]; lia.
    + destruct (palete_vazia v itens p E) as [-> [-> ->]].
      now rewrite !Z.add_0_l.
Qed.

Lemma totais_eq (v : Valuation) (itens : list Item) (cfg : PalletsConfig) :
  totais v itens cfg =
  (used_pallets v itens cfg, volume_loaded v itens cfg,
   mass_loaded v itens cfg, items_loaded v itens cfg).
Proof. unfold totais. rewrite totais_from. reflexivity. Qed.

(** ** Volume and mass utilisation *)

Lemma calcular_metricas_some (itens : list Item) (v : Valuation)
    (cfg : PalletsConfig) :
  itens <> [] ->
  calcular_metricas itens (Some v) cfg =
  Returned (cheio
    {| pallets_utilizados := used_pallets v itens cfg;
       itens_carregados := items_loaded v itens cfg;
       itens_total := Z.of_nat (List.length itens);
       taxa_utilizacao_itens :=
         (truediv (items_loaded v itens cfg) (Z.of_nat (List.length itens))
          * 100)%Q;
       volume_utilizado := truediv (volume_loaded v itens cfg) SCALE_VOL;
       volume_disponivel :=
         truediv (capacidade_volume cfg * used_pallets v itens cfg) SCALE_VOL;
       taxa_utilizacao_volume :=
         if capacidade_volume cfg * used_pallets v itens cfg >? 0
         then (truediv (volume_loaded v itens cfg)
                       (capacidade_volume cfg * used_pallets v itens cfg)
               * 100)%Q
         else 0%Q;
       peso_utilizado := truediv (mass_loaded v itens cfg) SCALE_MASS;
       peso_disponivel :=
         truediv (capacidade_massa cfg * used_pallets v itens cfg) SCALE_MASS;
       taxa_utilizacao_peso :=
         if capacidade_massa cfg * used_pallets v itens cfg >? 0
         then (truediv (mass_loaded v itens cfg)
                       (capacidade_massa cfg * used_pallets v itens cfg)
               * 100)%Q
         else 0%Q |}).
Proof.
  intros Hne. unfold calcular_metricas. rewrite totais_eq.
  destruct (Z.eqb_spec (Z.of_nat (List.length itens)) 0) as [E|E].
  - destruct itens; [congruence | simpl in E; lia].
  - reflexivity.
Qed.

Lemma inject_Z_nonzero (b : Z) : b <> 0 -> ~ (inject_Z b == 0)%Q.
Proof.
  intros Hb H. apply Hb.
  now apply (proj1 (inject_Z_injective b 0)) in H.
Qed.

Lemma truediv_mult (a b : Z) :
  b <> 0 -> (truediv a b * inject_Z b == inject_Z a)%Q.
Proof.
  intros Hb. unfold truediv. rewrite Qmult_comm.
  apply Qmult_div_r. now apply inject_Z_nonzero.
Qed.

Lemma truediv_percent_mult (a b : Z) :
  b <> 0 -> (truediv a b * 100 * inject_Z b == 100 * inject_Z a)%Q.
Proof.
  intros Hb.
  setoid_replace (truediv a b * 100 * inject_Z b)%Q
    with (100 * (truediv a b * inject_Z b))%Q by ring.
  now rewrite truediv_mult.
Qed.

Lemma gtb_nonpositive (a : Z) : a <= 0 -> (a >? 0) = false.
Proof. intros Ha. rewrite Z.gtb_ltb. apply Z.ltb_ge. exact Ha. Qed.

Lemma gtb_positive (a : Z) : 0 < a -> (a >? 0) = true.
Proof. intros Ha. rewrite Z.gtb_ltb. apply Z.ltb_lt. exact Ha. Qed.

(** C9, as the code has it: for a non-empty item list, the volume available
    is [capacidade_volume] times the number of pallets that hold at least
    one item, and the figures reported are the loaded and the available
    volume divided by [SCALE_VOL]; [taxa_utilizacao_volume] is loaded over
    available times 100 when the volume available is positive, and 0
    otherwise, in particular when no pallet is used; the mass figures are
    computed the same way, with [SCALE_MASS]. *)
Theorem volume_and_mass_utilization (itens : list Item) (v : Valuation)
    (cfg : PalletsConfig) :
  itens <> [] ->
  let used := used_pallets v itens cfg in
  let vol_available := capacidade_volume cfg * used in
  let mass_available := capacidade_massa cfg * used in
  exists m,
    calcular_metricas itens (Some v) cfg = Returned (cheio m) /\
    pallets_utilizados m = used /\
    (volume_utilizado m * 1000000
       == inject_Z (volume_loaded v itens cfg))%Q /\
    (volume_disponivel m * 1000000 == inject_Z vol_available)%Q /\
    (peso_utilizado m * 1000 == inject_Z (mass_loaded v itens cfg))%Q /\
    (peso_disponivel m * 1000 == inject_Z mass_available)%Q /\
    (0 < vol_available ->
       (taxa_utilizacao_volume m * inject_Z vol_available
          == 100 * inject_Z (volume_loaded v itens cfg))%Q) /\
    (vol_available <= 0 -> taxa_utilizacao_volume m = 0%Q) /\
    (0 < mass_available ->
       (taxa_utilizacao_peso m * inject_Z mass_available
          == 100 * inject_Z (mass_loaded v itens cfg))%Q) /\
    (mass_available <= 0 -> taxa_utilizacao_peso m = 0%Q) /\
    (used = 0 ->
       taxa_utilizacao_volume m = 0%Q /\ taxa_utilizacao_peso m = 0%Q /\
       (volume_disponivel m == 0)%Q /\ (peso_disponivel m == 0)%Q).
Proof.
  intros Hne used vol_available mass_available.
  eexists. split; [apply calcular_metricas_some; exact Hne|].
  cbn [pallets_utilizados volume_utilizado volume_disponivel peso_utilizado
       peso_disponivel taxa_utilizacao_volume taxa_utilizacao_peso].
  fold used. fold vol_available. fold mass_available.
  split; [reflexivity|].
  split; [apply (truediv_mult _ SCALE_VOL); discriminate|].
  split; [apply (truediv_mult _ SCALE_VOL); discriminate|].
  split; [apply (truediv_mult _ SCALE_MASS); discriminate|].
  split; [apply (truediv_mult _ SCALE_MASS); discriminate|].
  split; [|split; [|split; [|split]]].
  - intros Hp. rewrite (gtb_positive _ Hp). apply truediv_percent_mult. lia.
  - intros Hn. now rewrite (gtb_nonpositive _ Hn).
  - intros Hp. rewrite (gtb_positive _ Hp). apply truediv_percent_mult. lia.
  - intros Hn. now rewrite (gtb_nonpositive _ Hn).
  - intros H0. subst vol_available mass_available. rewrite H0, !Z.mul_0_r.
    repeat split; reflexivity.
Qed.

Lemma volume_and_mass_utilization_witness :
  exists m,
    calcular_metricas itens_exemplo (Some valor_exemplo) config_exemplo
      = Returned (cheio m) /\
    pallets_utilizados m = 2 /\
    (volume_utilizado m == 42 # 100)%Q /\
    (volume_disponivel m == 6 # 10)%Q /\
    (taxa_utilizacao_volume m == 70)%Q /\
    (peso_utilizado m == 8)%Q /\
    (peso_disponivel m == 12)%Q /\
    (taxa_utilizacao_peso m == 200 # 3)%Q.
Proof.
  assert (Hne : itens_exemplo <> []) by discriminate.
  destruct (volume_and_mass_utilization itens_exemplo valor_exemplo
              config_exemplo Hne)
    as [m [Hm [Hu [Hvu [Hvd [Hpu [Hpd [Hv [_ [Hp _]]]]]]]]]].
  exists m. split; [exact Hm|]. split; [exact Hu|].
  split; [|split; [|split; [|split; [|split]]]].
  - apply (Qmult_inj_r _ _ 1000000); [discriminate|].
    rewrite Hvu. reflexivity.
  - apply (Qmult_inj_r _ _ 1000000); [discriminate|].
    rewrite Hvd. reflexivity.
  - apply (Qmult_inj_r _ _ (inject_Z 600000)); [discriminate|].
    rewrite (Hv eq_refl). reflexivity.
  - apply (Qmult_inj_r _ _ 1000); [discriminate|].
    rewrite Hpu. reflexivity.
  - apply (Qmult_inj_r _ _ 1000); [discriminate|].
    rewrite Hpd. reflexivity.
  - apply (Qmult_inj_r _ _ (inject_Z 12000)); [discriminate|].
    rewrite (Hp eq_refl). reflexivity.
Defined.

(** C9 as stated fails: with an empty item list no pallet is used, and the
    metrics report no utilisation at all, 0 or other: the computation stops
    on a division by zero. *)
Lemma no_pallet_used_without_items :
  used_pallets valor_exemplo [] config_maior = 0 /\
  calcular_metricas [] (Some valor_exemplo) config_maior
    = Raised ZeroDivisionError /\
  (forall m, calcular_metricas [] (Some valor_exemplo) config_maior
             <> Returned (cheio m)).
Proof.
  split; [reflexivity|]. split; [reflexivity|]. intros m. discriminate.
Qed.

(** ** No solver result *)

(** C10: without a solver result the metrics are the empty dictionary,
    whatever the items and the pallet configuration, the empty item list
    included. *)
Theorem metrics_without_solver (itens : list Item) (cfg : PalletsConfig) :
  calcular_metricas itens None cfg = Returned vazio /\
  calcular_metricas itens None cfg
  = calcular_metricas [] None config_sem_paletes.
Proof. split; reflexivity. Qed.

(** ** No validation in the builder *)

Lemma range_nonpositive (k : Z) : k < 1 -> range k = [].
Proof.
  intros Hk. unfold range. replace (Z.to_nat k) with 0%nat by lia. reflexivity.
Qed.

Lemma int64_spec (z : Z) : int64 z = true <-> - 2 ^ 63 <= z < 2 ^ 63.
Proof.
  unfold int64, INT_MIN, INT_MAX.
  rewrite andb_true_iff, !Z.leb_le. lia.
Qed.

Lemma int64_false (z : Z) : int64 z = false <-> z < - 2 ^ 63 \/ 2 ^ 63 <= z.
Proof.
  destruct (int64 z) eqn:E.
  - apply int64_spec in E. split; [discriminate | lia].
  - split; [intros _ | reflexivity].
    destruct (Z_lt_le_dec z (- 2 ^ 63)) as [H|H]; [now left|].
    destruct (Z_lt_le_dec z (2 ^ 63)) as [H'|H']; [|now right].
    assert (int64 z = true) by (apply int64_spec; lia). congruence.
Qed.

Lemma limite_aceito_spec (cap : Numero) :
  limite_aceito cap = true <->
  exists z, cap = Inteiro z /\ - 2 ^ 63 <= z < 2 ^ 63.
Proof.
  destruct cap as [z|q]; cbn [limite_aceito].
  - rewrite int64_spec. split.
    + intros H. now exists z.
    + intros [z' [E H]]. now injection E as ->.
  - split; [discriminate | intros [z [E _]]; discriminate].
Qed.

Lemma forallb_false {A : Type} (q : A -> bool) (xs : list A) :
  forallb q xs = false <-> exists a, In a xs /\ q a = false.
Proof.
  induction xs as [|a xs IH]; cbn [forallb].
  - split; [discriminate | intros [a [[] _]]].
  - rewrite andb_false_iff, IH. split.
    + intros [H|[b [Hb Hq]]]; [exists a | exists b]; split; auto;
        [now left | now right].
    + intros [b [[<-|Hb] Hq]]; [now left | right; now exists b].
Qed.

Lemma add_aceito_false (coefs : list Z) (cap : Numero) :
  add_aceito coefs cap = false <->
  coefs <> [] /\
  (limite_aceito cap = false \/ exists c, In c coefs /\ int64 c = false).
Proof.
  destruct coefs as [|c cs]; cbn [add_aceito].
  - split; [discriminate | intros [H _]; congruence].
  - rewrite andb_false_iff, forallb_false. split.
    + intros [H|H]; (split; [discriminate|]); [now right | now left].
    + intros [_ [H|H]]; [now right | now left].
Qed.

Lemma capacidade_recusada_true (itens : list Item)
    (d : Dict.pallets_config) :
  capacidade_recusada itens d = true <->
  0 < Dict.quantidade d /\ itens <> [] /\
  (limite_aceito (Dict.capacidade_massa d) = false \/
   limite_aceito (Dict.capacidade_volume d) = false \/
   exists it, In it itens /\ (int64 (mass it) = false \/
                              int64 (vol it) = false)).
Proof.
  unfold capacidade_recusada.
  rewrite andb_true_iff, Z.ltb_lt, negb_true_iff, andb_false_iff,
    !add_aceito_false.
  split.
  - intros [Hq [[Hne H]|[Hne H]]]; (split; [exact Hq|]);
      (split; [intros ->; now apply Hne|]).
    + destruct H as [H|[c [Hc Hi]]]; [now left|].
      apply in_map_iff in Hc. destruct Hc as [it [<- Hit]].
      right. right. exists it. split; [exact Hit | now left].
    + destruct H as [H|[c [Hc Hi]]]; [right; now left|].
      apply in_map_iff in Hc. destruct Hc as [it [<- Hit]].
      right. right. exists it. split; [exact Hit | now right].
  - intros [Hq [Hne H]]. split; [exact Hq|].
    assert (Hm : map mass itens <> [])
      by (destruct itens; [congruence | discriminate]).
    assert (Hv : map vol itens <> [])
      by (destruct itens; [congruence | discriminate]).
    destruct H as [H|[H|[it [Hit [H|H]]]]].
    + left. split; [exact Hm | now left].
    + right. split; [exact Hv | now left].
    + left. split; [exact Hm|]. right. exists (mass it).
      split; [now apply in_map | exact H].
    + right. split; [exact Hv|]. right. exists (vol it).
      split; [now apply in_map | exact H].
Qed.

Lemma capacidade_recusada_false (itens : list Item)
    (d : Dict.pallets_config) :
  Dict.quantidade d < 1 \/ itens = [] \/
  (limite_aceito (Dict.capacidade_massa d) = true /\
   limite_aceito (Dict.capacidade_volume d) = true /\
   forall it, In it itens -> int64 (mass it) = true /\ int64 (vol it) = true)
  -> capacidade_recusada itens d = false.
Proof.
  intros H. destruct (capacidade_recusada itens d) eqn:E; [|reflexivity].
  apply capacidade_recusada_true in E. destruct E as [Hq [Hne E]].
  destruct H as [H|[H|[Hm [Hv Hit]]]]; [lia | congruence |].
  destruct E as [E|[E|[it [Hin [E|E]]]]]; try congruence;
    destruct (Hit it Hin); congruence.
Qed.

Lemma otimizar_recusado (solve : Solver) (itens : list Item)
    (d : Dict.pallets_config) :
  capacidade_recusada itens d = true ->
  otimizar solve itens d = mkRun (Raised TypeError) [].
Proof. intros H. unfold otimizar. now rewrite H. Qed.

Lemma otimizar_aceito (solve : Solver) (itens : list Item)
    (d : Dict.pallets_config) :
  capacidade_recusada itens d = false ->
  let m := otimizar_model itens (config_inteira d) in
  solve_calls (otimizar solve itens d) = [(30, m)] /\
  exists res,
    outcome (otimizar solve itens d) = Returned res /\
    status res = fst (solve 30 m) /\
    solver res =
      match fst (solve 30 m) with
      | OPTIMAL | FEASIBLE => Some (snd (solve 30 m))
      | _ => None
      end.
Proof.
  intros H m. unfold otimizar. rewrite H. fold m.
  destruct (solve 30 m) as [st value]. cbn [fst snd solve_calls outcome].
  split; [reflexivity|].
  eexists. split; [reflexivity|]. destruct st; split; reflexivity.
Qed.

Lemma config_inteira_dict_de (cfg : PalletsConfig) :
  config_inteira (dict_de cfg) = cfg.
Proof. now destruct cfg. Qed.

(** C6, as the code has it: [otimizar] validates nothing and never fails
    with [InvalidConfiguration].  A pallet count below 1, capacities that are
    zero or negative integers and items of any dimensions and masses are
    accepted: when every number handed to the constraint library is a 64-bit
    integer, the model is built and handed to exactly one solve bounded to
    30 seconds, and the solver's status is returned, with the solved values
    only for [OPTIMAL] and [FEASIBLE].  The only failure is the [TypeError]
    of the constraint library, before any solve: with at least one pallet and
    one item, on a capacity that is a float or an integer beyond 64 bits, or
    on an item mass or volume beyond 64 bits.  With a pallet count below 1
    the model has no assignment variable, no capacity constraint and an
    empty objective. *)
Theorem builder_validates_nothing (solve : Solver) (itens : list Item)
    (pallets_config : Dict.pallets_config) :
  let m := otimizar_model itens (config_inteira pallets_config) in
  let run := otimizar solve itens pallets_config in
  let solved :=
    solve_calls run = [(30, m)] /\
    exists res, outcome run = Returned res /\
      status res = fst (solve 30 m) /\
      solver res =
        match fst (solve 30 m) with
        | OPTIMAL | FEASIBLE => Some (snd (solve 30 m))
        | _ => None
        end in
  let stopped := run = mkRun (Raised TypeError) [] in
  outcome run <> Raised InvalidConfiguration /\
  (solved \/ stopped) /\
  (Dict.quantidade pallets_config < 1 \/ itens = [] -> solved) /\
  (forall zm zv,
     Dict.capacidade_massa pallets_config = Inteiro zm ->
     Dict.capacidade_volume pallets_config = Inteiro zv ->
     - 2 ^ 63 <= zm < 2 ^ 63 -> - 2 ^ 63 <= zv < 2 ^ 63 ->
     (forall it, In it itens ->
        - 2 ^ 63 <= mass it < 2 ^ 63 /\ - 2 ^ 63 <= vol it < 2 ^ 63 /\
        forall q, prioridade it = Some q ->
          - 2 ^ 63 <= q < 2 ^ 63 /\ - 2 ^ 63 <= vol it * q < 2 ^ 63) ->
     solved) /\
  (0 < Dict.quantidade pallets_config -> itens <> [] ->
     (forall q, Dict.capacidade_massa pallets_config = Flutuante q \/
                Dict.capacidade_volume pallets_config = Flutuante q ->
        stopped) /\
     (forall z, Dict.capacidade_massa pallets_config = Inteiro z \/
                Dict.capacidade_volume pallets_config = Inteiro z ->
        z < - 2 ^ 63 \/ 2 ^ 63 <= z -> stopped) /\
     (forall it, In it itens ->
        mass it < - 2 ^ 63 \/ 2 ^ 63 <= mass it \/
        vol it < - 2 ^ 63 \/ 2 ^ 63 <= vol it -> stopped)) /\
  (Dict.quantidade pallets_config < 1 ->
     restricoes_capacidade itens (config_inteira pallets_config) = [] /\
     objetivo itens (config_inteira pallets_config) = [] /\
     forall a, In a (variables m) -> is_X a = false).
Proof.
  intros m run solved stopped.
  assert (Hrec : capacidade_recusada itens pallets_config = true -> stopped)
    by (intros H; apply otimizar_recusado; exact H).
  assert (Hac : capacidade_recusada itens pallets_config = false -> solved)
    by (intros H; apply (otimizar_aceito solve itens pallets_config H)).
  split; [|split; [|split; [|split; [|split]]]].
  - destruct (capacidade_recusada itens pallets_config) eqn:E.
    + subst run. rewrite (Hrec eq_refl). discriminate.
    + destruct (Hac eq_refl) as [_ [res [Hres _]]]. subst run.
      rewrite Hres. discriminate.
  - destruct (capacidade_recusada itens pallets_config);
      [right | left]; auto.
  - intros H. apply Hac, capacidade_recusada_false.
    destruct H; [now left | right; now left].
  - intros zm zv Em Ev Hm Hv Hit. apply Hac, capacidade_recusada_false.
    right. right. split; [|split].
    + apply limite_aceito_spec. now exists zm.
    + apply limite_aceito_spec. now exists zv.
    + intros it Hin. destruct (Hit it Hin) as [H1 [H2 _]].
      split; now apply int64_spec.
  - intros Hq Hne. split; [|split].
    + intros q Hc. apply Hrec, capacidade_recusada_true.
      split; [exact Hq|]. split; [exact Hne|].
      destruct Hc as [-> | ->]; [now left | right; now left].
    + intros z Hc Hz. apply Hrec, capacidade_recusada_true.
      split; [exact Hq|]. split; [exact Hne|].
      destruct Hc as [-> | ->]; [left | right; left];
        cbn [limite_aceito]; now apply int64_false.
    + intros it Hin Hz. apply Hrec, capacidade_recusada_true.
      split; [exact Hq|]. split; [exact Hne|].
      right. right. exists it. split; [exact Hin|].
      rewrite !int64_false. tauto.
  - intros Hq.
    change (Dict.quantidade pallets_config)
      with (quantidade (config_inteira pallets_config)) in Hq.
    pose proof (range_nonpositive _ Hq) as Hr.
    split; [|split].
    + unfold restricoes_capacidade. now rewrite Hr.
    + unfold objetivo. rewrite Hr. cbn [map].
      induction (enumerate itens) as [|[i it] es IH]; [reflexivity|].
      cbn [flat_map]. exact IH.
    + intros a Ha. subst m. unfold otimizar_model in Ha.
      cbn [variables] in Ha. unfold criar_variaveis in Ha.
      rewrite Hr in Ha. apply in_flat_map in Ha. destruct Ha as [i [_ Ha]].
      cbn [map app] in Ha. apply in_app_or in Ha. destruct Ha as [Ha|Ha].
      * apply in_map_iff in Ha. destruct Ha as [k [<- _]]. reflexivity.
      * apply in_flat_map in Ha. destruct Ha as [j [_ Ha]].
        destruct (Nat.eqb i j); [destruct Ha|].
        destruct Ha as [<-|[]]. reflexivity.
Qed.

Lemma builder_validates_nothing_witness :
  otimizar (check_solver valor_vazio) itens_exemplo dict_personalizada
    = mkRun (Raised TypeError) [] /\
  otimizar (check_solver valor_vazio) [item_desmedido]
           (dict_de config_exemplo)
    = mkRun (Raised TypeError) [] /\
  solve_calls (otimizar (check_solver valor_vazio) itens_exemplo
                        dict_personalizada_sem_paletes)
    = [(30, otimizar_model itens_exemplo
              (config_inteira dict_personalizada_sem_paletes))] /\
  solve_calls (otimizar (check_solver valor_vazio) itens_exemplo
                        (dict_de config_exemplo))
    = [(30, otimizar_model itens_exemplo config_exemplo)] /\
  objetivo itens_exemplo (config_inteira dict_personalizada_sem_paletes) = [].
Proof.
  split; [|split; [|split; [|split]]].
  - destruct (builder_validates_nothing (check_solver valor_vazio)
                itens_exemplo dict_personalizada)
      as [_ [_ [_ [_ [H _]]]]].
    destruct (H eq_refl) as [Hf _]; [discriminate|].
    apply (Hf (inject_Z 1000000)). now left.
  - destruct (builder_validates_nothing (check_solver valor_vazio)
                [item_desmedido] (dict_de config_exemplo))
      as [_ [_ [_ [_ [H _]]]]].
    destruct (H eq_refl) as [_ [_ Hi]]; [discriminate|].
    apply (Hi item_desmedido); [now left|].
    right. left. cbn. lia.
  - destruct (builder_validates_nothing (check_solver valor_vazio)
                itens_exemplo dict_personalizada_sem_paletes)
      as [_ [_ [H _]]].
    destruct H as [H _]; [left; reflexivity|]. exact H.
  - destruct (builder_validates_nothing (check_solver valor_vazio)
                itens_exemplo (dict_de config_exemplo))
      as [_ [_ [_ [H _]]]].
    assert (Hc : - 2 ^ 63 <= 6000 < 2 ^ 63 /\ - 2 ^ 63 <= 300000 < 2 ^ 63)
      by (repeat split; (discriminate || reflexivity)).
    assert (Hit : forall it, In it itens_exemplo ->
              - 2 ^ 63 <= mass it < 2 ^ 63 /\ - 2 ^ 63 <= vol it < 2 ^ 63 /\
              forall q, prioridade it = Some q ->
                - 2 ^ 63 <= q < 2 ^ 63 /\ - 2 ^ 63 <= vol it * q < 2 ^ 63).
    { intros it [<-|[<-|[<-|[]]]];
        (split; [split; [discriminate | reflexivity]|]);
        (split; [split; [discriminate | reflexivity]|]);
        intros q Hq; try discriminate; injection Hq as <-;
        repeat split; (discriminate || reflexivity). }
    exact (proj1 (H 6000 300000 eq_refl eq_refl (proj1 Hc) (proj2 Hc) Hit)).
  - destruct (builder_validates_nothing (check_solver valor_vazio)
                itens_exemplo dict_personalizada_sem_paletes)
      as [_ [_ [_ [_ [_ H]]]]].
    destruct (H eq_refl) as [_ [Ho _]]. exact Ho.
Defined.

(** C6 as stated fails: with zero pallets the builder does not fail with
    [InvalidConfiguration]; the model is built and solved. *)
Lemma zero_pallets_are_solved :
  Dict.quantidade (dict_de config_sem_paletes) < 1 /\
  outcome (otimizar (check_solver valor_vazio) itens_exemplo
                    (dict_de config_sem_paletes))
    <> Raised InvalidConfiguration /\
  solve_calls (otimizar (check_solver valor_vazio) itens_exemplo
                        (dict_de config_sem_paletes))
    = [(30, otimizar_model itens_exemplo config_sem_paletes)] /\
  (exists res,
     outcome (otimizar (check_solver valor_vazio) itens_exemplo
                       (dict_de config_sem_paletes)) = Returned res /\
     status res = FEASIBLE).
Proof.
  split; [reflexivity|]. split; [|split].
  - vm_compute. discriminate.
  - reflexivity.
  - eexists. split; [vm_compute; reflexivity | reflexivity].
Qed.

(** ** Item utilisation *)

Lemma soma_Z_map_add {A : Type} (g k : A -> Z) (xs : list A) :
  soma_Z (map (fun a => g a + k a) xs) =
  soma_Z (map g xs) + soma_Z (map k xs).
Proof.
  induction xs as [|a xs IH]; [reflexivity|].
  cbn [map]. rewrite !soma_Z_cons, IH. lia.
Qed.

Lemma soma_Z_map_zero {A : Type} (xs : list A) :
  soma_Z (map (fun _ => 0) xs) = 0.
Proof.
  induction xs as [|a xs IH]; [reflexivity|].
  cbn [map]. now rewrite soma_Z_cons, IH.
Qed.

Lemma soma_Z_swap {A B : Type} (F : A -> B -> Z) (xs : list A) (ys : list B) :
  soma_Z (map (fun y => soma_Z (map (fun a => F a y) xs)) ys) =
  soma_Z (map (fun a => soma_Z (map (fun y => F a y) ys)) xs).
Proof.
  induction ys as [|y ys IH].
  - cbn [map]. now rewrite soma_Z_map_zero.
  - cbn [map]. rewrite soma_Z_cons, IH, <- soma_Z_map_add.
    f_equal.
Qed.

Lemma length_filter_soma {A : Type} (g : A -> bool) (xs : list A) :
  Z.of_nat (List.length (filter g xs)) = soma_Z (map (fun a => Z.b2z (g a)) xs).
Proof.
  induction xs as [|a xs IH]; [reflexivity|].
  cbn [filter map]. rewrite soma_Z_cons, <- IH.
  destruct (g a); cbn [List.length Z.b2z]; lia.
Qed.

Lemma soma_Z_bounded {A : Type} (g : A -> Z) (xs : list A) :
  (forall a, In a xs -> 0 <= g a <= 1) ->
  0 <= soma_Z (map g xs) <= Z.of_nat (List.length xs).
Proof.
  induction xs as [|a xs IH]; intros Hb; [simpl; lia|].
  cbn [map List.length]. rewrite soma_Z_cons.
  pose proof (Hb a (or_introl eq_refl)).
  assert (0 <= soma_Z (map g xs) <= Z.of_nat (List.length xs))
    by (apply IH; intros b Hin; apply Hb; now right).
  lia.
Qed.

Lemma eval_unit_terms_soma (v : Valuation) (i : nat) (ps : list nat) :
  eval v (map (fun p => (1, X i p)) ps) =
  soma_Z (map (fun p => Z.b2z (v (X i p))) ps).
Proof.
  rewrite eval_objetivo_terms. f_equal. apply map_ext. intros p. lia.
Qed.

Lemma length_enumerate {A : Type} (xs : list A) :
  List.length (enumerate xs) = List.length xs.
Proof.
  unfold enumerate. rewrite length_combine, length_seq. apply Nat.min_id.
Qed.

Lemma soma_x_le_1 (itens : list Item) (cfg : PalletsConfig) (v : Valuation)
    (i : nat) (it : Item) :
  nth_error itens i = Some it ->
  model_holds v (otimizar_model itens cfg) = true ->
  eval v (map (fun p => (1, X i p)) (range (quantidade cfg))) <= 1.
Proof.
  intros Hi Hsat. rewrite model_holds_iff in Hsat. apply Z.leb_le.
  apply (Hsat (restricao_uma_palete cfg i)).
  apply In_constraints. left. apply In_restricoes_itens.
  exists i, it. split; [exact Hi | now left].
Qed.

(** Every item counted on at most one pallet: no more items loaded than
    there are items. *)
Lemma items_loaded_bounds (itens : list Item) (v : Valuation)
    (cfg : PalletsConfig) :
  model_holds v (otimizar_model itens cfg) = true ->
  0 <= items_loaded v itens cfg <= Z.of_nat (List.length itens).
Proof.
  intros Hsat. unfold items_loaded, itens_na_palete, itens_da_palete.
  rewrite (map_ext _ (fun p => soma_Z (map (fun e => Z.b2z (v (X (fst e) p)))
                                           (enumerate itens))))
    by (intros p; apply length_filter_soma).
  rewrite (soma_Z_swap (fun e p => Z.b2z (v (X (fst e) p)))).
  rewrite <- (length_enumerate itens). apply soma_Z_bounded.
  intros [i it] Hin. cbn [fst]. rewrite <- eval_unit_terms_soma.
  split; [apply eval_unit_terms_nonneg|].
  apply In_enumerate in Hin.
  now apply (soma_x_le_1 itens cfg v i it).
Qed.

Lemma truediv_percent_bounds (a b : Z) :
  0 <= a <= b -> 0 < b ->
  (0 <= truediv a b * 100 /\ truediv a b * 100 <= 100)%Q.
Proof.
  intros [Ha Hab] Hb. unfold truediv.
  assert (Hb' : (0 < inject_Z b)%Q)
    by (change (inject_Z 0 < inject_Z b)%Q; now rewrite <- Zlt_Qlt).
  assert (H0 : (0 <= inject_Z a / inject_Z b)%Q).
  { apply Qle_shift_div_l; [exact Hb'|]. rewrite Qmult_0_l.
    change (inject_Z 0 <= inject_Z a)%Q. now rewrite <- Zle_Qle. }
  assert (H1 : (inject_Z a / inject_Z b <= 1)%Q).
  { apply Qle_shift_div_r; [exact Hb'|]. rewrite Qmult_1_l.
    now rewrite <- Zle_Qle. }
  split.
  - apply Qmult_le_0_compat; [exact H0 | discriminate].
  - setoid_replace 100%Q with (1 * 100)%Q at 2 by reflexivity.
    apply Qmult_le_compat_r; [exact H1 | discriminate].
Qed.

Lemma main_resultados_sem (solve : Solver) (btn : bool)
    (itens : list Item) (d : Dict.pallets_config) :
  btn = false \/ itens = [] ->
  main_resultados solve btn itens d = mkRun (Returned SemResultados) [].
Proof.
  intros [-> | ->]; unfold main_resultados; [reflexivity|].
  cbn [List.length Nat.eqb negb]. now rewrite andb_false_r.
Qed.

Lemma main_resultados_recusado (solve : Solver) (itens : list Item)
    (d : Dict.pallets_config) :
  itens <> [] -> capacidade_recusada itens d = true ->
  main_resultados solve true itens d = mkRun (Raised TypeError) [].
Proof.
  intros Hne H. unfold main_resultados.
  destruct itens as [|it rest]; [congruence|].
  cbn [List.length Nat.eqb negb andb].
  now rewrite (otimizar_recusado solve (it :: rest) d H).
Qed.

Lemma main_resultados_aceito (solve : Solver) (itens : list Item)
    (d : Dict.pallets_config) :
  itens <> [] -> capacidade_recusada itens d = false ->
  main_resultados solve true itens d =
  let m := otimizar_model itens (config_inteira d) in
  match fst (solve 30 m) with
  | OPTIMAL | FEASIBLE =>
      mkRun (Returned (Sucesso (calcular_metricas itens
                                  (Some (snd (solve 30 m)))
                                  (config_inteira d))))
            [(30, m)]
  | st => mkRun (Returned (SemSolucao st)) [(30, m)]
  end.
Proof.
  intros Hne H. unfold main_resultados, otimizar. rewrite H.
  destruct itens as [|it rest]; [congruence|].
  cbn [List.length Nat.eqb negb andb].
  destruct (solve 30 (otimizar_model (it :: rest) (config_inteira d)))
    as [st value].
  destruct st; reflexivity.
Qed.

Lemma length_pos {A : Type} (xs : list A) :
  xs <> [] -> 0 < Z.of_nat (List.length xs).
Proof. intros H. destruct xs; [congruence | cbn; lia]. Qed.

(** C7, as the code has it: the caller runs the optimisation and the
    metrics only for a non-empty item list, so an empty list gives no solve,
    no metrics and no error, and the metrics never fail when reached from the
    caller: they are then the full dictionary, whose [taxa_utilizacao_itens]
    is [itens_carregados / itens_total * 100]; for every non-empty item list
    and every valuation that satisfies the model this rate lies in
    [0, 100]. *)
Theorem item_utilization (solve : Solver) (itens : list Item)
    (pallet_config : Dict.pallets_config) (cfg : PalletsConfig) :
  (forall btn, main_resultados solve btn [] pallet_config
               = mkRun (Returned SemResultados) []) /\
  (forall btn e,
     outcome (main_resultados solve btn itens pallet_config)
       <> Returned (Sucesso (Raised e))) /\
  (forall btn md,
     outcome (main_resultados solve btn itens pallet_config)
       = Returned (Sucesso md) ->
     itens <> [] /\
     exists m,
       md = Returned (cheio m) /\
       itens_total m = Z.of_nat (List.length itens) /\
       0 < itens_total m /\
       (taxa_utilizacao_itens m * inject_Z (itens_total m)
          == 100 * inject_Z (itens_carregados m))%Q) /\
  (forall v, itens <> [] ->
     model_holds v (otimizar_model itens cfg) = true ->
     exists m,
       calcular_metricas itens (Some v) cfg = Returned (cheio m) /\
       itens_carregados m = items_loaded v itens cfg /\
       itens_total m = Z.of_nat (List.length itens) /\
       0 <= itens_carregados m <= itens_total m /\
       0 < itens_total m /\
       (taxa_utilizacao_itens m * inject_Z (itens_total m)
          == 100 * inject_Z (itens_carregados m))%Q /\
       (0 <= taxa_utilizacao_itens m)%Q /\
       (taxa_utilizacao_itens m <= 100)%Q).
Proof.
  assert (Hmain : forall btn md,
            outcome (main_resultados solve btn itens pallet_config)
              = Returned (Sucesso md) ->
            itens <> [] /\
            exists v, md = calcular_metricas itens (Some v)
                             (config_inteira pallet_config)).
  { intros btn md H.
    destruct itens as [|it rest].
    - rewrite main_resultados_sem in H by now right. discriminate.
    - split; [discriminate|]. destruct btn.
      2:{ rewrite main_resultados_sem in H by now left. discriminate. }
      destruct (capacidade_recusada (it :: rest) pallet_config) eqn:E.
      + rewrite main_resultados_recusado in H by (discriminate || exact E).
        discriminate.
      + rewrite main_resultados_aceito in H by (discriminate || exact E).
        cbv zeta in H.
        destruct (fst (solve 30 _)); cbn [outcome] in H;
          try discriminate; injection H as <-; eexists; reflexivity. }
  split; [|split; [|split]].
  - intros btn. apply main_resultados_sem. now right.
  - intros btn e H. destruct (Hmain btn _ H) as [Hne [v Hv]].
    rewrite (calcular_metricas_some itens v _ Hne) in Hv. discriminate.
  - intros btn md H. destruct (Hmain btn _ H) as [Hne [v Hv]].
    split; [exact Hne|].
    rewrite (calcular_metricas_some itens v _ Hne) in Hv.
    eexists. split; [exact Hv|].
    cbn [itens_carregados itens_total taxa_utilizacao_itens].
    pose proof (length_pos itens Hne) as Hn.
    split; [reflexivity|]. split; [exact Hn|].
    apply truediv_percent_mult. lia.
  - intros v Hne Hsat. eexists.
    split; [apply calcular_metricas_some; exact Hne|].
    cbn [itens_carregados itens_total taxa_utilizacao_itens].
    pose proof (items_loaded_bounds itens v cfg Hsat) as Hb.
    pose proof (length_pos itens Hne) as Hn.
    split; [reflexivity|]. split; [reflexivity|]. split; [exact Hb|].
    split; [exact Hn|].
    split; [apply truediv_percent_mult; lia|].
    now apply truediv_percent_bounds.
Qed.

Lemma item_utilization_witness :
  exists m,
    calcular_metricas itens_exemplo (Some (descarregar 1 valor_exemplo))
                      config_exemplo
      = Returned (cheio m) /\
    itens_carregados m = 2 /\ itens_total m = 3 /\
    (taxa_utilizacao_itens m == 200 # 3)%Q.
Proof.
  assert (Hne : itens_exemplo <> []) by discriminate.
  destruct (proj2 (proj2 (proj2
              (item_utilization (check_solver valor_exemplo)
                 itens_exemplo (dict_de config_exemplo) config_exemplo)))
              (descarregar 1 valor_exemplo) Hne eq_refl)
    as [m [Hm [Hc [Ht [_ [_ [Hr _]]]]]]].
  exists m. split; [exact Hm|]. split; [exact Hc|]. split; [exact Ht|].
  apply (Qmult_inj_r _ _ (inject_Z 3)); [discriminate|].
  rewrite Ht, Hc in Hr. rewrite Hr. reflexivity.
Defined.

(** C7 as stated fails: on an empty item list [calcular_metricas] divides by
    zero, and [otimizar] solves the empty model; neither fails with
    [InvalidConfiguration]. *)
Lemma empty_items_divide_by_zero :
  calcular_metricas [] (Some valor_vazio) config_exemplo
    = Raised ZeroDivisionError /\
  calcular_metricas [] (Some valor_vazio) config_exemplo
    <> Raised InvalidConfiguration /\
  outcome (otimizar (check_solver valor_vazio) [] (dict_de config_exemplo))
    <> Raised InvalidConfiguration.
Proof.
  split; [reflexivity|]. split; [discriminate|].
  vm_compute. discriminate.
Qed.

(** ** The layout: one tower per pallet *)

Local Open Scope Q_scope.

Lemma nth_error_combine_seq {A : Type} (xs : list A) (k i j : nat) (a : A) :
  nth_error (combine (seq k (List.length xs)) xs) i = Some (j, a) <->
  j = (k + i)%nat /\ nth_error xs i = Some a.
Proof.
  revert k i. induction xs as [|b xs IH]; intros k i.
  - destruct i; simpl; split; try discriminate; intros [_ H]; discriminate.
  - destruct i as [|i]; cbn [List.length seq combine nth_error].
    + split.
      * intros E. inversion E; subst. split; [lia | reflexivity].
      * intros [-> E]. inversion E; subst. f_equal. f_equal. lia.
    + rewrite IH. split; intros [-> E]; (split; [lia | exact E]).
Qed.

Lemma nth_error_enumerate {A : Type} (xs : list A) (i j : nat) (a : A) :
  nth_error (enumerate xs) i = Some (j, a) <->
  j = i /\ nth_error xs i = Some a.
Proof. unfold enumerate. now rewrite nth_error_combine_seq. Qed.

Lemma enumerate_split_index {A : Type} (xs : list A)
    (pre es : list (nat * A)) (e : nat * A) :
  enumerate xs = pre ++ e :: es -> fst e = List.length pre.
Proof.
  intros Hs. destruct e as [j a]. cbn [fst].
  assert (H : nth_error (enumerate xs) (List.length pre) = Some (j, a)).
  { rewrite Hs, nth_error_app2, Nat.sub_diag by lia. reflexivity. }
  apply nth_error_enumerate in H. tauto.
Qed.

Lemma firstn_succ_nth_error {A : Type} (xs : list A) (i : nat) (a : A) :
  nth_error xs i = Some a -> firstn (Datatypes.S i) xs = firstn i xs ++ [a].
Proof.
  revert i. induction xs as [|b xs IH]; intros i H.
  - destruct i; discriminate.
  - destruct i as [|i]; cbn [nth_error] in H.
    + inversion H; subst. reflexivity.
    + cbn [firstn app]. f_equal. now apply IH.
Qed.

Lemma orientacao_some (v : Valuation) (i k : nat) :
  orientacao v i = Some k -> (k < 6)%nat /\ v (R i k) = true.
Proof.
  unfold orientacao. intros H. apply find_some in H.
  destruct H as [Hin Hv]. apply in_seq in Hin. split; [lia | exact Hv].
Qed.

(** One turn of the inner loop on an item of the pallet. *)
Lemma passo_item_assigned (v : Valuation) (p : nat) (z : Q)
    (fig : list Trace) (e : nat * Item) :
  v (X (fst e) p) = true ->
  orientacao v (fst e) <> None ->
  passo_item v p (Returned (z, fig)) e =
  Returned (z + altura_orientada v e,
            fig ++ [caixa (offset_x p) z (fst e) (dims_orientadas v e)]).
Proof.
  destruct e as [i it]. cbn [fst]. intros Hx Ho.
  unfold passo_item, altura_orientada, dims_orientadas. cbn [fst snd].
  rewrite Hx. destruct (orientacao v i) as [k|] eqn:Ek; [|congruence].
  destruct (orientacao_some v i k Ek) as [Hk _].
  do 6 (destruct k as [|k]; [reflexivity|]). lia.
Qed.

Lemma passo_item_skipped (v : Valuation) (p : nat) (z : Q)
    (fig : list Trace) (e : nat * Item) :
  v (X (fst e) p) = false ->
  passo_item v p (Returned (z, fig)) e = Returned (z, fig).
Proof.
  destruct e as [i it]. cbn [fst]. intros Hx.
  unfold passo_item. now rewrite Hx.
Qed.

(** The inner loop stacks a tower from the cursor it starts with. *)
Lemma laco_itens (v : Valuation) (p : nat) (es : list (nat * Item)) :
  (forall e, In e es -> v (X (fst e) p) = true ->
             orientacao v (fst e) <> None) ->
  forall z fig,
    fold_left (passo_item v p) es (Returned (z, fig)) =
    Returned (cursor_final v p z es, fig ++ torre v p z es).
Proof.
  induction es as [|e es IH]; intros Hor z fig.
  - cbn. now rewrite app_nil_r.
  - cbn [fold_left torre]. unfold cursor_final. cbn [filter].
    destruct (v (X (fst e) p)) eqn:Hx.
    + rewrite passo_item_assigned; auto using in_eq.
      rewrite IH by (intros e' He'; apply Hor; now right).
      unfold cursor_final. cbn [map fold_left].
      now rewrite <- app_assoc.
    + rewrite passo_item_skipped by exact Hx.
      rewrite IH by (intros e' He'; apply Hor; now right).
      reflexivity.
Qed.

Lemma soma_Q_snoc (qs : list Q) (q : Q) : soma_Q (qs ++ [q]) = soma_Q qs + q.
Proof. unfold soma_Q. now rewrite fold_left_app. Qed.

(** The tower stacked over the rest of the items meets, at each item, the
    cursor of the specification. *)
Lemma torre_spec (v : Valuation) (itens : list Item) (p : nat)
    (es pre : list (nat * Item)) :
  enumerate itens = pre ++ es ->
  torre v p (soma_Q (map (altura_orientada v)
                         (filter (fun e => v (X (fst e) p)) pre))) es =
  map (fun e => caixa (offset_x p) (spec_z0 v itens p (fst e)) (fst e)
                      (dims_orientadas v e))
      (filter (fun e => v (X (fst e) p)) es).
Proof.
  revert pre. induction es as [|e es IH]; intros pre Hs; [reflexivity|].
  assert (Hz : spec_z0 v itens p (fst e) =
               soma_Q (map (altura_orientada v)
                           (filter (fun e => v (X (fst e) p)) pre))).
  { unfold spec_z0. rewrite (enumerate_split_index _ _ _ _ Hs), Hs.
    rewrite <- (Nat.add_0_r (List.length pre)), firstn_app_2.
    cbn [firstn]. now rewrite app_nil_r. }
  assert (Hs' : enumerate itens = (pre ++ [e]) ++ es)
    by (now rewrite <- app_assoc).
  specialize (IH (pre ++ [e]) Hs').
  rewrite filter_app, map_app in IH. cbn [torre filter] in *.
  destruct (v (X (fst e) p)).
  - cbn [map] in *. rewrite soma_Q_snoc in IH. now rewrite IH, Hz.
  - cbn [map] in IH. rewrite app_nil_r in IH. exact IH.
Qed.

(** The outer loop: after each pallet's base come its boxes. *)
Lemma laco_paletes (v : Valuation) (itens : list Item) (ps : list nat) :
  (forall p e, In p ps -> In e (enumerate itens) ->
     v (X (fst e) p) = true -> orientacao v (fst e) <> None) ->
  forall fig,
    fold_left (passo_palete v itens) ps (Returned fig) =
    Returned (fig ++
      flat_map (fun p =>
        base_palete p ::
        map (fun e => caixa (offset_x p) (spec_z0 v itens p (fst e)) (fst e)
                            (dims_orientadas v e))
            (itens_da_palete v itens p)) ps).
Proof.
  induction ps as [|p ps IH]; intros Hor fig.
  - cbn. now rewrite app_nil_r.
  - cbn [fold_left flat_map]. unfold passo_palete at 2.
    rewrite laco_itens by (intros e He; apply Hor; [now left | exact He]).
    rewrite IH by (intros p' e Hp'; apply Hor; now right).
    pose proof (torre_spec v itens p (enumerate itens) [] eq_refl) as Ht.
    cbn [filter map] in Ht. unfold soma_Q in Ht. cbn [fold_left] in Ht.
    rewrite Ht. unfold itens_da_palete.
    rewrite <- !app_assoc. reflexivity.
Qed.

Lemma criar_visualizacao_3d_spec (itens : list Item) (v : Valuation)
    (cfg : PalletsConfig) :
  (forall p e, Z.of_nat p < quantidade cfg -> In e (enumerate itens) ->
     v (X (fst e) p) = true -> orientacao v (fst e) <> None)%Z ->
  criar_visualizacao_3d itens v cfg = Returned (spec_layout v itens cfg).
Proof.
  intros Hor. unfold criar_visualizacao_3d, spec_layout.
  rewrite laco_paletes; [reflexivity|].
  intros p e Hp. apply Hor. now apply In_range.
Qed.

Lemma orientacao_defined (itens : list Item) (cfg : PalletsConfig)
    (v : Valuation) (i : nat) (it : Item) :
  nth_error itens i = Some it ->
  model_holds v (otimizar_model itens cfg) = true ->
  orientacao v i <> None.
Proof.
  intros Hi Hsat. rewrite model_holds_iff in Hsat.
  destruct (o it) eqn:Ho.
  - assert (Hin : In (LinEq (map (fun k => (1%Z, R i k)) (seq 0 6)) 1)
                     (restricoes_rotacao i it))
      by (unfold restricoes_rotacao; rewrite Ho; now left).
    apply (In_rotacao_constraints itens cfg i it _ Hi) in Hin.
    destruct (exactly_one_of_six v i (Hsat _ Hin)) as [k [_ [_ [_ Hk]]]].
    congruence.
  - assert (Hin : In (LinEq [(1%Z, R i 0%nat)] 1) (restricoes_rotacao i it))
      by (unfold restricoes_rotacao; rewrite Ho; now left).
    apply (In_rotacao_constraints itens cfg i it _ Hi) in Hin.
    pose proof (holds_fixed_one v _ (Hsat _ Hin)) as V0.
    unfold orientacao. cbn [find seq]. rewrite V0. discriminate.
Qed.

Lemma offset_x_injective (p q : nat) : offset_x p == offset_x q -> p = q.
Proof.
  unfold offset_x. intros H.
  apply Qmult_inj_r in H; [|discriminate].
  apply (proj1 (inject_Z_injective _ _)) in H. lia.
Qed.
Local Close Scope Q_scope.

(** C8: the figure is the layout of the specification: pallets in
    ascending order, each with its base followed by one box per item of the
    pallet in ascending item index; a box sits at pallet-local footprint
    origin (0, 0) with [z0] the cursor, which starts at 0 and advances by the
    permuted height of each item of the pallet; pallets differ by their
    offset along x only. *)
Theorem tower_layout (itens : list Item) (v : Valuation)
    (cfg : PalletsConfig) :
  model_holds v (otimizar_model itens cfg) = true ->
  criar_visualizacao_3d itens v cfg = Returned (spec_layout v itens cfg) /\
  (forall p e,
     Z.of_nat p < quantidade cfg -> In e (itens_da_palete v itens p) ->
     let t := caixa (offset_x p) (spec_z0 v itens p (fst e)) (fst e)
                    (dims_orientadas v e) in
     In t (spec_layout v itens cfg) /\
     exists x0, origem_local p t = Some (x0, 0%Q, spec_z0 v itens p (fst e))
                /\ (x0 == 0)%Q) /\
  (forall p, spec_z0 v itens p 0 = 0%Q) /\
  (forall p i it, nth_error itens i = Some it ->
     spec_z0 v itens p (Datatypes.S i) =
     if v (X i p)
     then (spec_z0 v itens p i + altura_orientada v (i, it))%Q
     else spec_z0 v itens p i) /\
  (forall p q, p <> q -> ~ (offset_x p == offset_x q)%Q) /\
  (forall p, exists xs,
     base_palete p = Base p xs [0; 0; 8 # 10; 8 # 10]%Q [0; 0; 0; 0]%Q).
Proof.
  intros Hsat. split; [|split; [|split; [|split; [|split]]]].
  - apply criar_visualizacao_3d_spec. intros p [i it] _ Hin _. cbn [fst].
    apply In_enumerate in Hin.
    exact (orientacao_defined itens cfg v i it Hin Hsat).
  - intros p e Hp He t. split.
    + unfold spec_layout. apply in_flat_map. exists p.
      split; [now apply In_range|]. right.
      apply in_map_iff. exists e. split; [reflexivity | exact He].
    + subst t. destruct (dims_orientadas v e) as [[l' w'] h'].
      cbn [caixa origem_local]. eexists. split; [reflexivity|].
      unfold Qminus. apply Qplus_opp_r.
  - reflexivity.
  - intros p i it Hi. unfold spec_z0.
    assert (He : nth_error (enumerate itens) i = Some (i, it))
      by (apply nth_error_enumerate; auto).
    rewrite (firstn_succ_nth_error _ _ _ He), filter_app.
    cbn [filter fst]. destruct (v (X i p)).
    + rewrite map_app. cbn [map]. now rewrite soma_Q_snoc.
    + now rewrite app_nil_r.
  - intros p q Hpq H. apply Hpq. now apply offset_x_injective.
  - intros p. eexists. reflexivity.
Qed.

Example layout_exemplo :
  criar_visualizacao_3d itens_exemplo valor_exemplo config_exemplo =
  Returned
    [ base_palete 0;
      caixa (offset_x 0) 0%Q 0 (4 # 10, 3 # 10, 5 # 10)%Q;
      caixa (offset_x 0) (0 + (5 # 10))%Q 2 (8 # 10, 6 # 10, 5 # 10)%Q;
      base_palete 1;
      caixa (offset_x 1) 0%Q 1 (6 # 10, 5 # 10, 4 # 10)%Q ].
Proof. reflexivity. Qed.

Lemma tower_layout_witness :
  criar_visualizacao_3d itens_exemplo valor_exemplo config_exemplo
    = Returned (spec_layout valor_exemplo itens_exemplo config_exemplo) /\
  spec_z0 valor_exemplo itens_exemplo 0 2 = (0 + (5 # 10))%Q.
Proof.
  split; [|reflexivity].
  apply (tower_layout itens_exemplo valor_exemplo config_exemplo).
  vm_compute. reflexivity.
Defined.

(** A valuation with no orientation for a loaded item stops the figure. *)
Example layout_sem_orientacao :
  criar_visualizacao_3d itens_exemplo
    (fun a => match a with X 0 0 => true | _ => false end) config_exemplo
  = Raised StopIteration.
Proof. reflexivity. Qed.

(** ** Solutions handed back by [otimizar] *)


(** With a sound solver, the values [otimizar] returns satisfy the model it
    built. *)
Lemma otimizar_solution_holds (solve : Solver) (itens : list Item)
    (d : Dict.pallets_config) (res : Resultado) (v : Valuation) :
  solver_sound solve ->
  outcome (otimizar solve itens d) = Returned res ->
  solver res = Some v ->
  model_holds v (otimizar_model itens (config_inteira d)) = true.
Proof.
  intros Hsound Hout Hv. unfold otimizar in Hout.
  destruct (capacidade_recusada itens d); [discriminate|].
  destruct (solve 30 (otimizar_model itens (config_inteira d)))
    as [st value] eqn:E.
  cbn [outcome] in Hout. inversion Hout; subst res; clear Hout.
  destruct st; cbn [solver] in Hv; try discriminate;
    inversion Hv; subst; eapply Hsound; eauto.
Qed.

(** * Further properties of the code *)

(** ** The variables of the model *)

Lemma nth_error_lt {A : Type} (xs : list A) (i : nat) (a : A) :
  nth_error xs i = Some a -> (i < List.length xs)%nat.
Proof. intros H. apply nth_error_Some. congruence. Qed.

Lemma flat_map_if_singleton {A B : Type} (q : A -> bool) (g : A -> B)
    (xs : list A) :
  flat_map (fun a => if q a then [] else [g a]) xs =
  map g (filter (fun a => negb (q a)) xs).
Proof.
  induction xs as [|a xs IH]; [reflexivity|].
  cbn [flat_map filter]. destruct (q a); cbn [negb map app]; now rewrite IH.
Qed.

Lemma In_variables (itens : list Item) (cfg : PalletsConfig) (a : Var) :
  In a (variables (otimizar_model itens cfg)) <->
  match a with
  | X i p => (i < List.length itens)%nat /\ Z.of_nat p < quantidade cfg
  | R i k => (i < List.length itens)%nat /\ (k < 6)%nat
  | S i j =>
      (i < List.length itens)%nat /\ (j < List.length itens)%nat /\ i <> j
  end.
Proof.
  unfold otimizar_model. cbn [variables]. unfold criar_variaveis.
  rewrite in_flat_map. split.
  - intros [i' [Hi Ha]]. apply in_seq in Hi.
    rewrite flat_map_if_singleton in Ha.
    rewrite !in_app_iff, !in_map_iff in Ha.
    destruct Ha as [[p' [<- Hp]]|[[k' [<- Hk]]|[j' [<- Hj]]]].
    + apply In_range in Hp. split; [lia | exact Hp].
    + apply in_seq in Hk. split; lia.
    + apply filter_In in Hj. destruct Hj as [Hj Hne]. apply in_seq in Hj.
      apply negb_true_iff, Nat.eqb_neq in Hne. repeat split; lia.
  - intros Ha. exists (item_da_variavel a).
    rewrite flat_map_if_singleton, !in_app_iff, !in_map_iff.
    destruct a as [i p|i k|i j]; cbn [item_da_variavel].
    + destruct Ha as [Hi Hp]. split; [apply in_seq; lia|]. left.
      exists p. split; [reflexivity | now apply In_range].
    + destruct Ha as [Hi Hk]. split; [apply in_seq; lia|]. right; left.
      exists k. split; [reflexivity | apply in_seq; lia].
    + destruct Ha as [Hi [Hj Hne]]. split; [apply in_seq; lia|].
      right; right. exists j. split; [reflexivity|]. apply filter_In.
      split; [apply in_seq; lia | now apply negb_true_iff, Nat.eqb_neq].
Qed.

(** X1: every variable that a constraint or the objective of the model
    mentions was created by the variable loops, so no dictionary lookup
    [x[i, p]], [r[i, k]] or [s[i, j]] of the builder can miss its key. *)
Theorem model_mentions_created_variables (itens : list Item)
    (cfg : PalletsConfig) :
  let m := otimizar_model itens cfg in
  (forall c t, In c (constraints m) -> In t (expr_of c) ->
     In (snd t) (variables m)) /\
  (forall t, In t (snd (objective m)) -> In (snd t) (variables m)).
Proof.
  intros m. split.
  - intros c [coef a] Hc Ht. cbn [snd]. apply In_variables.
    apply In_constraints in Hc. destruct Hc as [Hc|[Hc|Hc]].
    + apply In_restricoes_itens in Hc.
      destruct Hc as [i [it [Hi [->|Hc]]]]; apply nth_error_lt in Hi.
      * cbn [expr_of restricao_uma_palete] in Ht. apply in_map_iff in Ht.
        destruct Ht as [p [E Hp]]. inversion E; subst.
        split; [exact Hi | now apply In_range].
      * unfold restricoes_rotacao in Hc. destruct (o it).
        -- destruct Hc as [<-|[]]. cbn [expr_of] in Ht.
           apply in_map_iff in Ht. destruct Ht as [k [E Hk]].
           inversion E; subst. apply in_seq in Hk. split; [exact Hi | lia].
        -- destruct Hc as [<-|Hc].
           ++ destruct Ht as [E|[]]. inversion E; subst. split; [exact Hi|lia].
           ++ apply in_map_iff in Hc. destruct Hc as [k [<- Hk]].
              destruct Ht as [E|[]]. inversion E; subst.
              apply in_seq in Hk. split; [exact Hi | lia].
    + apply In_restricoes_empilhamento in Hc.
      destruct Hc as [i [ii [j [ij [Hi [Hj Hc]]]]]].
      apply In_restricoes_par in Hc. destruct Hc as [-> [Hne _]].
      destruct Ht as [E|[]]. inversion E; subst.
      apply nth_error_lt in Hi. apply nth_error_lt in Hj. auto.
    + apply In_restricoes_capacidade in Hc. destruct Hc as [p [Hp Hc]].
      destruct Hc as [<-|[<-|[]]]; cbn [expr_of] in Ht;
        apply In_item_terms in Ht; destruct Ht as [i [it [Hi [_ ->]]]];
        apply In_enumerate, nth_error_lt in Hi; auto.
  - intros [coef a] Ht. cbn [snd]. apply In_variables.
    cbn [objective otimizar_model snd] in Ht. unfold objetivo in Ht.
    apply in_flat_map in Ht. destruct Ht as [[i it] [Hi Ht]].
    apply in_map_iff in Ht. destruct Ht as [p [E Hp]]. inversion E; subst.
    apply In_enumerate, nth_error_lt in Hi. split; [exact Hi|].
    now apply In_range.
Qed.

Lemma NoDup_map_injective {A B : Type} (g : A -> B) (xs : list A) :
  (forall a b, g a = g b -> a = b) -> NoDup xs -> NoDup (map g xs).
Proof.
  intros Hinj. induction 1 as [|a xs Hn Hd IH]; cbn [map]; constructor; auto.
  intros Hin. apply in_map_iff in Hin. destruct Hin as [b [E Hb]].
  apply Hinj in E. now subst.
Qed.

Lemma NoDup_flat_map_key {A B : Type} (g : A -> list B) (key : B -> A)
    (xs : list A) :
  NoDup xs ->
  (forall a b, In b (g a) -> key b = a) ->
  (forall a, In a xs -> NoDup (g a)) ->
  NoDup (flat_map g xs).
Proof.
  intros Hd Hkey. induction Hd as [|a xs Hn Hd IH]; intros Hg;
    cbn [flat_map]; [constructor|].
  apply NoDup_app.
  - apply Hg. now left.
  - apply IH. intros a' Ha'. apply Hg. now right.
  - intros b Hb Hb'. apply in_flat_map in Hb'. destruct Hb' as [a' [Ha' Hb']].
    apply Hkey in Hb. apply Hkey in Hb'. congruence.
Qed.

Lemma filter_flat_map {A B : Type} (q : B -> bool) (g : A -> list B)
    (xs : list A) :
  filter q (flat_map g xs) = flat_map (fun a => filter q (g a)) xs.
Proof.
  induction xs as [|a xs IH]; [reflexivity|].
  cbn [flat_map]. now rewrite filter_app, IH.
Qed.

Lemma filter_map_all {A B : Type} (q : B -> bool) (g : A -> B) (xs : list A) :
  (forall a, q (g a) = true) -> filter q (map g xs) = map g xs.
Proof.
  intros Hq. induction xs as [|a xs IH]; [reflexivity|].
  cbn [map filter]. now rewrite Hq, IH.
Qed.

Lemma filter_map_none {A B : Type} (q : B -> bool) (g : A -> B) (xs : list A) :
  (forall a, q (g a) = false) -> filter q (map g xs) = [].
Proof.
  intros Hq. induction xs as [|a xs IH]; [reflexivity|].
  cbn [map filter]. now rewrite Hq, IH.
Qed.

Lemma length_flat_map_constant {A B : Type} (g : A -> list B) (c : nat)
    (xs : list A) :
  (forall a, In a xs -> List.length (g a) = c) ->
  List.length (flat_map g xs) = (List.length xs * c)%nat.
Proof.
  induction xs as [|a xs IH]; intros Hc; [reflexivity|].
  cbn [flat_map List.length].
  rewrite length_app, IH, (Hc a) by auto using in_eq, in_cons.
  lia.
Qed.

Lemma length_others (i s k : nat) :
  (List.length (filter (fun j => negb (Nat.eqb i j)) (seq s k))
   + (if Nat.leb s i && Nat.ltb i (s + k) then 1 else 0) = k)%nat.
Proof.
  revert s. induction k as [|k IH]; intros s.
  - cbn [seq filter List.length].
    destruct (Nat.leb_spec s i), (Nat.ltb_spec i (s + 0)); cbn; lia.
  - cbn [seq filter]. specialize (IH (Datatypes.S s)).
    destruct (Nat.eqb i s) eqn:E;
      [apply Nat.eqb_eq in E | apply Nat.eqb_neq in E];
      cbn [negb List.length];
      destruct (Nat.leb_spec (Datatypes.S s) i),
               (Nat.ltb_spec i (Datatypes.S s + k)),
               (Nat.leb_spec s i),
               (Nat.ltb_spec i (s + Datatypes.S k));
      cbn [andb] in *; lia.
Qed.

(** X2: the model has one assignment variable per item and pallet, six
    orientation variables per item and one stacking variable per ordered pair
    of distinct items, each created once: [n * p + 6 * n + n * (n - 1)]
    variables in all. *)
Theorem model_variable_count (itens : list Item) (cfg : PalletsConfig) :
  let m := otimizar_model itens cfg in
  let n := List.length itens in
  let p := Z.to_nat (quantidade cfg) in
  NoDup (variables m) /\
  conta_variaveis is_X m = (n * p)%nat /\
  conta_variaveis is_R m = (n * 6)%nat /\
  conta_variaveis is_S m = (n * (n - 1))%nat /\
  List.length (variables m) = (n * (p + 6 + (n - 1)))%nat.
Proof.
  intros m n p. subst m. unfold conta_variaveis, otimizar_model.
  cbn [variables]. unfold criar_variaveis. fold n.
  assert (Hlen : forall i, In i (seq 0 n) ->
            List.length (filter (fun j => negb (Nat.eqb i j)) (seq 0 n))
            = (n - 1)%nat).
  { intros i Hi. apply in_seq in Hi. pose proof (length_others i 0 n) as H.
    destruct (Nat.leb_spec 0 i), (Nat.ltb_spec i (0 + n));
      cbn [andb] in H; lia. }
  split; [|split; [|split; [|split]]].
  - apply (NoDup_flat_map_key _ item_da_variavel); [apply seq_NoDup| |].
    + intros i b Hb. rewrite flat_map_if_singleton in Hb.
      rewrite !in_app_iff, !in_map_iff in Hb.
      destruct Hb as [[? [<- _]]|[[? [<- _]]|[? [<- _]]]]; reflexivity.
    + intros i _. rewrite flat_map_if_singleton.
      apply NoDup_app; [|apply NoDup_app|].
      * apply NoDup_map_injective; [congruence | apply NoDup_range].
      * apply NoDup_map_injective; [congruence | apply seq_NoDup].
      * apply NoDup_map_injective; [congruence|].
        apply NoDup_filter, seq_NoDup.
      * intros a Ha Hb. apply in_map_iff in Ha. destruct Ha as [? [<- _]].
        apply in_map_iff in Hb. destruct Hb as [? [E _]]. discriminate.
      * intros a Ha Hb. apply in_map_iff in Ha. destruct Ha as [? [<- _]].
        apply in_app_iff in Hb. rewrite !in_map_iff in Hb.
        destruct Hb as [[? [E _]]|[? [E _]]]; discriminate.
  - rewrite filter_flat_map.
    rewrite (length_flat_map_constant _ p), length_seq; [reflexivity|].
    intros i _. rewrite flat_map_if_singleton, !filter_app.
    rewrite filter_map_all, !filter_map_none by reflexivity.
    rewrite !app_nil_r, length_map. unfold range. apply length_seq.
  - rewrite filter_flat_map.
    rewrite (length_flat_map_constant _ 6), length_seq; [reflexivity|].
    intros i _. rewrite flat_map_if_singleton, !filter_app.
    rewrite (filter_map_all is_R (R i)), !filter_map_none by reflexivity.
    rewrite app_nil_r. reflexivity.
  - rewrite filter_flat_map.
    rewrite (length_flat_map_constant _ (n - 1)), length_seq; [reflexivity|].
    intros i Hi. rewrite flat_map_if_singleton, !filter_app.
    rewrite (filter_map_all is_S (S i)), !filter_map_none by reflexivity.
    cbn [app]. rewrite length_map. now apply Hlen.
  - rewrite (length_flat_map_constant _ (p + 6 + (n - 1))), length_seq;
      [reflexivity|].
    intros i Hi. rewrite flat_map_if_singleton, !length_app, !length_map.
    rewrite (Hlen i Hi). unfold range. rewrite !length_seq. lia.
Qed.

(** ** Feasibility of the model *)

Lemma soma_Z_nonneg (zs : list Z) :
  (forall z, In z zs -> 0 <= z) -> 0 <= soma_Z zs.
Proof.
  induction zs as [|z zs IH]; intros Hz; [simpl; lia|].
  rewrite soma_Z_cons. pose proof (Hz z (or_introl eq_refl)).
  assert (0 <= soma_Z zs) by (apply IH; intros; apply Hz; now right). lia.
Qed.

Lemma eval_only_false (v : Valuation) (e : LinExpr) :
  (forall t, In t e -> v (snd t) = false) -> eval v e = 0.
Proof.
  induction e as [|t e IH]; intros Hf; [reflexivity|].
  rewrite eval_cons, IH by (intros; apply Hf; now right).
  rewrite (Hf t (or_introl eq_refl)). simpl. lia.
Qed.

Lemma holds_vazio_rotacao (i : nat) (it : Item) (c : Constraint) :
  In c (restricoes_rotacao i it) -> holds valor_vazio c = true.
Proof.
  unfold restricoes_rotacao. destruct (o it); cbn [In map seq]; intros Hc.
  - destruct Hc as [<-|[]]. reflexivity.
  - repeat (destruct Hc as [<-|Hc]; [reflexivity|]). destruct Hc.
Qed.

Lemma holds_vazio_par (i : nat) (ii : Item) (j : nat) (ij : Item)
    (c : Constraint) :
  In c (restricoes_par i ii j ij) -> holds valor_vazio c = true.
Proof.
  intros Hc. apply In_restricoes_par in Hc. destruct Hc as [-> _]. reflexivity.
Qed.

Lemma eval_vazio_item_terms (wt : Item -> Z) (p : nat)
    (es : list (nat * Item)) :
  eval valor_vazio (map (fun '(i, it) => (wt it, X i p)) es) = 0.
Proof.
  apply eval_only_false. intros [c a] Ht. apply In_item_terms in Ht.
  destruct Ht as [i [it [_ [_ ->]]]]. reflexivity.
Qed.

Lemma model_holds_vazio (itens : list Item) (cfg : PalletsConfig) :
  model_holds valor_vazio (otimizar_model itens cfg) = true <->
  quantidade cfg < 1 \/
  (0 <= capacidade_massa cfg /\ 0 <= capacidade_volume cfg).
Proof.
  rewrite model_holds_iff. split.
  - intros Hsat. destruct (Z_lt_le_dec (quantidade cfg) 1) as [Hq|Hq];
      [now left | right].
    assert (Hc : forall c, In c (restricoes_palete itens cfg 0) ->
                           holds valor_vazio c = true).
    { intros c Hc. apply Hsat, In_constraints. right; right.
      apply In_restricoes_capacidade. exists 0%nat. split; [lia | exact Hc]. }
    split.
    + specialize (Hc _ (or_introl eq_refl)). cbn [holds] in Hc.
      rewrite eval_vazio_item_terms in Hc. now apply Z.leb_le.
    + specialize (Hc _ (or_intror (or_introl eq_refl))). cbn [holds] in Hc.
      rewrite eval_vazio_item_terms in Hc. now apply Z.leb_le.
  - intros Hcfg c Hc. apply In_constraints in Hc. destruct Hc as [Hc|[Hc|Hc]].
    + apply In_restricoes_itens in Hc. destruct Hc as [i [it [_ [->|Hc]]]].
      * cbn [holds restricao_uma_palete].
        rewrite eval_only_false; [reflexivity|].
        intros t Ht. apply in_map_iff in Ht. destruct Ht as [p [<- _]].
        reflexivity.
      * now apply holds_vazio_rotacao in Hc.
    + apply In_restricoes_empilhamento in Hc.
      destruct Hc as [i [ii [j [ij [_ [_ Hc]]]]]].
      now apply holds_vazio_par in Hc.
    + apply In_restricoes_capacidade in Hc. destruct Hc as [p [Hp Hc]].
      destruct Hcfg as [Hq|[Hm Hv]]; [lia|].
      destruct Hc as [<-|[<-|[]]]; cbn [holds];
        rewrite eval_vazio_item_terms; now apply Z.leb_le.
Qed.

Lemma peso_palete_nonneg (itens : list Item) (v : Valuation) (p : nat) :
  (forall it, In it itens -> 0 <= mass it) -> 0 <= peso_palete v itens p.
Proof.
  intros Hn. apply soma_Z_nonneg. intros z Hz. apply in_map_iff in Hz.
  destruct Hz as [[i it] [<- He]]. apply filter_In in He.
  destruct He as [He _]. apply In_enumerate, nth_error_In in He. now apply Hn.
Qed.

Lemma vol_palete_nonneg (itens : list Item) (v : Valuation) (p : nat) :
  (forall it, In it itens -> 0 <= vol it) -> 0 <= vol_palete v itens p.
Proof.
  intros Hn. apply soma_Z_nonneg. intros z Hz. apply in_map_iff in Hz.
  destruct Hz as [[i it] [<- He]]. apply filter_In in He.
  destruct He as [He _]. apply In_enumerate, nth_error_In in He. now apply Hn.
Qed.

Lemma capacidade_holds (itens : list Item) (cfg : PalletsConfig)
    (v : Valuation) (p : nat) :
  Z.of_nat p < quantidade cfg ->
  model_holds v (otimizar_model itens cfg) = true ->
  peso_palete v itens p <= capacidade_massa cfg /\
  vol_palete v itens p <= capacidade_volume cfg.
Proof.
  intros Hp Hsat. rewrite model_holds_iff in Hsat.
  assert (Hc : forall c, In c (restricoes_palete itens cfg p) ->
                         holds v c = true).
  { intros c Hc. apply Hsat, In_constraints. right; right.
    apply In_restricoes_capacidade. now exists p. }
  pose proof (Hc _ (or_introl eq_refl)) as H1.
  pose proof (Hc _ (or_intror (or_introl eq_refl))) as H2.
  cbn [holds] in H1, H2. apply Z.leb_le in H1. apply Z.leb_le in H2.
  rewrite (eval_pallet_terms v mass) in H1.
  rewrite (eval_pallet_terms v vol) in H2. auto.
Qed.

(** X3: the model can be satisfied exactly when there is no pallet or both
    capacities are non-negative: loading nothing (every item in its original
    orientation, nothing stacked) then satisfies it, and with a pallet and a
    negative capacity no valuation does, items having non-negative mass and
    volume. *)
Theorem model_feasibility (itens : list Item) (cfg : PalletsConfig) :
  (forall it, In it itens -> 0 <= mass it /\ 0 <= vol it) ->
  let m := otimizar_model itens cfg in
  let relaxed := quantidade cfg < 1 \/
                 (0 <= capacidade_massa cfg /\ 0 <= capacidade_volume cfg) in
  (model_holds valor_vazio m = true <-> relaxed) /\
  ((exists v, model_holds v m = true) <-> relaxed).
Proof.
  intros Hn m relaxed. split; [apply model_holds_vazio|]. split.
  - intros [v Hsat]. subst relaxed.
    destruct (Z_lt_le_dec (quantidade cfg) 1) as [Hq|Hq]; [now left | right].
    destruct (capacidade_holds itens cfg v 0 ltac:(lia) Hsat) as [Hm Hv].
    pose proof (peso_palete_nonneg itens v 0 (fun it H => proj1 (Hn it H))).
    pose proof (vol_palete_nonneg itens v 0 (fun it H => proj2 (Hn it H))).
    lia.
  - intros Hr. exists valor_vazio. now apply model_holds_vazio.
Qed.

Lemma model_feasibility_witness :
  model_holds valor_vazio (otimizar_model itens_exemplo config_exemplo) = true
  /\ ~ (exists v, model_holds v
          (otimizar_model itens_exemplo (mkConfig 1 (-1) 10 "x"%string))
        = true).
Proof.
  assert (Hn : forall it, In it itens_exemplo -> 0 <= mass it /\ 0 <= vol it).
  { intros it [<-|[<-|[<-|[]]]]; split; discriminate. }
  split.
  - apply (model_feasibility itens_exemplo config_exemplo Hn).
    right. split; discriminate.
  - intros Hex.
    apply (model_feasibility itens_exemplo (mkConfig 1 (-1) 10 "x"%string) Hn)
      in Hex.
    cbn in Hex. lia.
Defined.

(** ** Stacking variables are tied to nothing else *)

Lemma constraint_mentions_S (itens : list Item) (cfg : PalletsConfig)
    (c : Constraint) (coef : Z) (a b : nat) :
  In c (constraints (otimizar_model itens cfg)) ->
  In (coef, S a b) (expr_of c) ->
  exists it_a it_b, nth_error itens a = Some it_a /\
    nth_error itens b = Some it_b /\
    (f it_b = true \/ mass it_a > mass it_b).
Proof.
  intros Hc Hin. apply In_constraints in Hc. destruct Hc as [Hc|[Hc|Hc]].
  - apply In_restricoes_itens in Hc. destruct Hc as [i [it [_ [->|Hc]]]].
    + cbn [expr_of restricao_uma_palete] in Hin. apply in_map_iff in Hin.
      destruct Hin as [p [E _]]. discriminate.
    + now apply (no_S_in_restricoes_rotacao _ _ _ coef a b) in Hc.
  - apply In_restricoes_empilhamento in Hc.
    destruct Hc as [a' [ia [b' [ib [Ha [Hb Hc]]]]]].
    apply In_restricoes_par in Hc. destruct Hc as [-> [_ Hcond]].
    destruct Hin as [E|[]]. inversion E; subst. now exists ia, ib.
  - apply In_restricoes_capacidade in Hc. destruct Hc as [p [_ Hc]].
    destruct Hc as [<-|[<-|[]]]; cbn [expr_of] in Hin;
      now apply no_S_in_item_terms in Hin.
Qed.

Lemma eval_empilhar (v : Valuation) (i j : nat) (b : bool) (e : LinExpr) :
  (forall coef, ~ In (coef, S i j) e) ->
  eval (empilhar i j b v) e = eval v e.
Proof.
  induction e as [|[c a] e IH]; intros Hno; [reflexivity|].
  rewrite !eval_cons, IH by (intros coef H; apply (Hno coef); now right).
  cbn [fst snd]. destruct a as [i' p'|i' k'|i' j']; cbn [empilhar];
    try reflexivity.
  destruct (Nat.eqb_spec i' i) as [->|Hi]; [|reflexivity].
  destruct (Nat.eqb_spec j' j) as [->|Hj]; [|reflexivity].
  elim (Hno c). now left.
Qed.

(** X4: a stacking variable [s[i, j]] whose pair is not excluded ([j] not
    fragile and [i] no heavier than [j]) is left free by the model: a
    satisfying valuation stays satisfying, with the same objective value and
    the same assignment and orientation, whichever value [s[i, j]] is given,
    whether or not the two items share a pallet or are loaded at all. *)
Theorem stacking_is_unconstrained (itens : list Item) (cfg : PalletsConfig)
    (i j : nat) (it_i it_j : Item) (v : Valuation) (b : bool) :
  nth_error itens i = Some it_i ->
  nth_error itens j = Some it_j ->
  f it_j = false ->
  mass it_i <= mass it_j ->
  model_holds v (otimizar_model itens cfg) = true ->
  let m := otimizar_model itens cfg in
  model_holds (empilhar i j b v) m = true /\
  empilhar i j b v (S i j) = b /\
  eval (empilhar i j b v) (snd (objective m)) = eval v (snd (objective m)) /\
  (forall a, is_S a = false -> empilhar i j b v a = v a).
Proof.
  intros Hi Hj Hf Hm Hsat m.
  assert (Hno : forall c coef, In c (constraints m) ->
                  ~ In (coef, S i j) (expr_of c)).
  { intros c coef Hc Hin.
    destruct (constraint_mentions_S itens cfg c coef i j Hc Hin)
      as [ia [ib [Ha [Hb Hcond]]]].
    rewrite Hi in Ha. rewrite Hj in Hb.
    injection Ha as <-. injection Hb as <-.
    destruct Hcond as [H|H]; [congruence | lia]. }
  split; [|split; [|split]].
  - rewrite model_holds_iff in Hsat |- *. intros c Hc.
    specialize (Hsat c Hc). destruct c as [e k|e k]; cbn [holds] in *;
      rewrite eval_empilhar; auto; intros coef; apply (Hno _ coef Hc).
  - cbn [empilhar]. now rewrite !Nat.eqb_refl.
  - apply eval_empilhar. intros coef Hin.
    cbn [objective m otimizar_model snd] in Hin.
    unfold objetivo in Hin. apply in_flat_map in Hin.
    destruct Hin as [[i' it'] [_ Hin]]. apply in_map_iff in Hin.
    destruct Hin as [p [E _]]. discriminate.
  - intros a Ha. destruct a; [reflexivity | reflexivity | discriminate].
Qed.

Lemma stacking_is_unconstrained_witness :
  valor_exemplo (X 1 1%nat) = true /\ valor_exemplo (X 2 0%nat) = true /\
  model_holds (empilhar 1 2 true valor_exemplo)
              (otimizar_model itens_exemplo config_exemplo) = true.
Proof.
  split; [reflexivity|]. split; [reflexivity|].
  apply (stacking_is_unconstrained itens_exemplo config_exemplo 1 2
           item_fragil item_pesado valor_exemplo true
           eq_refl eq_refl eq_refl).
  - discriminate.
  - vm_compute. reflexivity.
Defined.

(** ** The objective and the loaded volume *)

Lemma soma_Z_map_le {A : Type} (g k : A -> Z) (xs : list A) :
  (forall a, In a xs -> g a <= k a) ->
  soma_Z (map g xs) <= soma_Z (map k xs).
Proof.
  induction xs as [|a xs IH]; intros Hle; [simpl; lia|].
  cbn [map]. rewrite !soma_Z_cons. pose proof (Hle a (or_introl eq_refl)).
  assert (soma_Z (map g xs) <= soma_Z (map k xs))
    by (apply IH; intros; apply Hle; now right). lia.
Qed.

Lemma soma_Z_map_scale {A : Type} (c : Z) (g : A -> Z) (xs : list A) :
  soma_Z (map (fun a => c * g a) xs) = c * soma_Z (map g xs).
Proof.
  induction xs as [|a xs IH]; [simpl; lia|].
  cbn [map]. rewrite !soma_Z_cons, IH. lia.
Qed.

Lemma soma_filter_weights {A : Type} (q : A -> bool) (wt : A -> Z)
    (xs : list A) :
  soma_Z (map wt (filter q xs)) = soma_Z (map (fun a => Z.b2z (q a) * wt a) xs).
Proof.
  induction xs as [|a xs IH]; [reflexivity|].
  cbn [filter map]. rewrite soma_Z_cons, <- IH.
  destruct (q a); cbn [map Z.b2z]; rewrite ?soma_Z_cons; lia.
Qed.

(** The total, over all pallets, of a weight of the entries assigned to
    each, as a sum over entries and pallets. *)
Lemma soma_paletes_weights (v : Valuation) (itens : list Item)
    (wt : nat * Item -> Z) (ps : list nat) :
  soma_Z (map (fun p => soma_Z (map wt (itens_da_palete v itens p))) ps) =
  soma_Z (map (fun e =>
            soma_Z (map (fun p => Z.b2z (v (X (fst e) p)) * wt e) ps))
          (enumerate itens)).
Proof.
  unfold itens_da_palete.
  rewrite (map_ext _ (fun p => soma_Z (map (fun e =>
             Z.b2z (v (X (fst e) p)) * wt e) (enumerate itens))))
    by (intros p; apply soma_filter_weights).
  apply (soma_Z_swap (fun e p => Z.b2z (v (X (fst e) p)) * wt e)).
Qed.

Lemma eval_objetivo_soma (itens : list Item) (cfg : PalletsConfig)
    (v : Valuation) :
  eval v (objetivo itens cfg) =
  soma_Z (map (fun p =>
      soma_Z (map (fun e => vol (snd e) * get_prioridade (snd e))
                  (itens_da_palete v itens p)))
    (range (quantidade cfg))).
Proof.
  rewrite soma_paletes_weights. unfold objetivo. rewrite eval_flat_map.
  f_equal. apply map_ext. intros [i it]. cbn [fst snd].
  apply eval_objetivo_terms.
Qed.

(** X5: for every valuation the objective value is the priority-weighted
    volume of the loaded items; with priorities between 1 and 5 and
    non-negative volumes it lies between the loaded volume of the metrics and
    five times that volume, and it is the loaded volume itself when every
    priority is 1 or absent. *)
Theorem objective_and_loaded_volume (itens : list Item) (cfg : PalletsConfig)
    (v : Valuation) :
  let obj := eval v (snd (objective (otimizar_model itens cfg))) in
  ((forall it, In it itens -> 0 <= vol it /\ 1 <= get_prioridade it <= 5) ->
     volume_loaded v itens cfg <= obj <= 5 * volume_loaded v itens cfg) /\
  ((forall it, In it itens -> get_prioridade it = 1) ->
     obj = volume_loaded v itens cfg).
Proof.
  intros obj. subst obj. cbn [objective otimizar_model snd].
  rewrite eval_objetivo_soma. unfold volume_loaded, vol_palete.
  assert (Hin : forall p e, In e (itens_da_palete v itens p) ->
                  In (snd e) itens).
  { intros p [i it] He. apply filter_In in He. destruct He as [He _].
    apply In_enumerate, nth_error_In in He. exact He. }
  split.
  - intros Hb. split.
    + apply soma_Z_map_le. intros p _. apply soma_Z_map_le. intros e He.
      destruct (Hb _ (Hin p e He)). nia.
    + rewrite <- soma_Z_map_scale. apply soma_Z_map_le. intros p _.
      rewrite <- soma_Z_map_scale. apply soma_Z_map_le. intros e He.
      destruct (Hb _ (Hin p e He)). nia.
  - intros H1. f_equal. apply map_ext. intros p. f_equal.
    apply map_ext_in. intros e He. rewrite (H1 _ (Hin p e He)). lia.
Qed.

Lemma objective_and_loaded_volume_witness :
  volume_loaded valor_exemplo itens_exemplo config_exemplo = 420000 /\
  420000 <= eval valor_exemplo
              (snd (objective (otimizar_model itens_exemplo config_exemplo)))
         <= 5 * 420000.
Proof.
  split; [reflexivity|].
  apply (objective_and_loaded_volume itens_exemplo config_exemplo
           valor_exemplo).
  intros it [<-|[<-|[<-|[]]]]; vm_compute; repeat split; discriminate.
Defined.

(** ** More pallets and larger capacities *)

Lemma eval_ext_in (v1 v2 : Valuation) (e : LinExpr) :
  (forall t, In t e -> v1 (snd t) = v2 (snd t)) -> eval v1 e = eval v2 e.
Proof.
  induction e as [|t e IH]; intros Hext; [reflexivity|].
  rewrite !eval_cons, IH by (intros; apply Hext; now right).
  now rewrite (Hext t (or_introl eq_refl)).
Qed.

Lemma range_split (k k' : Z) :
  k <= k' ->
  range k' = range k ++ seq (Z.to_nat k) (Z.to_nat k' - Z.to_nat k).
Proof.
  intros Hk. unfold range.
  replace (Z.to_nat k') with (Z.to_nat k + (Z.to_nat k' - Z.to_nat k))%nat
    at 1 by lia.
  now rewrite seq_app.
Qed.

Lemma eval_restringir_item (v : Valuation) (k k' c : Z) (i : nat) :
  k <= k' ->
  eval (restringir k v) (map (fun p => (c, X i p)) (range k')) =
  eval v (map (fun p => (c, X i p)) (range k)).
Proof.
  intros Hk. rewrite (range_split k k' Hk), map_app, eval_app.
  rewrite (eval_only_false (restringir k v) (map _ (seq _ _))).
  - rewrite Z.add_0_r. apply eval_ext_in. intros t Ht.
    apply in_map_iff in Ht. destruct Ht as [p [<- Hp]].
    apply In_range in Hp. cbn [snd restringir].
    destruct (Z.ltb_spec (Z.of_nat p) k); [reflexivity | lia].
  - intros t Ht. apply in_map_iff in Ht. destruct Ht as [p [<- Hp]].
    apply in_seq in Hp. cbn [snd restringir].
    destruct (Z.ltb_spec (Z.of_nat p) k); [lia | reflexivity].
Qed.

Lemma eval_restringir_palete (v : Valuation) (k : Z) (wt : Item -> Z)
    (p : nat) (es : list (nat * Item)) :
  eval (restringir k v) (map (fun '(i, it) => (wt it, X i p)) es) =
  if Z.of_nat p <? k
  then eval v (map (fun '(i, it) => (wt it, X i p)) es)
  else 0.
Proof.
  destruct (Z.of_nat p <? k) eqn:E.
  - apply eval_ext_in. intros [c a] Ht. apply In_item_terms in Ht.
    destruct Ht as [i [it [_ [_ ->]]]]. cbn [snd restringir]. now rewrite E.
  - apply eval_only_false. intros [c a] Ht. apply In_item_terms in Ht.
    destruct Ht as [i [it [_ [_ ->]]]]. cbn [snd restringir]. now rewrite E.
Qed.

Lemma rotacao_without_X (i : nat) (it : Item) (c : Constraint) :
  In c (restricoes_rotacao i it) ->
  forall t, In t (expr_of c) -> is_X (snd t) = false.
Proof.
  unfold restricoes_rotacao. intros Hc t Ht. destruct (o it).
  - destruct Hc as [<-|[]]. cbn [expr_of] in Ht. apply in_map_iff in Ht.
    destruct Ht as [k [<- _]]. reflexivity.
  - destruct Hc as [<-|Hc].
    + destruct Ht as [<-|[]]. reflexivity.
    + apply in_map_iff in Hc. destruct Hc as [k [<- _]].
      destruct Ht as [<-|[]]. reflexivity.
Qed.

Lemma holds_agree_off_X (v v' : Valuation) (c : Constraint) :
  (forall a, is_X a = false -> v' a = v a) ->
  (forall t, In t (expr_of c) -> is_X (snd t) = false) ->
  holds v' c = holds v c.
Proof.
  intros Hag Hno.
  assert (E : eval v' (expr_of c) = eval v (expr_of c))
    by (apply eval_ext_in; intros t Ht; apply Hag, Hno, Ht).
  destruct c; cbn [holds expr_of] in *; now rewrite E.
Qed.

(** X6: a valuation that satisfies the model of one configuration, kept on
    its pallets, satisfies the model of any configuration with at least as
    many pallets and at least as large, non-negative capacities, with the
    same objective value: relaxing the configuration cannot lower the best
    objective. *)
Theorem relaxing_configuration (itens : list Item) (cfg cfg' : PalletsConfig)
    (v : Valuation) :
  quantidade cfg <= quantidade cfg' ->
  capacidade_massa cfg <= capacidade_massa cfg' ->
  capacidade_volume cfg <= capacidade_volume cfg' ->
  0 <= capacidade_massa cfg' ->
  0 <= capacidade_volume cfg' ->
  model_holds v (otimizar_model itens cfg) = true ->
  let v' := restringir (quantidade cfg) v in
  model_holds v' (otimizar_model itens cfg') = true /\
  eval v' (snd (objective (otimizar_model itens cfg'))) =
  eval v (snd (objective (otimizar_model itens cfg))).
Proof.
  intros Hq Hm Hv Hm0 Hv0 Hsat v'.
  assert (Hag : forall a, is_X a = false -> v' a = v a)
    by (intros [] Ha; try discriminate; reflexivity).
  split.
  - rewrite model_holds_iff in Hsat |- *. intros c Hc.
    apply In_constraints in Hc. destruct Hc as [Hc|[Hc|Hc]].
    + apply In_restricoes_itens in Hc. destruct Hc as [i [it [Hi [->|Hc]]]].
      * cbn [holds restricao_uma_palete]. subst v'.
        rewrite eval_restringir_item by exact Hq.
        apply (Hsat (restricao_uma_palete cfg i)).
        apply In_constraints. left. apply In_restricoes_itens.
        exists i, it. auto.
      * rewrite (holds_agree_off_X v v' c Hag (rotacao_without_X i it c Hc)).
        apply Hsat, In_constraints. left. apply In_restricoes_itens.
        exists i, it. auto.
    + assert (Hno : forall t, In t (expr_of c) -> is_X (snd t) = false).
      { apply In_restricoes_empilhamento in Hc.
        destruct Hc as [i [ii [j [ij [_ [_ Hc]]]]]].
        apply In_restricoes_par in Hc. destruct Hc as [-> _].
        intros t [<-|[]]. reflexivity. }
      rewrite (holds_agree_off_X v v' c Hag Hno).
      apply Hsat, In_constraints. right; left. exact Hc.
    + apply In_restricoes_capacidade in Hc. destruct Hc as [p [Hp Hc]].
      assert (Hold : Z.of_nat p < quantidade cfg ->
                forall c0, In c0 (restricoes_palete itens cfg p) ->
                           holds v c0 = true).
      { intros Hp' c0 Hc0. apply Hsat, In_constraints. right; right.
        apply In_restricoes_capacidade. now exists p. }
      destruct Hc as [<-|[<-|[]]]; cbn [holds]; subst v';
        rewrite eval_restringir_palete; apply Z.leb_le;
        destruct (Z.ltb_spec (Z.of_nat p) (quantidade cfg)) as [Hp'|Hp'];
        try lia.
      * specialize (Hold Hp' _ (or_introl eq_refl)). cbn [holds] in Hold.
        apply Z.leb_le in Hold. lia.
      * specialize (Hold Hp' _ (or_intror (or_introl eq_refl))).
        cbn [holds] in Hold. apply Z.leb_le in Hold. lia.
  - cbn [objective otimizar_model snd]. unfold objetivo.
    rewrite !eval_flat_map. f_equal. apply map_ext. intros [i it].
    subst v'. now apply eval_restringir_item.
Qed.

Lemma relaxing_configuration_witness :
  model_holds (restringir 2 valor_exemplo)
              (otimizar_model itens_exemplo config_maior) = true.
Proof.
  apply (relaxing_configuration itens_exemplo config_exemplo config_maior
           valor_exemplo); try discriminate.
  vm_compute. reflexivity.
Defined.

(** ** [permutacoes] *)

Lemma Permutation_three {A : Type} (x1 x2 x3 a b c : A) :
  Permutation [x1; x2; x3] [a; b; c] ->
  In (x1, x2, x3) (permutacoes a b c).
Proof.
  intros Hp.
  assert (Hx : In x1 [a; b; c]) by (apply (Permutation_in _ Hp); now left).
  destruct Hx as [E|[E|[E|[]]]]; subst x1.
  - apply Permutation_cons_inv, Permutation_length_2_inv in Hp.
    destruct Hp as [E|E]; inversion E; subst; cbn; auto.
  - assert (Hp' : Permutation [b; x2; x3] [b; a; c])
      by (etransitivity; [exact Hp | apply perm_swap]).
    apply Permutation_cons_inv, Permutation_length_2_inv in Hp'.
    destruct Hp' as [E|E]; inversion E; subst; cbn; auto 10.
  - assert (Hp' : Permutation [c; x2; x3] [c; a; b]).
    { etransitivity; [exact Hp|].
      etransitivity; [apply perm_skip, perm_swap | apply perm_swap]. }
    apply Permutation_cons_inv, Permutation_length_2_inv in Hp'.
    destruct Hp' as [E|E]; inversion E; subst; cbn; auto 10.
Qed.

(** X7: [permutacoes] lists exactly the rearrangements of its three
    arguments: six triples, each a permutation of [(l, w, h)], every
    permutation among them, pairwise distinct when the three dimensions are;
    so turning an item never changes the product of its dimensions. *)
Theorem permutacoes_rearrange {A : Type} (a b c : A) :
  List.length (permutacoes a b c) = 6%nat /\
  (forall x y z, In (x, y, z) (permutacoes a b c) <->
                 Permutation [x; y; z] [a; b; c]) /\
  (a <> b -> a <> c -> b <> c -> NoDup (permutacoes a b c)) /\
  (forall (l w h x y z : Q), In (x, y, z) (permutacoes l w h) ->
     (x * y * z == l * w * h)%Q).
Proof.
  split; [reflexivity|]. split; [|split].
  - intros x y z. split; [|apply Permutation_three].
    intros Hin. cbn in Hin.
    destruct Hin as [E|[E|[E|[E|[E|[E|[]]]]]]]; inversion E; subst.
    + reflexivity.
    + apply perm_skip, perm_swap.
    + apply perm_swap.
    + etransitivity; [apply perm_skip, perm_swap | apply perm_swap].
    + etransitivity; [apply perm_swap | apply perm_skip, perm_swap].
    + etransitivity; [apply perm_swap|].
      etransitivity; [apply perm_skip, perm_swap | apply perm_swap].
  - intros Hab Hac Hbc. unfold permutacoes.
    repeat (constructor;
            [cbn; intros H;
             repeat (destruct H as [H|H]; [inversion H; congruence|]);
             exact H|]).
    constructor.
  - intros l w h x y z Hin. cbn in Hin.
    destruct Hin as [E|[E|[E|[E|[E|[E|[]]]]]]]; inversion E; subst; ring.
Qed.

Lemma permutacoes_rearrange_witness :
  NoDup (permutacoes 1 2 3) /\
  In (3, 1, 2) (permutacoes 1 2 3).
Proof.
  split.
  - apply (permutacoes_rearrange 1 2 3); discriminate.
  - apply (permutacoes_rearrange 1 2 3).
    etransitivity; [apply perm_swap | apply perm_skip, perm_swap].
Defined.

(** ** Bounds on the metrics *)

Lemma itens_na_palete_nonneg (v : Valuation) (itens : list Item) (p : nat) :
  0 <= itens_na_palete v itens p.
Proof. unfold itens_na_palete. lia. Qed.

Lemma used_le_loaded (v : Valuation) (itens : list Item) (ps : list nat) :
  Z.of_nat (List.length
              (filter (fun p => itens_na_palete v itens p >? 0) ps))
  <= soma_Z (map (itens_na_palete v itens) ps).
Proof.
  induction ps as [|p ps IH]; [simpl; lia|].
  cbn [filter map]. rewrite soma_Z_cons.
  pose proof (itens_na_palete_nonneg v itens p).
  destruct (itens_na_palete v itens p >? 0) eqn:E; cbn [List.length].
  - rewrite Z.gtb_ltb in E. apply Z.ltb_lt in E. lia.
  - lia.
Qed.

Lemma length_filter_le {A : Type} (q : A -> bool) (xs : list A) :
  (List.length (filter q xs) <= List.length xs)%nat.
Proof.
  induction xs as [|a xs IH]; [simpl; lia|].
  cbn [filter]. destruct (q a); cbn [List.length]; lia.
Qed.

(** X8: the number of used pallets that the metrics report is never
    negative, never more than the configured pallet count and never more
    than the number of items loaded. *)
Theorem used_pallets_bounds (itens : list Item) (v : Valuation)
    (cfg : PalletsConfig) :
  itens <> [] ->
  exists m,
    calcular_metricas itens (Some v) cfg = Returned (cheio m) /\
    0 <= pallets_utilizados m <= Z.max 0 (quantidade cfg) /\
    pallets_utilizados m <= itens_carregados m.
Proof.
  intros Hne. eexists. split; [apply calcular_metricas_some; exact Hne|].
  cbn [pallets_utilizados itens_carregados].
  unfold used_pallets, paletes_usadas, items_loaded. split; [split|].
  - lia.
  - pose proof (length_filter_le
                  (fun p => itens_na_palete v itens p >? 0)
                  (range (quantidade cfg))) as H.
    unfold range in H at 2. rewrite length_seq in H. lia.
  - apply used_le_loaded.
Qed.

Lemma used_pallets_bounds_witness :
  exists m,
    calcular_metricas itens_exemplo (Some valor_exemplo) config_exemplo
      = Returned (cheio m) /\
    0 <= pallets_utilizados m <= Z.max 0 (quantidade config_exemplo) /\
    pallets_utilizados m <= itens_carregados m.
Proof.
  apply (used_pallets_bounds itens_exemplo valor_exemplo config_exemplo).
  discriminate.
Defined.

Lemma loaded_le_available (v : Valuation) (cap : Z) (load : nat -> Z)
    (count : nat -> Z) (ps : list nat) :
  (forall p, In p ps -> load p <= cap) ->
  (forall p, In p ps -> (count p >? 0) = false -> load p = 0) ->
  soma_Z (map load ps)
  <= cap * Z.of_nat (List.length (filter (fun p => count p >? 0) ps)).
Proof.
  induction ps as [|p ps IH]; intros Hcap Hzero; [simpl; lia|].
  cbn [map filter]. rewrite soma_Z_cons.
  assert (IH' : soma_Z (map load ps)
                <= cap * Z.of_nat (List.length
                                     (filter (fun p => count p >? 0) ps))).
  { apply IH; intros; [apply Hcap | apply Hzero]; auto using in_cons. }
  pose proof (Hcap p (or_introl eq_refl)) as Hp.
  destruct (count p >? 0) eqn:E; cbn [List.length].
  - lia.
  - rewrite (Hzero p (or_introl eq_refl) E). lia.
Qed.

Lemma percent_or_zero_bounds (a b : Z) :
  0 <= a <= b ->
  let t := if b >? 0 then (truediv a b * 100)%Q else 0%Q in
  (0 <= t)%Q /\ (t <= 100)%Q.
Proof.
  intros Hab t. subst t. destruct (b >? 0) eqn:E.
  - rewrite Z.gtb_ltb in E. apply Z.ltb_lt in E.
    now apply truediv_percent_bounds.
  - split; discriminate.
Qed.

(** X9: for a valuation that satisfies the model, items having non-negative
    mass and volume, the loaded volume and mass never exceed what the used
    pallets offer, so both utilisation rates lie between 0 and 100. *)
Theorem utilization_rates_bounded (itens : list Item) (v : Valuation)
    (cfg : PalletsConfig) :
  itens <> [] ->
  (forall it, In it itens -> 0 <= mass it /\ 0 <= vol it) ->
  model_holds v (otimizar_model itens cfg) = true ->
  exists m,
    calcular_metricas itens (Some v) cfg = Returned (cheio m) /\
    0 <= volume_loaded v itens cfg
      <= capacidade_volume cfg * pallets_utilizados m /\
    0 <= mass_loaded v itens cfg
      <= capacidade_massa cfg * pallets_utilizados m /\
    (0 <= taxa_utilizacao_volume m)%Q /\
    (taxa_utilizacao_volume m <= 100)%Q /\
    (0 <= taxa_utilizacao_peso m)%Q /\
    (taxa_utilizacao_peso m <= 100)%Q.
Proof.
  intros Hne Hn Hsat. eexists.
  split; [apply calcular_metricas_some; exact Hne|].
  cbn [pallets_utilizados taxa_utilizacao_volume taxa_utilizacao_peso].
  assert (Hv : 0 <= volume_loaded v itens cfg
               <= capacidade_volume cfg * used_pallets v itens cfg).
  { split.
    - apply soma_Z_nonneg. intros z Hz. apply in_map_iff in Hz.
      destruct Hz as [p [<- _]]. apply vol_palete_nonneg.
      intros it Hit. now apply Hn.
    - apply (loaded_le_available v).
      + intros p Hp. apply In_range in Hp.
        now apply (capacidade_holds itens cfg v p Hp Hsat).
      + intros p _ E. now apply palete_vazia in E. }
  assert (Hm : 0 <= mass_loaded v itens cfg
               <= capacidade_massa cfg * used_pallets v itens cfg).
  { split.
    - apply soma_Z_nonneg. intros z Hz. apply in_map_iff in Hz.
      destruct Hz as [p [<- _]]. apply peso_palete_nonneg.
      intros it Hit. now apply Hn.
    - apply (loaded_le_available v).
      + intros p Hp. apply In_range in Hp.
        now apply (capacidade_holds itens cfg v p Hp Hsat).
      + intros p _ E. now apply palete_vazia in E. }
  split; [exact Hv|]. split; [exact Hm|].
  destruct (percent_or_zero_bounds _ _ Hv) as [H1 H2].
  destruct (percent_or_zero_bounds _ _ Hm) as [H3 H4].
  auto.
Qed.

Lemma utilization_rates_bounded_witness :
  exists m,
    calcular_metricas itens_exemplo (Some valor_exemplo) config_exemplo
      = Returned (cheio m) /\
    (taxa_utilizacao_volume m <= 100)%Q /\
    (taxa_utilizacao_peso m <= 100)%Q.
Proof.
  assert (Hne : itens_exemplo <> []) by discriminate.
  assert (Hn : forall it, In it itens_exemplo -> 0 <= mass it /\ 0 <= vol it).
  { intros it [<-|[<-|[<-|[]]]]; split; discriminate. }
  destruct (utilization_rates_bounded itens_exemplo valor_exemplo
              config_exemplo Hne Hn eq_refl)
    as [m [Hm [_ [_ [_ [H2 [_ H4]]]]]]].
  exists m. auto.
Defined.

(** ** When the figure cannot be drawn *)

Lemma laco_itens_raised (v : Valuation) (p : nat) (es : list (nat * Item))
    (err : Erro) :
  fold_left (passo_item v p) es (Raised err) = Raised err.
Proof. induction es as [|e es IH]; [reflexivity | exact IH]. Qed.

Lemma laco_paletes_raised (v : Valuation) (itens : list Item)
    (ps : list nat) (err : Erro) :
  fold_left (passo_palete v itens) ps (Raised err) = Raised err.
Proof. induction ps as [|p ps IH]; [reflexivity | exact IH]. Qed.

Lemma laco_itens_outcome (v : Valuation) (p : nat) (es : list (nat * Item)) :
  forall z fig,
    fold_left (passo_item v p) es (Returned (z, fig)) =
    if existsb (sem_orientacao v p) es
    then Raised StopIteration
    else Returned (cursor_final v p z es, fig ++ torre v p z es).
Proof.
  induction es as [|e es IH]; intros z fig.
  - cbn. now rewrite app_nil_r.
  - cbn [fold_left existsb torre]. unfold sem_orientacao at 1.
    unfold cursor_final. cbn [filter].
    destruct (v (X (fst e) p)) eqn:Hx; cbn [andb].
    + destruct (orientacao v (fst e)) as [k|] eqn:Ho; cbn [orb].
      * rewrite passo_item_assigned by (auto; congruence).
        rewrite IH. destruct (existsb (sem_orientacao v p) es);
          [reflexivity|].
        unfold cursor_final. cbn [map fold_left]. now rewrite <- app_assoc.
      * destruct e as [i it]. cbn [fst] in *. unfold passo_item.
        rewrite Hx, Ho. apply laco_itens_raised.
    + rewrite passo_item_skipped by exact Hx. rewrite IH. reflexivity.
Qed.

Lemma laco_paletes_outcome (v : Valuation) (itens : list Item)
    (ps : list nat) :
  forall fig,
    fold_left (passo_palete v itens) ps (Returned fig) =
    if existsb (fun p => existsb (sem_orientacao v p) (enumerate itens)) ps
    then Raised StopIteration
    else Returned (fig ++
      flat_map (fun p =>
        base_palete p ::
        map (fun e => caixa (offset_x p) (spec_z0 v itens p (fst e)) (fst e)
                            (dims_orientadas v e))
            (itens_da_palete v itens p)) ps).
Proof.
  induction ps as [|p ps IH]; intros fig.
  - cbn. now rewrite app_nil_r.
  - cbn [fold_left existsb flat_map]. unfold passo_palete at 2.
    rewrite laco_itens_outcome.
    destruct (existsb (sem_orientacao v p) (enumerate itens)); cbn [orb].
    + apply laco_paletes_raised.
    + rewrite IH.
      destruct (existsb _ ps); [reflexivity|].
      pose proof (torre_spec v itens p (enumerate itens) [] eq_refl) as Ht.
      cbn [filter map] in Ht. unfold soma_Q in Ht. cbn [fold_left] in Ht.
      rewrite Ht. unfold itens_da_palete. now rewrite <- !app_assoc.
Qed.

(** X10: [criar_visualizacao_3d] stops with [StopIteration] exactly when
    some item loaded on one of the pallets has none of its six orientation
    variables true; otherwise it returns the tower layout.  It raises
    nothing else: the orientation found always indexes [permutacoes]. *)
Theorem figure_fails_without_orientation (itens : list Item) (v : Valuation)
    (cfg : PalletsConfig) :
  criar_visualizacao_3d itens v cfg =
    (if falta_orientacao v itens cfg
     then Raised StopIteration
     else Returned (spec_layout v itens cfg)) /\
  (falta_orientacao v itens cfg = true <->
   exists p i it, Z.of_nat p < quantidade cfg /\
     nth_error itens i = Some it /\ v (X i p) = true /\
     forall k, (k < 6)%nat -> v (R i k) = false).
Proof.
  split.
  - unfold criar_visualizacao_3d, falta_orientacao, spec_layout.
    rewrite laco_paletes_outcome. reflexivity.
  - unfold falta_orientacao. rewrite existsb_exists. split.
    + intros [p [Hp He]]. apply In_range in Hp.
      apply existsb_exists in He. destruct He as [[i it] [Hin Hs]].
      apply In_enumerate in Hin. unfold sem_orientacao in Hs.
      cbn [fst] in Hs. apply andb_prop in Hs. destruct Hs as [Hx Ho].
      exists p, i, it. repeat split; auto.
      intros k Hk. destruct (orientacao v i) eqn:E; [discriminate|].
      unfold orientacao in E.
      apply (find_none _ _ E k). apply in_seq. lia.
    + intros [p [i [it [Hp [Hi [Hx Hr]]]]]]. exists p.
      split; [now apply In_range|]. apply existsb_exists.
      exists (i, it). split; [now apply In_enumerate|].
      unfold sem_orientacao. cbn [fst]. rewrite Hx. cbn [andb].
      destruct (orientacao v i) as [k|] eqn:E; [|reflexivity].
      destruct (orientacao_some v i k E) as [Hk Hv].
      rewrite (Hr k Hk) in Hv. discriminate.
Qed.

Example figure_fails_exemplo :
  criar_visualizacao_3d itens_exemplo valor_sem_orientacao config_exemplo
    = Raised StopIteration /\
  falta_orientacao valor_exemplo itens_exemplo config_exemplo = false.
Proof. split; reflexivity. Qed.

(** ** Boxes of a pallet do not overlap in height *)

Local Open Scope Q_scope.

Lemma altura_orientada_in (v : Valuation) (e : nat * Item) :
  In (altura_orientada v e) [l (snd e); w (snd e); h (snd e)].
Proof.
  unfold altura_orientada, dims_orientadas.
  destruct (orientacao v (fst e)) as [k|]; [|cbn; auto].
  do 6 (destruct k as [|k]; [cbn; auto|]). destruct k; cbn; auto.
Qed.

Lemma soma_Q_step_le (qs : list Q) (q : Q) :
  0 <= q -> soma_Q qs <= soma_Q (qs ++ [q]).
Proof.
  intros Hq. rewrite soma_Q_snoc.
  setoid_replace (soma_Q qs) with (soma_Q qs + 0) at 1 by ring.
  apply Qplus_le_compat; [apply Qle_refl | exact Hq].
Qed.

Lemma spec_z0_step (v : Valuation) (itens : list Item) (p k : nat) :
  (forall it, In it itens -> 0 <= l it /\ 0 <= w it /\ 0 <= h it) ->
  spec_z0 v itens p k <= spec_z0 v itens p (Datatypes.S k).
Proof.
  intros Hn. unfold spec_z0.
  destruct (nth_error (enumerate itens) k) as [e|] eqn:E.
  - rewrite (firstn_succ_nth_error _ _ _ E), filter_app. cbn [filter].
    destruct (v (X (fst e) p)).
    + rewrite map_app. cbn [map]. apply soma_Q_step_le.
      assert (Hin : In (snd e) itens).
      { destruct e as [i it]. apply nth_error_enumerate in E.
        destruct E as [_ E]. apply nth_error_In in E. exact E. }
      destruct (Hn _ Hin) as [Hl [Hw Hh]].
      pose proof (altura_orientada_in v e) as Ha.
      destruct Ha as [<-|[<-|[<-|[]]]]; assumption.
    + rewrite app_nil_r. apply Qle_refl.
  - apply nth_error_None in E.
    rewrite !firstn_all2 by lia. apply Qle_refl.
Qed.

Lemma spec_z0_monotone (v : Valuation) (itens : list Item) (p i j : nat) :
  (forall it, In it itens -> 0 <= l it /\ 0 <= w it /\ 0 <= h it) ->
  (i <= j)%nat -> spec_z0 v itens p i <= spec_z0 v itens p j.
Proof.
  intros Hn Hij. induction Hij as [|j Hij IH]; [apply Qle_refl|].
  eapply Qle_trans; [exact IH | now apply spec_z0_step].
Qed.

(** X11: when every loaded item has an orientation and no dimension is
    negative, the figure is drawn and two items of one pallet never overlap
    in height: the box of the higher-indexed item starts at or above the top
    of the box of the lower-indexed one, and no box starts below 0. *)
Theorem boxes_do_not_overlap_in_height (itens : list Item) (v : Valuation)
    (cfg : PalletsConfig) :
  falta_orientacao v itens cfg = false ->
  (forall it, In it itens -> 0 <= l it /\ 0 <= w it /\ 0 <= h it) ->
  exists traces,
    criar_visualizacao_3d itens v cfg = Returned traces /\
    forall p i j it_i it_j,
      (Z.of_nat p < quantidade cfg)%Z -> (i < j)%nat ->
      nth_error itens i = Some it_i -> nth_error itens j = Some it_j ->
      v (X i p) = true -> v (X j p) = true ->
      let z_i := spec_z0 v itens p i in
      let z_j := spec_z0 v itens p j in
      In (caixa (offset_x p) z_i i (dims_orientadas v (i, it_i))) traces /\
      In (caixa (offset_x p) z_j j (dims_orientadas v (j, it_j))) traces /\
      0 <= z_i /\
      z_i + altura_orientada v (i, it_i) <= z_j.
Proof.
  intros Hor Hn. exists (spec_layout v itens cfg). split.
  - unfold criar_visualizacao_3d, spec_layout.
    rewrite laco_paletes_outcome. unfold falta_orientacao in Hor.
    now rewrite Hor.
  - intros p i j it_i it_j Hp Hij Hi Hj Hxi Hxj z_i z_j.
    assert (Hbox : forall k it, nth_error itens k = Some it ->
              v (X k p) = true ->
              In (caixa (offset_x p) (spec_z0 v itens p k) k
                        (dims_orientadas v (k, it)))
                 (spec_layout v itens cfg)).
    { intros k it Hk Hx. unfold spec_layout. apply in_flat_map.
      exists p. split; [now apply In_range|]. right.
      apply in_map_iff. exists (k, it). split; [reflexivity|].
      apply filter_In. split; [now apply In_enumerate | exact Hx]. }
    split; [now apply Hbox|]. split; [now apply Hbox|]. split.
    + apply (spec_z0_monotone v itens p 0 i Hn). lia.
    + subst z_i z_j.
      apply Qle_trans with (spec_z0 v itens p (Datatypes.S i)).
      * unfold spec_z0.
        assert (He : nth_error (enumerate itens) i = Some (i, it_i))
          by (apply nth_error_enumerate; auto).
        rewrite (firstn_succ_nth_error _ _ _ He), filter_app.
        cbn [filter fst]. rewrite Hxi, map_app. cbn [map].
        rewrite soma_Q_snoc. apply Qle_refl.
      * apply spec_z0_monotone; [exact Hn | lia].
Qed.

Lemma boxes_do_not_overlap_in_height_witness :
  exists traces,
    criar_visualizacao_3d itens_exemplo valor_exemplo config_exemplo
      = Returned traces /\
    spec_z0 valor_exemplo itens_exemplo 0 0
      + altura_orientada valor_exemplo (0%nat, item_leve)
    <= spec_z0 valor_exemplo itens_exemplo 0 2.
Proof.
  assert (Hn : forall it, In it itens_exemplo ->
                 0 <= l it /\ 0 <= w it /\ 0 <= h it).
  { intros it [<-|[<-|[<-|[]]]]; repeat split; discriminate. }
  destruct (boxes_do_not_overlap_in_height itens_exemplo valor_exemplo
              config_exemplo eq_refl Hn) as [traces [Ht Hb]].
  exists traces. split; [exact Ht|].
  apply (Hb 0%nat 0%nat 2%nat item_leve item_pesado); try reflexivity.
  lia.
Defined.
Local Close Scope Q_scope.

(** ** The matplotlib view draws the same towers *)

Local Open Scope Q_scope.

Lemma filter_orientacao (v : Valuation) (i : nat) :
  match filter (fun k => v (R i k)) (seq 0 6) with
  | [] => orientacao v i = None
  | k :: _ => orientacao v i = Some k
  end.
Proof.
  unfold orientacao. generalize (seq 0 6). intros ks.
  induction ks as [|k ks IH]; [reflexivity|].
  cbn [filter find]. destruct (v (R i k)); [reflexivity | exact IH].
Qed.

Lemma passo_item_mat_assigned (v : Valuation) (p : nat) (ox z : Q)
    (ax : list Desenho) (e : nat * Item) (k : nat) :
  v (X (fst e) p) = true ->
  orientacao v (fst e) = Some k ->
  passo_item_mat v p ox (Returned (z, ax)) e =
  Returned (z + altura_orientada v e,
            ax ++ desenhos_item ox z p (fst e) (dims_orientadas v e)).
Proof.
  destruct e as [i it]. cbn [fst]. intros Hx Ho.
  unfold passo_item_mat, altura_orientada, dims_orientadas. cbn [fst snd].
  rewrite Hx, Ho. pose proof (filter_orientacao v i) as Hf.
  destruct (filter (fun k => v (R i k)) (seq 0 6)) as [|k' ks];
    rewrite Ho in Hf; [discriminate|]. injection Hf as <-.
  destruct (orientacao_some v i k Ho) as [Hk _].
  do 6 (destruct k as [|k]; [reflexivity|]). lia.
Qed.

Lemma passo_item_mat_none (v : Valuation) (p : nat) (ox z : Q)
    (ax : list Desenho) (e : nat * Item) :
  v (X (fst e) p) = true ->
  orientacao v (fst e) = None ->
  passo_item_mat v p ox (Returned (z, ax)) e = Raised IndexError.
Proof.
  destruct e as [i it]. cbn [fst]. intros Hx Ho.
  unfold passo_item_mat. rewrite Hx.
  pose proof (filter_orientacao v i) as Hf.
  destruct (filter (fun k => v (R i k)) (seq 0 6)) as [|k' ks];
    [reflexivity|]. congruence.
Qed.

Lemma laco_itens_mat_raised (v : Valuation) (p : nat) (ox : Q)
    (es : list (nat * Item)) (err : Erro) :
  fold_left (passo_item_mat v p ox) es (Raised err) = Raised err.
Proof. induction es as [|e es IH]; [reflexivity | exact IH]. Qed.

Lemma laco_paletes_mat_raised (v : Valuation) (itens : list Item)
    (ps : list nat) (err : Erro) :
  fold_left (passo_palete_mat v itens) ps (Raised err) = Raised err.
Proof. induction ps as [|p ps IH]; [reflexivity | exact IH]. Qed.

Lemma laco_itens_mat_outcome (v : Valuation) (p : nat) (ox : Q)
    (es : list (nat * Item)) :
  forall z ax,
    fold_left (passo_item_mat v p ox) es (Returned (z, ax)) =
    if existsb (sem_orientacao v p) es
    then Raised IndexError
    else Returned (cursor_final v p z es, ax ++ torre_mat v p ox z es).
Proof.
  induction es as [|e es IH]; intros z ax.
  - cbn. now rewrite app_nil_r.
  - cbn [fold_left existsb torre_mat]. unfold sem_orientacao at 1.
    unfold cursor_final. cbn [filter].
    destruct (v (X (fst e) p)) eqn:Hx; cbn [andb].
    + destruct (orientacao v (fst e)) as [k|] eqn:Ho; cbn [orb].
      * rewrite (passo_item_mat_assigned v p ox z ax e k Hx Ho), IH.
        destruct (existsb (sem_orientacao v p) es); [reflexivity|].
        unfold cursor_final. cbn [map fold_left]. now rewrite <- app_assoc.
      * rewrite (passo_item_mat_none v p ox z ax e Hx Ho).
        apply laco_itens_mat_raised.
    + destruct e as [i it]. cbn [fst] in Hx. unfold passo_item_mat at 2.
      rewrite Hx. apply IH.
Qed.

Lemma torre_mat_spec (v : Valuation) (itens : list Item) (p : nat) (ox : Q)
    (es pre : list (nat * Item)) :
  enumerate itens = pre ++ es ->
  torre_mat v p ox (soma_Q (map (altura_orientada v)
                                (filter (fun e => v (X (fst e) p)) pre))) es =
  flat_map (fun e => desenhos_item ox (spec_z0 v itens p (fst e)) p (fst e)
                                   (dims_orientadas v e))
           (filter (fun e => v (X (fst e) p)) es).
Proof.
  revert pre. induction es as [|e es IH]; intros pre Hs; [reflexivity|].
  assert (Hz : spec_z0 v itens p (fst e) =
               soma_Q (map (altura_orientada v)
                           (filter (fun e => v (X (fst e) p)) pre))).
  { unfold spec_z0. rewrite (enumerate_split_index _ _ _ _ Hs), Hs.
    rewrite <- (Nat.add_0_r (List.length pre)), firstn_app_2.
    cbn [firstn]. now rewrite app_nil_r. }
  assert (Hs' : enumerate itens = (pre ++ [e]) ++ es)
    by (now rewrite <- app_assoc).
  specialize (IH (pre ++ [e]) Hs').
  rewrite filter_app, map_app in IH. cbn [torre_mat filter] in *.
  destruct (v (X (fst e) p)).
  - cbn [map flat_map] in *. rewrite soma_Q_snoc in IH. now rewrite IH, Hz.
  - cbn [map] in IH. rewrite app_nil_r in IH. exact IH.
Qed.

Lemma laco_paletes_mat_outcome (v : Valuation) (itens : list Item)
    (k : nat) :
  forall s ax,
    fold_left (passo_palete_mat v itens) (seq s k)
              (Returned (offset_mat s, ax)) =
    if existsb (fun p => existsb (sem_orientacao v p) (enumerate itens))
               (seq s k)
    then Raised IndexError
    else Returned (offset_mat (s + k), ax ++
      flat_map (fun p =>
          flat_map (fun e => desenhos_item (offset_mat p)
                               (spec_z0 v itens p (fst e)) p (fst e)
                               (dims_orientadas v e))
                   (itens_da_palete v itens p))
        (seq s k)).
Proof.
  induction k as [|k IH]; intros s ax.
  - cbn. now rewrite app_nil_r, Nat.add_0_r.
  - cbn [seq fold_left existsb flat_map]. unfold passo_palete_mat at 2.
    rewrite laco_itens_mat_outcome.
    destruct (existsb (sem_orientacao v s) (enumerate itens)); cbn [orb].
    + apply laco_paletes_mat_raised.
    + change (offset_mat s + 2) with (offset_mat (Datatypes.S s)).
      rewrite IH. destruct (existsb _ (seq (Datatypes.S s) k));
        [reflexivity|].
      pose proof (torre_mat_spec v itens s (offset_mat s)
                    (enumerate itens) [] eq_refl) as Ht.
      cbn [filter map] in Ht. unfold soma_Q in Ht. cbn [fold_left] in Ht.
      rewrite Ht. unfold itens_da_palete.
      rewrite <- app_assoc.
      replace (Datatypes.S s + k)%nat with (s + Datatypes.S k)%nat by lia.
      reflexivity.
Qed.

Lemma offset_mat_value (p : nat) : offset_mat p == 2 * inject_Z (Z.of_nat p).
Proof.
  induction p as [|p IH]; [reflexivity|].
  cbn [offset_mat]. rewrite IH, Nat2Z.inj_succ. unfold Z.succ.
  rewrite inject_Z_plus. ring.
Qed.

(** X12: the matplotlib view draws the towers of the plotly figure: for
    each pallet in order and each of its items by ascending index, one bar
    with the same cursor [z0] and the same permuted dimensions, at
    [x = 2.0 * p] instead of [2.5 * p]; it fails, with [IndexError], on
    exactly the valuations on which the plotly figure fails. *)
Theorem matplotlib_draws_same_towers (itens : list Item) (v : Valuation)
    (cfg : PalletsConfig) :
  visualizar_matplotlib itens v cfg =
    (if falta_orientacao v itens cfg
     then Raised IndexError
     else Returned (spec_matplotlib v itens cfg)) /\
  (forall p, offset_mat p == 2 * inject_Z (Z.of_nat p)) /\
  (forall p e,
     (Z.of_nat p < quantidade cfg)%Z -> In e (itens_da_palete v itens p) ->
     forall l' w' h', dims_orientadas v e = (l', w', h') ->
       In (Bar3d (offset_mat p) 0 (spec_z0 v itens p (fst e)) l' w' h'
                 (cor_palete p))
          (spec_matplotlib v itens cfg) /\
       In (caixa (offset_x p) (spec_z0 v itens p (fst e)) (fst e)
                 (l', w', h'))
          (spec_layout v itens cfg)).
Proof.
  split; [|split].
  - unfold visualizar_matplotlib, falta_orientacao, spec_matplotlib, range.
    pose proof (laco_paletes_mat_outcome v itens
                  (Z.to_nat (quantidade cfg)) 0 []) as H.
    cbn [offset_mat] in H. rewrite H.
    destruct (existsb _ (seq 0 (Z.to_nat (quantidade cfg)))); reflexivity.
  - apply offset_mat_value.
  - intros p e Hp He l' w' h' Hd. split.
    + unfold spec_matplotlib. apply in_flat_map. exists p.
      split; [now apply In_range|]. apply in_flat_map. exists e.
      split; [exact He|]. rewrite Hd. cbn. auto.
    + unfold spec_layout. apply in_flat_map. exists p.
      split; [now apply In_range|]. right. apply in_map_iff. exists e.
      split; [now rewrite Hd | exact He].
Qed.

Lemma matplotlib_draws_same_towers_witness :
  In (Bar3d (offset_mat 0) 0 (0 + (5 # 10)) (8 # 10) (6 # 10) (5 # 10)
            "blue"%string)
     (spec_matplotlib valor_exemplo itens_exemplo config_exemplo).
Proof.
  assert (He : In (2%nat, item_pesado)
                  (itens_da_palete valor_exemplo itens_exemplo 0))
    by (cbn; auto).
  exact (proj1 (proj2 (proj2 (matplotlib_draws_same_towers itens_exemplo
                                valor_exemplo config_exemplo))
                  0%nat (2%nat, item_pesado) eq_refl He
                  (8 # 10) (6 # 10) (5 # 10) eq_refl)).
Defined.

Example matplotlib_exemplo :
  visualizar_matplotlib itens_exemplo valor_exemplo config_exemplo =
  Returned
    [ Bar3d 0 0 0 (4 # 10) (3 # 10) (5 # 10) "blue"%string;
      Texto (0 + (4 # 10) / 2) (2 # 10) (0 + (5 # 10) / 2) 0;
      Bar3d 0 0 (0 + (5 # 10)) (8 # 10) (6 # 10) (5 # 10) "blue"%string;
      Texto (0 + (8 # 10) / 2) (2 # 10) (0 + (5 # 10) + (5 # 10) / 2) 2;
      Bar3d (0 + 2) 0 0 (6 # 10) (5 # 10) (4 # 10) "green"%string;
      Texto (0 + 2 + (6 # 10) / 2) (2 # 10) (0 + (4 # 10) / 2) 1 ] /\
  visualizar_matplotlib itens_exemplo valor_sem_orientacao config_exemplo
    = Raised IndexError.
Proof. split; reflexivity. Qed.
Local Close Scope Q_scope.

(** ** The allocation records *)

Lemma laco_aloc_raised (v : Valuation) (p : nat) (es : list (nat * Item))
    (err : Erro) :
  fold_left (passo_item_aloc v p) es (Raised err) = Raised err.
Proof. induction es as [|e es IH]; [reflexivity | exact IH]. Qed.

Lemma laco_aloc_outcome (v : Valuation) (p : nat) (es : list (nat * Item)) :
  forall al,
    fold_left (passo_item_aloc v p) es (Returned al) =
    if existsb (sem_orientacao v p) es
    then Raised StopIteration
    else Returned (al ++
           map (fun e => mkAlocacao (fst e) p (indice_orientacao v (fst e))
                                    (snd e))
               (filter (fun e => v (X (fst e) p)) es)).
Proof.
  induction es as [|[i it] es IH]; intros al.
  - cbn. now rewrite app_nil_r.
  - cbn [fold_left existsb filter fst]. unfold sem_orientacao at 1.
    unfold passo_item_aloc at 2. cbn [fst].
    destruct (v (X i p)) eqn:Hx; cbn [andb].
    + unfold indice_orientacao.
      destruct (orientacao v i) as [k|] eqn:Ho; cbn [orb].
      * rewrite IH. destruct (existsb (sem_orientacao v p) es);
          [reflexivity|].
        cbn [map fst snd]. rewrite Ho.
        now rewrite <- app_assoc.
      * apply laco_aloc_raised.
    + apply IH.
Qed.

Lemma laco_aloc_paletes (v : Valuation) (itens : list Item) (ps : list nat)
    (err : Erro) :
  fold_left (fun st p => fold_left (passo_item_aloc v p) (enumerate itens) st)
            ps (Raised err) = Raised err.
Proof.
  induction ps as [|p ps IH]; [reflexivity|].
  cbn [fold_left]. now rewrite laco_aloc_raised.
Qed.

Lemma alocacao_outcome (v : Valuation) (itens : list Item) (ps : list nat) :
  forall al,
    fold_left (fun st p =>
                 fold_left (passo_item_aloc v p) (enumerate itens) st)
              ps (Returned al) =
    if existsb (fun p => existsb (sem_orientacao v p) (enumerate itens)) ps
    then Raised StopIteration
    else Returned (al ++
      flat_map (fun p =>
          map (fun e => mkAlocacao (fst e) p (indice_orientacao v (fst e))
                                   (snd e))
              (itens_da_palete v itens p)) ps).
Proof.
  induction ps as [|p ps IH]; intros al.
  - cbn. now rewrite app_nil_r.
  - cbn [fold_left existsb flat_map]. rewrite laco_aloc_outcome.
    destruct (existsb (sem_orientacao v p) (enumerate itens)); cbn [orb].
    + apply laco_aloc_paletes.
    + rewrite IH. destruct (existsb _ ps); [reflexivity|].
      unfold itens_da_palete. now rewrite <- app_assoc.
Qed.

Lemma length_flat_map_soma {A B : Type} (g : A -> list B) (xs : list A) :
  Z.of_nat (List.length (flat_map g xs)) =
  soma_Z (map (fun a => Z.of_nat (List.length (g a))) xs).
Proof.
  induction xs as [|a xs IH]; [reflexivity|].
  cbn [flat_map map]. rewrite length_app, soma_Z_cons, <- IH. lia.
Qed.

Lemma itens_da_palete_index (v : Valuation) (itens : list Item) (p : nat)
    (e : nat * Item) :
  In e (itens_da_palete v itens p) <->
  nth_error itens (fst e) = Some (snd e) /\ v (X (fst e) p) = true.
Proof.
  unfold itens_da_palete. rewrite filter_In. destruct e as [i it].
  now rewrite In_enumerate.
Qed.

(** X13: the allocation list is built exactly when every loaded item has an
    orientation ([StopIteration] otherwise); it then holds one record per
    pair of a pallet and an item loaded on it, pallets in order and items by
    ascending index, so its records and the assignment variables determine
    each other, and its length is [itens_carregados] of the metrics. *)
Theorem alocacao_records (itens : list Item) (v : Valuation)
    (cfg : PalletsConfig) :
  let recs :=
    flat_map (fun p =>
        map (fun e => mkAlocacao (fst e) p (indice_orientacao v (fst e))
                                 (snd e))
            (itens_da_palete v itens p))
      (range (quantidade cfg)) in
  alocacao itens v cfg =
    (if falta_orientacao v itens cfg then Raised StopIteration
     else Returned recs) /\
  (forall i p it, nth_error itens i = Some it -> Z.of_nat p < quantidade cfg ->
     (v (X i p) = true <->
      exists a, In a recs /\ item_id a = i /\ palete a = p)) /\
  (forall a, In a recs ->
     Z.of_nat (palete a) < quantidade cfg /\
     nth_error itens (item_id a) = Some (item_dados a) /\
     v (X (item_id a) (palete a)) = true) /\
  Z.of_nat (List.length recs) = items_loaded v itens cfg.
Proof.
  intros recs. split; [|split; [|split]].
  - unfold alocacao, falta_orientacao. rewrite alocacao_outcome.
    reflexivity.
  - intros i p it Hi Hp. split.
    + intros Hx. exists (mkAlocacao i p (indice_orientacao v i) it).
      split; [|split; reflexivity]. subst recs. apply in_flat_map.
      exists p. split; [now apply In_range|]. apply in_map_iff.
      exists (i, it). split; [reflexivity|].
      apply itens_da_palete_index. auto.
    + intros [a [Ha [<- <-]]]. subst recs. apply in_flat_map in Ha.
      destruct Ha as [p' [_ Ha]]. apply in_map_iff in Ha.
      destruct Ha as [e [<- He]]. apply itens_da_palete_index in He.
      cbn [item_id palete]. tauto.
  - intros a Ha. subst recs. apply in_flat_map in Ha.
    destruct Ha as [p [Hp Ha]]. apply in_map_iff in Ha.
    destruct Ha as [e [<- He]]. apply itens_da_palete_index in He.
    apply In_range in Hp. cbn [item_id palete item_dados]. tauto.
  - subst recs. rewrite length_flat_map_soma. unfold items_loaded.
    f_equal. apply map_ext. intros p. now rewrite length_map.
Qed.

Lemma alocacao_records_witness :
  valor_exemplo (X 2 0%nat) = true /\
  exists a, item_id a = 2%nat /\ palete a = 0%nat /\ aloc_orientacao a = 0%nat.
Proof.
  split; [reflexivity|].
  destruct (proj1 (proj1 (proj2 (alocacao_records itens_exemplo valor_exemplo
                                   config_exemplo))
                     2%nat 0%nat item_pesado eq_refl eq_refl) eq_refl)
    as [a [Ha [Hi Hp]]].
  exists a. split; [exact Hi|]. split; [exact Hp|].
  cbn in Ha. destruct Ha as [<-|[<-|[<-|[]]]];
    cbn in Hi, Hp |- *; try discriminate; reflexivity.
Defined.

Example alocacao_exemplo :
  alocacao itens_exemplo valor_exemplo config_exemplo =
  Returned [ mkAlocacao 0 0 3 item_leve; mkAlocacao 2 0 0 item_pesado;
             mkAlocacao 1 1 0 item_fragil ] /\
  alocacao itens_exemplo valor_sem_orientacao config_exemplo
    = Raised StopIteration.
Proof. split; reflexivity. Qed.

(** ** The allocation of a solution *)

Lemma NoDup_map_fst_enumerate {A : Type} (xs : list A) :
  NoDup (map fst (enumerate xs)).
Proof.
  unfold enumerate.
  assert (H : forall k, map fst (combine (seq k (List.length xs)) xs)
                        = seq k (List.length xs)).
  { induction xs as [|a xs IH]; intros k; [reflexivity|].
    cbn [List.length seq combine map fst]. now rewrite IH. }
  rewrite H. apply seq_NoDup.
Qed.

Lemma NoDup_map_filter {A B : Type} (g : A -> B) (q : A -> bool)
    (xs : list A) :
  NoDup (map g xs) -> NoDup (map g (filter q xs)).
Proof.
  induction xs as [|a xs IH]; intros Hd; [constructor|].
  cbn [map] in Hd. inversion Hd as [|? ? Hn Hd']; subst.
  cbn [filter]. destruct (q a); [|now apply IH].
  cbn [map]. constructor; [|now apply IH].
  intros Hin. apply Hn. apply in_map_iff in Hin.
  destruct Hin as [b [E Hb]]. apply filter_In in Hb.
  apply in_map_iff. exists b. tauto.
Qed.

Lemma NoDup_flat_map_key_in {A B : Type} (g : A -> list B) (key : B -> A)
    (xs : list A) :
  NoDup xs ->
  (forall a b, In a xs -> In b (g a) -> key b = a) ->
  (forall a, In a xs -> NoDup (g a)) ->
  NoDup (flat_map g xs).
Proof.
  intros Hd. induction Hd as [|a xs Hn Hd IH]; intros Hkey Hg;
    cbn [flat_map]; [constructor|].
  apply NoDup_app.
  - apply Hg. now left.
  - apply IH; intros; [apply Hkey | apply Hg]; auto using in_cons.
  - intros b Hb Hb'. apply in_flat_map in Hb'. destruct Hb' as [a' [Ha' Hb']].
    apply (Hkey a b (or_introl eq_refl)) in Hb.
    apply (Hkey a' b (or_intror Ha')) in Hb'. congruence.
Qed.

Lemma map_flat_map_comp {A B C : Type} (g : B -> C) (k : A -> list B)
    (xs : list A) :
  map g (flat_map k xs) = flat_map (fun a => map g (k a)) xs.
Proof.
  induction xs as [|a xs IH]; [reflexivity|].
  cbn [flat_map]. now rewrite map_app, IH.
Qed.

Lemma falta_orientacao_solution (itens : list Item) (cfg : PalletsConfig)
    (v : Valuation) :
  model_holds v (otimizar_model itens cfg) = true ->
  falta_orientacao v itens cfg = false.
Proof.
  intros Hsat. unfold falta_orientacao.
  destruct (existsb _ (range (quantidade cfg))) eqn:E; [|reflexivity].
  apply existsb_exists in E. destruct E as [p [_ E]].
  apply existsb_exists in E. destruct E as [[i it] [Hin Hs]].
  apply In_enumerate in Hin. unfold sem_orientacao in Hs. cbn [fst] in Hs.
  apply andb_prop in Hs. destruct Hs as [_ Hs].
  pose proof (orientacao_defined itens cfg v i it Hin Hsat) as Ho.
  destruct (orientacao v i); [discriminate | congruence].
Qed.

(** X14: for a valuation that satisfies the model the allocation list is
    built; no item occurs in it twice; every record carries an orientation
    index below 6 whose variable is true, 0 for a non-rotatable item; and
    every CSV row names a pallet between 1 and the pallet count. *)
Theorem alocacao_of_solution (itens : list Item) (v : Valuation)
    (cfg : PalletsConfig) :
  model_holds v (otimizar_model itens cfg) = true ->
  exists recs,
    alocacao itens v cfg = Returned recs /\
    NoDup (map item_id recs) /\
    (List.length recs <= List.length itens)%nat /\
    (forall a, In a recs ->
       (aloc_orientacao a < 6)%nat /\
       v (R (item_id a) (aloc_orientacao a)) = true /\
       (o (item_dados a) = false -> aloc_orientacao a = 0%nat)) /\
    (forall row, In row (df_resultado recs) ->
       1 <= Palete row <= quantidade cfg).
Proof.
  intros Hsat.
  pose proof (falta_orientacao_solution itens cfg v Hsat) as Hfo.
  eexists. split.
  { unfold alocacao. rewrite alocacao_outcome.
    unfold falta_orientacao in Hfo. rewrite Hfo. cbn [app]. reflexivity. }
  assert (Hnd : NoDup (map item_id
            (flat_map (fun p =>
               map (fun e => mkAlocacao (fst e) p
                               (indice_orientacao v (fst e)) (snd e))
                   (itens_da_palete v itens p))
             (range (quantidade cfg))))).
  { rewrite map_flat_map_comp.
    apply (NoDup_flat_map_key_in _
             (fun i => match find (fun p => v (X i p))
                                  (range (quantidade cfg)) with
                       | Some p => p
                       | None => 0%nat
                       end)).
    - apply NoDup_range.
    - intros p i Hp Hi. rewrite map_map in Hi. cbn [item_id] in Hi.
      apply in_map_iff in Hi. destruct Hi as [[i' it] [<- He]].
      apply itens_da_palete_index in He. cbn [fst snd] in *.
      destruct He as [Hi Hx].
      destruct (find (fun p0 => v (X i' p0)) (range (quantidade cfg)))
        as [p'|] eqn:Ef.
      + apply find_some in Ef. destruct Ef as [Hp' Hx'].
        apply (at_most_one_true v i' (range (quantidade cfg)));
          auto using NoDup_range.
        now apply (soma_x_le_1 itens cfg v i' it).
      + apply (find_none _ _ Ef) in Hp. congruence.
    - intros p _. rewrite map_map. cbn [item_id].
      unfold itens_da_palete. apply NoDup_map_filter.
      apply NoDup_map_fst_enumerate. }
  split; [exact Hnd|]. split; [|split].
  - pose proof (NoDup_incl_length (l' := seq 0 (List.length itens)) Hnd)
      as Hle.
    rewrite length_map, length_seq in Hle. apply Hle.
    intros i Hi. apply in_map_iff in Hi. destruct Hi as [a [<- Ha]].
    apply in_flat_map in Ha. destruct Ha as [p [_ Ha]].
    apply in_map_iff in Ha. destruct Ha as [e [<- He]].
    apply itens_da_palete_index in He. cbn [item_id].
    destruct He as [He _]. apply nth_error_lt in He.
    apply in_seq. lia.
  - intros a Ha. apply in_flat_map in Ha. destruct Ha as [p [_ Ha]].
    apply in_map_iff in Ha. destruct Ha as [[i it] [<- He]].
    apply itens_da_palete_index in He. cbn [fst snd] in He.
    destruct He as [Hi _]. cbn [aloc_orientacao item_id item_dados fst snd].
    pose proof (orientacao_defined itens cfg v i it Hi Hsat) as Ho.
    unfold indice_orientacao.
    destruct (orientacao v i) as [k|] eqn:Ek; [|congruence].
    destruct (orientacao_some v i k Ek) as [Hk Hr].
    split; [exact Hk|]. split; [exact Hr|]. intros Hnr.
    assert (Hin : In (LinEq [(1, R i 0%nat)] 1) (restricoes_rotacao i it))
      by (unfold restricoes_rotacao; rewrite Hnr; now left).
    apply (In_rotacao_constraints itens cfg i it _ Hi) in Hin.
    rewrite model_holds_iff in Hsat.
    pose proof (holds_fixed_one v _ (Hsat _ Hin)) as V0.
    unfold orientacao in Ek. cbn [find seq] in Ek. rewrite V0 in Ek.
    congruence.
  - intros row Hrow. unfold df_resultado in Hrow. apply in_map_iff in Hrow.
    destruct Hrow as [a [<- Ha]]. apply in_flat_map in Ha.
    destruct Ha as [p [Hp Ha]]. apply in_map_iff in Ha.
    destruct Ha as [e [<- _]]. apply In_range in Hp.
    cbn [linha_csv Palete palete]. lia.
Qed.

Lemma alocacao_of_solution_witness :
  exists recs,
    alocacao itens_exemplo valor_exemplo config_exemplo = Returned recs /\
    NoDup (map item_id recs) /\
    (List.length recs <= 3)%nat.
Proof.
  destruct (alocacao_of_solution itens_exemplo valor_exemplo config_exemplo
              eq_refl) as [recs [Hr [Hn [Hl _]]]].
  exists recs. auto.
Defined.

(** ** The SAP rows and the Oracle shipment lines *)

Lemma length_numerar {A B : Type} (g : nat -> A -> B) (k : nat)
    (xs : list A) :
  List.length (numerar g k xs) = List.length xs.
Proof.
  unfold numerar. rewrite length_map, length_combine, length_seq.
  apply Nat.min_id.
Qed.

Lemma numerar_cons {A B : Type} (g : nat -> A -> B) (k : nat) (a : A)
    (xs : list A) :
  numerar g k (a :: xs) = g k a :: numerar g (Datatypes.S k) xs.
Proof. reflexivity. Qed.

Lemma numerar_app {A B : Type} (g : nat -> A -> B) (xs ys : list A) :
  forall k,
    numerar g k (xs ++ ys) =
    numerar g k xs ++ numerar g (k + List.length xs) ys.
Proof.
  induction xs as [|a xs IH]; intros k.
  - cbn [app List.length]. now rewrite Nat.add_0_r.
  - cbn [app List.length]. rewrite !numerar_cons, IH. cbn [app].
    do 3 f_equal. lia.
Qed.

Lemma numerar_map {A B C : Type} (g : nat -> B -> C) (h : A -> B)
    (xs : list A) :
  forall k, numerar g k (map h xs) = numerar (fun j a => g j (h a)) k xs.
Proof.
  induction xs as [|a xs IH]; intros k; [reflexivity|].
  cbn [map]. now rewrite !numerar_cons, IH.
Qed.

Lemma map_numerar_content {A B C : Type} (g : nat -> A -> B) (proj : B -> C)
    (h : A -> C) (xs : list A) :
  (forall j a, proj (g j a) = h a) ->
  forall k, map proj (numerar g k xs) = map h xs.
Proof.
  intros Hp. induction xs as [|a xs IH]; intros k; [reflexivity|].
  rewrite numerar_cons. cbn [map]. now rewrite Hp, IH.
Qed.

Lemma map_numerar_index {A B C : Type} (g : nat -> A -> B) (proj : B -> C)
    (h : nat -> C) (xs : list A) :
  (forall j a, proj (g j a) = h j) ->
  forall k, map proj (numerar g k xs) = map h (seq k (List.length xs)).
Proof.
  intros Hp. induction xs as [|a xs IH]; intros k; [reflexivity|].
  rewrite numerar_cons. cbn [map List.length seq]. now rewrite Hp, IH.
Qed.

(** A loop that appends one element per selected entry. *)
Lemma laco_append {A B : Type} (q : A -> bool) (g : A -> B) (es : list A) :
  forall acc,
    fold_left (fun acc e => if q e then acc ++ [g e] else acc) es acc =
    acc ++ map g (filter q es).
Proof.
  induction es as [|e es IH]; intros acc.
  - cbn. now rewrite app_nil_r.
  - cbn [fold_left filter]. rewrite IH.
    destruct (q e); [|reflexivity]. cbn [map]. now rewrite <- app_assoc.
Qed.

(** The same, the element built from the number of elements so far. *)
Lemma laco_append_numbered {A B : Type} (q : A -> bool) (g : nat -> A -> B)
    (es : list A) :
  forall acc,
    fold_left (fun acc e => if q e then acc ++ [g (List.length acc) e]
                            else acc) es acc =
    acc ++ numerar g (List.length acc) (filter q es).
Proof.
  induction es as [|e es IH]; intros acc.
  - cbn. now rewrite app_nil_r.
  - cbn [fold_left filter]. rewrite IH.
    destruct (q e); [|reflexivity].
    rewrite numerar_cons, length_app, <- app_assoc. cbn [List.length app].
    do 3 f_equal. lia.
Qed.

Lemma sap_data_eq (itens : list Item) (v : Valuation) (cfg : PalletsConfig) :
  sap_data itens v cfg =
  flat_map (fun p => map (fun e => linha_sap p (snd e))
                         (itens_da_palete v itens p))
           (range (quantidade cfg)).
Proof.
  unfold sap_data. generalize (range (quantidade cfg)). intros ps.
  assert (H : forall acc,
    fold_left (fun acc p =>
        fold_left (fun acc e =>
                     if v (X (fst e) p)
                     then acc ++ [linha_sap p (snd e)]
                     else acc)
                  (enumerate itens) acc) ps acc =
    acc ++ flat_map (fun p => map (fun e => linha_sap p (snd e))
                                  (itens_da_palete v itens p)) ps).
  { induction ps as [|p ps IH]; intros acc.
    - cbn. now rewrite app_nil_r.
    - cbn [fold_left flat_map].
      rewrite (laco_append (fun e => v (X (fst e) p))
                           (fun e => linha_sap p (snd e))).
      rewrite IH. unfold itens_da_palete. now rewrite <- app_assoc. }
  apply (H []).
Qed.

Lemma shipment_lines_eq (itens : list Item) (v : Valuation)
    (cfg : PalletsConfig) :
  shipment_lines itens v cfg =
  numerar (fun k pe => linha_oracle k (fst pe) (snd (snd pe))) 0
          (carregados v itens cfg).
Proof.
  unfold shipment_lines, carregados.
  generalize (range (quantidade cfg)). intros ps.
  assert (H : forall acc,
    fold_left (fun acc p =>
        fold_left (fun acc e =>
                     if v (X (fst e) p)
                     then acc ++ [linha_oracle (List.length acc) p (snd e)]
                     else acc)
                  (enumerate itens) acc) ps acc =
    acc ++ numerar (fun k pe => linha_oracle k (fst pe) (snd (snd pe)))
                   (List.length acc)
                   (flat_map (fun p => map (pair p) (itens_da_palete v itens p))
                             ps)).
  { induction ps as [|p ps IH]; intros acc.
    - cbn. now rewrite app_nil_r.
    - cbn [fold_left flat_map].
      rewrite (laco_append_numbered (fun e => v (X (fst e) p))
                 (fun k e => linha_oracle k p (snd e))).
      rewrite IH, numerar_app, numerar_map, length_app, length_numerar.
      rewrite length_map. unfold itens_da_palete. cbn [fst snd].
      now rewrite <- app_assoc. }
  apply (H []).
Qed.

Lemma length_carregados (itens : list Item) (v : Valuation)
    (cfg : PalletsConfig) :
  Z.of_nat (List.length (carregados v itens cfg)) = items_loaded v itens cfg.
Proof.
  unfold carregados, items_loaded. rewrite length_flat_map_soma.
  f_equal. apply map_ext. intros p. now rewrite length_map.
Qed.

Lemma soma_Z_flat_map {A : Type} (g : A -> list Z) (xs : list A) :
  soma_Z (flat_map g xs) = soma_Z (map (fun a => soma_Z (g a)) xs).
Proof.
  induction xs as [|a xs IH]; [reflexivity|].
  cbn [flat_map map]. now rewrite soma_Z_app, soma_Z_cons, IH.
Qed.

Lemma soma_Qs_truediv (c : Z) (zs : list Z) :
  (soma_Qs (map (fun z => truediv z c) zs) == truediv (soma_Z zs) c)%Q.
Proof.
  induction zs as [|z zs IH].
  - cbn. unfold truediv. cbn. unfold Qdiv. ring.
  - cbn [map soma_Qs fold_right].
    fold (soma_Qs (map (fun z => truediv z c) zs)).
    rewrite IH, soma_Z_cons. unfold truediv.
    rewrite inject_Z_plus. unfold Qdiv. ring.
Qed.

(** X15: the SAP export and the Oracle export hold one row per loaded item,
    as many as [itens_carregados] of the metrics; the Oracle lines are
    numbered 1, 2, ... in order; and the volumes and weights of the lines add
    up to the totals of the shipment header. *)
Theorem erp_exports_match_metrics (itens : list Item) (v : Valuation)
    (cfg : PalletsConfig) :
  itens <> [] ->
  exists m,
    calcular_metricas itens (Some v) cfg = Returned (cheio m) /\
    let rows := sap_data itens v cfg in
    let lines := shipment_lines itens v cfg in
    Z.of_nat (List.length rows) = itens_carregados m /\
    Z.of_nat (List.length lines) = itens_carregados m /\
    map line_id lines = map Z.of_nat (seq 1 (List.length lines)) /\
    (soma_Qs (map volume_m3 lines) == total_volume (shipment_header m))%Q /\
    (soma_Qs (map weight_kg lines) == total_weight (shipment_header m))%Q /\
    (soma_Qs (map VOLUM rows) == total_volume (shipment_header m))%Q /\
    (soma_Qs (map BRGEW rows) == total_weight (shipment_header m))%Q.
Proof.
  intros Hne. eexists. split; [apply calcular_metricas_some; exact Hne|].
  cbn [itens_carregados shipment_header total_volume total_weight
       volume_utilizado peso_utilizado].
  rewrite sap_data_eq, shipment_lines_eq.
  assert (Hvol : forall (wt : Item -> Z) (c : Z),
            map (fun pe : nat * (nat * Item) => truediv (wt (snd (snd pe))) c)
                (carregados v itens cfg) =
            map (fun z => truediv z c)
                (flat_map (fun p => map (fun e => wt (snd e))
                                        (itens_da_palete v itens p))
                          (range (quantidade cfg)))).
  { intros wt c. unfold carregados.
    rewrite !map_flat_map_comp. apply flat_map_ext. intros p.
    now rewrite !map_map. }
  assert (Hrow : forall (wt : Item -> Z) (c : Z) (proj : LinhaSap -> Q),
            (forall p it, proj (linha_sap p it) = truediv (wt it) c) ->
            map proj
                (flat_map (fun p => map (fun e => linha_sap p (snd e))
                                        (itens_da_palete v itens p))
                          (range (quantidade cfg))) =
            map (fun z => truediv z c)
                (flat_map (fun p => map (fun e => wt (snd e))
                                        (itens_da_palete v itens p))
                          (range (quantidade cfg)))).
  { intros wt c proj Hp. rewrite !map_flat_map_comp. apply flat_map_ext.
    intros p. rewrite !map_map. apply map_ext. intros e. apply Hp. }
  assert (Hsum : forall wt : Item -> Z,
            soma_Z (flat_map (fun p => map (fun e => wt (snd e))
                                           (itens_da_palete v itens p))
                             (range (quantidade cfg))) =
            soma_Z (map (fun p => soma_Z (map (fun e => wt (snd e))
                                              (itens_da_palete v itens p)))
                        (range (quantidade cfg))))
    by (intros wt; apply soma_Z_flat_map).
  cbv zeta. split; [|split; [|split; [|split; [|split; [|split]]]]].
  - rewrite length_flat_map_soma. unfold items_loaded. f_equal.
    apply map_ext. intros p. now rewrite length_map.
  - rewrite length_numerar. apply length_carregados.
  - rewrite length_numerar.
    rewrite (map_numerar_index _ line_id (fun j => Z.of_nat j + 1))
      by reflexivity.
    rewrite <- seq_shift, map_map. apply map_ext. intros j. lia.
  - rewrite (map_numerar_content _ volume_m3
               (fun pe => truediv (vol (snd (snd pe))) SCALE_VOL))
      by reflexivity.
    rewrite (Hvol vol), soma_Qs_truediv, (Hsum vol). reflexivity.
  - rewrite (map_numerar_content _ weight_kg
               (fun pe => truediv (mass (snd (snd pe))) SCALE_MASS))
      by reflexivity.
    rewrite (Hvol mass), soma_Qs_truediv, (Hsum mass). reflexivity.
  - rewrite (Hrow vol SCALE_VOL VOLUM) by reflexivity.
    rewrite soma_Qs_truediv, (Hsum vol). reflexivity.
  - rewrite (Hrow mass SCALE_MASS BRGEW) by reflexivity.
    rewrite soma_Qs_truediv, (Hsum mass). reflexivity.
Qed.

Lemma erp_exports_match_metrics_witness :
  exists m,
    calcular_metricas itens_exemplo (Some valor_exemplo) config_exemplo
      = Returned (cheio m) /\
    map line_id (shipment_lines itens_exemplo valor_exemplo config_exemplo)
      = [1; 2; 3].
Proof.
  assert (Hne : itens_exemplo <> []) by discriminate.
  destruct (erp_exports_match_metrics itens_exemplo valor_exemplo
              config_exemplo Hne) as [m [Hm [_ [_ [Hid _]]]]].
  exists m. split; [exact Hm | exact Hid].
Defined.

Example sap_exemplo :
  map (fun row => (MATNR row, LGORT row, ROUTE row))
      (sap_data itens_exemplo valor_exemplo config_exemplo) =
  [ ("MAT000000", "PAL1", "Salvador");
    ("MAT000002", "PAL1", "Sao Paulo");
    ("MAT000001", "PAL2", "DEFAULT") ]%string.
Proof. reflexivity. Qed.

(** ** The KPIs *)

Lemma calcular_metricas_returned (itens : list Item) (v : Valuation)
    (cfg : PalletsConfig) (m : Metricas) :
  calcular_metricas itens (Some v) cfg = Returned (cheio m) ->
  itens <> [] /\
  pallets_utilizados m = used_pallets v itens cfg /\
  itens_carregados m = items_loaded v itens cfg.
Proof.
  intros H.
  assert (Hne : itens <> []).
  { intros ->. unfold calcular_metricas in H. rewrite totais_eq in H.
    discriminate. }
  split; [exact Hne|].
  rewrite (calcular_metricas_some itens v cfg Hne) in H.
  injection H as <-. split; reflexivity.
Qed.

Lemma used_pallets_range (v : Valuation) (itens : list Item)
    (cfg : PalletsConfig) :
  0 <= used_pallets v itens cfg <= Z.max 0 (quantidade cfg).
Proof.
  unfold used_pallets, paletes_usadas. split; [lia|].
  pose proof (length_filter_le (fun p => itens_na_palete v itens p >? 0)
                               (range (quantidade cfg))) as H.
  unfold range in H at 2. rewrite length_seq in H. lia.
Qed.

Lemma destinos_unicos_bounds (itens : list Item) :
  itens <> [] ->
  (1 <= destinos_unicos itens <= List.length itens)%nat.
Proof.
  intros Hne. unfold destinos_unicos. split.
  - destruct itens as [|it rest]; [congruence|].
    assert (Hin : In (get_destino it "N/A")
                     (nodup string_dec
                        (map (fun it => get_destino it "N/A") (it :: rest))))
      by (apply nodup_In; now left).
    destruct (nodup string_dec _); [destruct Hin | cbn; lia].
  - rewrite <- (length_map (fun it => get_destino it "N/A") itens).
    apply NoDup_incl_length; [apply NoDup_nodup|].
    intros d Hd. now apply nodup_In in Hd.
Qed.

(** X16: computed from the metrics of a run, the KPIs fail, dividing by
    zero, exactly when the configured pallet count is 0; otherwise the
    resource utilisation and the fragility index lie between 0 and 100 and
    the number of distinct destinations between 1 and the number of items. *)
Theorem kpis_bounds (itens : list Item) (v : Valuation)
    (cfg : PalletsConfig) (m : Metricas) :
  calcular_metricas itens (Some v) cfg = Returned (cheio m) ->
  (calcular_kpis itens m cfg = Raised ZeroDivisionError <->
   quantidade cfg = 0) /\
  (quantidade cfg <> 0 ->
   exists k,
     calcular_kpis itens m cfg = Returned k /\
     (0 <= utilizacao_de_recursos k)%Q /\
     (utilizacao_de_recursos k <= 100)%Q /\
     (0 <= indice_de_fragilidade k)%Q /\
     (indice_de_fragilidade k <= 100)%Q /\
     (1 <= complexidade_logistica k <= List.length itens)%nat /\
     eficiencia_espacial k = taxa_utilizacao_volume m /\
     taxa_de_carregamento k = taxa_utilizacao_itens m).
Proof.
  intros Hm. destruct (calcular_metricas_returned itens v cfg m Hm)
    as [Hne [Hu _]].
  assert (Hlen : (Z.of_nat (List.length itens) =? 0) = false).
  { apply Z.eqb_neq. destruct itens; [congruence | cbn; lia]. }
  split.
  - unfold calcular_kpis. rewrite Hlen.
    destruct (Z.eqb_spec (quantidade cfg) 0) as [E|E]; split; auto;
      [discriminate | congruence].
  - intros Hq. unfold calcular_kpis. rewrite Hlen.
    destruct (Z.eqb_spec (quantidade cfg) 0) as [E|_]; [congruence|].
    eexists. split; [reflexivity|].
    cbn [utilizacao_de_recursos indice_de_fragilidade complexidade_logistica
         eficiencia_espacial taxa_de_carregamento].
    assert (Hfrag : 0 <= conta_frageis itens <= Z.of_nat (List.length itens)).
    { unfold conta_frageis. pose proof (length_filter_le f itens). lia. }
    assert (Hpos : 0 < Z.of_nat (List.length itens))
      by (destruct itens; [congruence | cbn; lia]).
    destruct (truediv_percent_bounds _ _ Hfrag Hpos) as [F1 F2].
    pose proof (used_pallets_range v itens cfg) as Hr. rewrite <- Hu in Hr.
    assert (Hutil : (0 <= truediv (pallets_utilizados m) (quantidade cfg)
                          * 100
                     /\ truediv (pallets_utilizados m) (quantidade cfg) * 100
                        <= 100)%Q).
    { destruct (Z_lt_le_dec 0 (quantidade cfg)) as [Hp|Hn].
      - apply truediv_percent_bounds; lia.
      - assert (E0 : pallets_utilizados m = 0) by lia. rewrite E0.
        assert (Ez : (truediv 0 (quantidade cfg) * 100 == 0)%Q)
          by (unfold truediv, Qdiv; cbn [inject_Z]; ring).
        rewrite Ez. split; discriminate. }
    destruct Hutil as [U1 U2].
    pose proof (destinos_unicos_bounds itens Hne).
    repeat split; auto; lia.
Qed.

Lemma kpis_bounds_witness :
  exists m k,
    calcular_metricas itens_exemplo (Some valor_exemplo) config_exemplo
      = Returned (cheio m) /\
    calcular_kpis itens_exemplo m config_exemplo = Returned k /\
    (utilizacao_de_recursos k <= 100)%Q /\
    complexidade_logistica k = 3%nat.
Proof.
  assert (Hne : itens_exemplo <> []) by discriminate.
  pose proof (calcular_metricas_some itens_exemplo valor_exemplo
                config_exemplo Hne) as Hm.
  eexists.
  destruct (proj2 (kpis_bounds itens_exemplo valor_exemplo config_exemplo
                     _ Hm)) as [k [Hk [_ [Hu _]]]]; [discriminate|].
  exists k. split; [exact Hm|]. split; [exact Hk|]. split; [exact Hu|].
  injection Hk as <-. reflexivity.
Defined.

(** ** The scenario simulator *)

Lemma recomendar_same (m : Metricas) : recomendar m m = Equivalentes.
Proof.
  unfold recomendar.
  rewrite Z.gtb_ltb, Z.ltb_irrefl.
  destruct (Qlt_le_dec _ _) as [H|_]; [|reflexivity].
  now apply Qlt_irrefl in H.
Qed.



(** ** The pallet summary *)

Lemma truediv_unit_bounds (a b : Z) :
  0 <= a <= b -> 0 < b -> (0 <= truediv a b /\ truediv a b <= 1)%Q.
Proof.
  intros [Ha Hab] Hb. unfold truediv.
  assert (Hb' : (0 < inject_Z b)%Q)
    by (change (inject_Z 0 < inject_Z b)%Q; now rewrite <- Zlt_Qlt).
  split.
  - apply Qle_shift_div_l; [exact Hb'|]. rewrite Qmult_0_l.
    change (inject_Z 0 <= inject_Z a)%Q. now rewrite <- Zle_Qle.
  - apply Qle_shift_div_r; [exact Hb'|]. rewrite Qmult_1_l.
    now rewrite <- Zle_Qle.
Qed.

(** X18: for a valuation that satisfies the model, items having
    non-negative mass and volume, the summary of a pallet that holds items
    divides by zero exactly when a capacity is 0; otherwise both progress
    values lie between 0 and 1. *)
Theorem pallet_summary_fractions (itens : list Item) (v : Valuation)
    (cfg : PalletsConfig) (p : nat) :
  Z.of_nat p < quantidade cfg ->
  (forall it, In it itens -> 0 <= mass it /\ 0 <= vol it) ->
  model_holds v (otimizar_model itens cfg) = true ->
  itens_da_palete v itens p <> [] ->
  (resumo_palete itens v cfg p = Some (Raised ZeroDivisionError) <->
   capacidade_volume cfg = 0 \/ capacidade_massa cfg = 0) /\
  (capacidade_volume cfg <> 0 -> capacidade_massa cfg <> 0 ->
   exists pv pm,
     resumo_palete itens v cfg p = Some (Returned (pv, pm)) /\
     (0 <= pv)%Q /\ (pv <= 1)%Q /\ (0 <= pm)%Q /\ (pm <= 1)%Q).
Proof.
  intros Hp Hn Hsat Hne. unfold resumo_palete.
  destruct (itens_da_palete v itens p) as [|e es] eqn:Ep; [congruence|].
  clear Ep Hne.
  destruct (capacidade_holds itens cfg v p Hp Hsat) as [Hm Hv].
  pose proof (peso_palete_nonneg itens v p (fun it H => proj1 (Hn it H))).
  pose proof (vol_palete_nonneg itens v p (fun it H => proj2 (Hn it H))).
  split.
  - destruct (Z.eqb_spec (capacidade_volume cfg) 0) as [Ev|Ev];
      [split; auto|].
    destruct (Z.eqb_spec (capacidade_massa cfg) 0) as [Em|Em];
      [split; auto|].
    split; [discriminate | intros [H1|H1]; congruence].
  - intros Ev Em.
    destruct (Z.eqb_spec (capacidade_volume cfg) 0) as [E|_]; [congruence|].
    destruct (Z.eqb_spec (capacidade_massa cfg) 0) as [E|_]; [congruence|].
    do 2 eexists. split; [reflexivity|].
    destruct (truediv_unit_bounds (vol_palete v itens p)
                (capacidade_volume cfg)) as [V1 V2]; [lia | lia |].
    destruct (truediv_unit_bounds (peso_palete v itens p)
                (capacidade_massa cfg)) as [M1 M2]; [lia | lia |].
    auto.
Qed.

Lemma pallet_summary_fractions_witness :
  exists pv pm,
    resumo_palete itens_exemplo valor_exemplo config_exemplo 0
      = Some (Returned (pv, pm)) /\
    (pv <= 1)%Q /\ (pm <= 1)%Q.
Proof.
  assert (Hn : forall it, In it itens_exemplo -> 0 <= mass it /\ 0 <= vol it).
  { intros it [<-|[<-|[<-|[]]]]; split; discriminate. }
  assert (Hne : itens_da_palete valor_exemplo itens_exemplo 0 <> [])
    by discriminate.
  assert (Hv : capacidade_volume config_exemplo <> 0) by discriminate.
  assert (Hm : capacidade_massa config_exemplo <> 0) by discriminate.
  destruct (proj2 (pallet_summary_fractions itens_exemplo valor_exemplo
                     config_exemplo 0 eq_refl Hn eq_refl Hne) Hv Hm)
    as [pv [pm [Hr [_ [H1 [_ H2]]]]]].
  exists pv, pm. auto.
Defined.

(** ** From the button to the metrics *)


